(** * ckb-tx-rocket: the chain data ingestion and aggregation engine

    A shallow embedding of [ChainDataManager] (game/managers), of
    [CKBChainVizService.handleMessage] (services) and of the process-wide
    [EventBus] they talk through, followed by the properties of the
    specification that concern them. Around the engine, the configuration
    module, the constructor of the service, what the [Game] scene does on
    the bus and what [ChainVisualizationScene] keeps on display are
    embedded as well.

    Conventions of the embedding:
    - a JavaScript [number] is an exact rational or [NaN]; the rounding of
      IEEE-754 doubles, the infinities and the sign of zero are outside the
      model (the code divides only by array lengths that are at least 1, by
      the literal 1000 and by an average it has tested to be positive);
    - a [bigint] is a [Z];
    - a [Map] is an association list in insertion order;
    - a method that can throw runs in a state-and-exception monad over the
      [World]: the bus, the fields of the one manager instance, the console;
    - payloads are typed as the TypeScript interfaces type them; the types
      are erased at run time, so the two handlers that catch are also given
      on a payload that is [null] or [undefined];
    - reading a numeral and integer arithmetic agree with the doubles of the
      code up to the magnitude 2^53; the properties that depend on it say so
      in a hypothesis;
    - strings are byte strings: the white space that number parsing skips
      is the ASCII white space. *)

From Stdlib Require Import List String Ascii Bool ZArith QArith Qcanon Qround Lia.
From Stdlib Require Import Decimal DecimalString Permutation Sorted Lqa.
Import ListNotations.

Local Open Scope string_scope.
Local Open Scope Z_scope.

(* ================================================================= *)
(** ** JavaScript numbers *)

Module Num.

Inductive number : Type :=
| NaN
| Fin (q : Qc).

Definition of_Z (z : Z) : number := Fin (Q2Qc (inject_Z z)).
Definition of_nat (n : nat) : number := of_Z (Z.of_nat n).
Definition zero : number := of_Z 0.

Definition add (a b : number) : number :=
  match a, b with
  | Fin x, Fin y => Fin (x + y)%Qc
  | _, _ => NaN
  end.

Definition sub (a b : number) : number :=
  match a, b with
  | Fin x, Fin y => Fin (x - y)%Qc
  | _, _ => NaN
  end.

Definition mul (a b : number) : number :=
  match a, b with
  | Fin x, Fin y => Fin (x * y)%Qc
  | _, _ => NaN
  end.

(** [a / b]. A zero divisor yields [NaN] here (JavaScript yields an infinity
    or [NaN]); no call site of the embedded code divides by zero. *)
Definition div (a b : number) : number :=
  match a, b with
  | Fin x, Fin y => if Qeq_bool y 0 then NaN else Fin (x / y)%Qc
  | _, _ => NaN
  end.

(** [a > b]: false as soon as one side is [NaN]. *)
Definition gt (a b : number) : bool :=
  match a, b with
  | Fin x, Fin y => negb (Qle_bool x y)
  | _, _ => false
  end.

(** [a < b]: false as soon as one side is [NaN]. *)
Definition lt (a b : number) : bool := gt b a.

(** Whether a number is truthy: neither zero nor [NaN]. *)
Definition truthy (a : number) : bool :=
  match a with
  | Fin x => negb (Qeq_bool x 0)
  | NaN => false
  end.

(** [a === b] on numbers: [NaN] differs from itself. *)
Definition eqb (a b : number) : bool :=
  match a, b with
  | Fin x, Fin y => Qeq_bool x y
  | _, _ => false
  end.

(** [Math.floor]. *)
Definition floor (a : number) : number :=
  match a with
  | Fin x => of_Z (Qfloor x)
  | NaN => NaN
  end.

(** The integer a number denotes, when it is one. *)
Definition to_integer (a : number) : option Z :=
  match a with
  | Fin x => if Qeq_bool x (inject_Z (Qfloor x)) then Some (Qfloor x) else None
  | NaN => None
  end.

End Num.

Declare Scope num_scope.
Delimit Scope num_scope with num.
Bind Scope num_scope with Num.number.
Infix "+" := Num.add : num_scope.
Infix "-" := Num.sub : num_scope.
Infix "*" := Num.mul : num_scope.
Infix "/" := Num.div : num_scope.

(* ================================================================= *)
(** ** Exceptions and completion records *)

Inductive Error : Type :=
| SyntaxError      (* BigInt of a string that is no integer literal *)
| RangeError       (* BigInt of a number that is no integer *)
| ListenerError    (* thrown by a consumer's callback *)
| TypeError.       (* reading a property of null or undefined *)

Inductive Completion (A : Type) : Type :=
| Normal (a : A)
| Throw (e : Error).

Arguments Normal {A} a.
Arguments Throw {A} e.

(* ================================================================= *)
(** ** Strings read as numbers: [BigInt(string)] and [parseInt(string)] *)

Module StringNumeric.

Definition is_whitespace (c : ascii) : bool :=
  let n := nat_of_ascii c in
  ((9 <=? n) && (n <=? 13))%nat || (n =? 32)%nat.

Fixpoint trim_start (s : string) : string :=
  match s with
  | String c r => if is_whitespace c then trim_start r else s
  | EmptyString => EmptyString
  end.

Fixpoint rev_onto (s acc : string) : string :=
  match s with
  | String c r => rev_onto r (String c acc)
  | EmptyString => acc
  end.

Definition rev (s : string) : string := rev_onto s EmptyString.

Definition trim (s : string) : string := rev (trim_start (rev (trim_start s))).

(** The value of a digit in radix at most 36. *)
Definition digit_value (c : ascii) : option Z :=
  let n := Z.of_nat (nat_of_ascii c) in
  if (48 <=? n) && (n <=? 57) then Some (n - 48)
  else if (97 <=? n) && (n <=? 122) then Some (n - 87)
  else if (65 <=? n) && (n <=? 90) then Some (n - 55)
  else None.

Definition radix_digit (radix : Z) (c : ascii) : option Z :=
  match digit_value c with
  | Some d => if d <? radix then Some d else None
  | None => None
  end.

(** Every character must be a digit of the radix. *)
Fixpoint digits_value (radix acc : Z) (s : string) : option Z :=
  match s with
  | EmptyString => Some acc
  | String c r =>
      match radix_digit radix c with
      | Some d => digits_value radix (acc * radix + d) r
      | None => None
      end
  end.

Definition nonempty_digits (radix : Z) (s : string) : option Z :=
  match s with
  | EmptyString => None
  | _ => digits_value radix 0 s
  end.

(** StringToBigInt: white space is trimmed; the empty literal is 0; a decimal
    literal may be signed; [0x], [0o] and [0b] literals are unsigned. *)
Definition StringToBigInt (s : string) : option Z :=
  match trim s with
  | EmptyString => Some 0
  | String "+" r => nonempty_digits 10 r
  | String "-" r => option_map Z.opp (nonempty_digits 10 r)
  | String "0" (String "x" r) | String "0" (String "X" r) => nonempty_digits 16 r
  | String "0" (String "o" r) | String "0" (String "O" r) => nonempty_digits 8 r
  | String "0" (String "b" r) | String "0" (String "B" r) => nonempty_digits 2 r
  | t => digits_value 10 0 t
  end.

(** [BigInt(s)] for a string [s]. *)
Definition BigInt (s : string) : Completion Z :=
  match StringToBigInt s with
  | Some z => Normal z
  | None => Throw SyntaxError
  end.

(** [BigInt(n)] for a number [n]. *)
Definition BigInt_of_number (n : Num.number) : Completion Z :=
  match Num.to_integer n with
  | Some z => Normal z
  | None => Throw RangeError
  end.

(** The longest prefix of digits of the radix: its value and whether it is
    non-empty. *)
Fixpoint digits_prefix (radix acc : Z) (seen : bool) (s : string) : Z * bool :=
  match s with
  | EmptyString => (acc, seen)
  | String c r =>
      match radix_digit radix c with
      | Some d => digits_prefix radix (acc * radix + d) true r
      | None => (acc, seen)
      end
  end.

Definition strip_sign (s : string) : Z * string :=
  match s with
  | String "-" r => (-1, r)
  | String "+" r => (1, r)
  | _ => (1, s)
  end.

Definition strip_prefix (s : string) : Z * string :=
  match s with
  | String "0" (String "x" r) | String "0" (String "X" r) => (16, r)
  | _ => (10, s)
  end.

(** [parseInt(s)] with no radix argument. The result is the integer the
    digits denote; it is the number the code gets as long as its magnitude
    is at most 2^53, the range in which a double holds every integer. Beyond
    it the code's double is rounded, or infinite, which is outside the model
    of numbers: the properties that speak of the value read carry that bound
    as a hypothesis. *)
Definition parseInt (s : string) : Num.number :=
  let (sign, s1) := strip_sign (trim_start s) in
  let (radix, s2) := strip_prefix s1 in
  match digits_prefix radix 0 false s2 with
  | (v, true) => Num.of_Z (sign * v)
  | (_, false) => Num.NaN
  end.

Definition hex_prefix (s : string) : option string :=
  match s with
  | String "0" (String "x" r) | String "0" (String "X" r) => Some r
  | _ => None
  end.

(** [parseInt(s, radix)] for an integer [radix]: 0 stands for 10, a radix
    outside 2..36 yields [NaN], and a [0x] prefix is skipped when the radix
    is 0 or 16 only. As for [parseInt], the result is the number the code
    gets as long as its magnitude is at most 2^53. *)
Definition parseInt_radix (s : string) (radix : Z) : Num.number :=
  let (sign, s1) := strip_sign (trim_start s) in
  if negb (radix =? 0) && ((radix <? 2) || (36 <? radix)) then Num.NaN
  else
    let R := if radix =? 0 then 10 else radix in
    let (R, s2) :=
      match (if (radix =? 0) || (radix =? 16) then hex_prefix s1 else None) with
      | Some r => (16, r)
      | None => (R, s1)
      end in
    match digits_prefix R 0 false s2 with
    | (v, true) => Num.of_Z (sign * v)
    | (_, false) => Num.NaN
    end.

End StringNumeric.

(* ================================================================= *)
(** ** Arrays *)

Module Array.

Section WithElement.
Context {A : Type}.

(** [a.slice(start)]: a negative [start] counts from the end. *)
Definition slice_from (a : list A) (start : Z) : list A :=
  let len := Z.of_nat (List.length a) in
  let k := if start <? 0 then Z.max (len + start) 0 else Z.min start len in
  skipn (Z.to_nat k) a.

(** [a.push(x)]. *)
Definition push (a : list A) (x : A) : list A := a ++ [x].

(** [a.shift()], the array that is left. *)
Definition shift (a : list A) : list A := tl a.

(** [a.reduce(f, init)]. *)
Definition reduce {B : Type} (f : B -> A -> B) (init : B) (a : list A) : B :=
  fold_left f a init.

(** [for (let i = start; i < stop; i++) acc = body(i, acc)], with [count]
    the number of iterations left. *)
Fixpoint for_loop {B : Type} (body : nat -> B -> B) (i count : nat) (acc : B) : B :=
  match count with
  | O => acc
  | S n => for_loop body (S i) n (body i acc)
  end.

(** A relative index of [slice]: negative counts from the end, and the
    result is clamped to the array. *)
Definition relative_index (len i : Z) : Z :=
  if i <? 0 then Z.max (len + i) 0 else Z.min i len.

(** [a.slice(start, end)], for integer arguments. *)
Definition slice (a : list A) (start stop : Z) : list A :=
  let len := Z.of_nat (List.length a) in
  let k := relative_index len start in
  let final := relative_index len stop in
  firstn (Z.to_nat (final - k)) (skipn (Z.to_nat k) a).

(** [a.sort(compare)] is stable: of two elements, the later one moves in
    front of the earlier one only when [compare(earlier, later) > 0]. For a
    comparator that orders the elements consistently, which the language
    standard requires for a defined result, this is the one sorted array. *)
Fixpoint sort_insert (compare : A -> A -> Num.number) (x : A) (sorted : list A) : list A :=
  match sorted with
  | [] => [x]
  | y :: r =>
      if Num.gt (compare x y) Num.zero then y :: sort_insert compare x r
      else x :: y :: r
  end.

Definition sort (compare : A -> A -> Num.number) (a : list A) : list A :=
  fold_right (sort_insert compare) [] a.
End WithElement.

(** [a[i]] in arithmetic: an index out of range reads [undefined], which
    arithmetic turns into [NaN]. *)
Definition get (a : list Num.number) (i : nat) : Num.number := nth i a Num.NaN.

End Array.

(* ================================================================= *)
(** ** [Map<string, V>]: entries in insertion order *)

Module JsMap.

Section WithValue.
Context {V : Type}.

Definition t : Type := list (string * V).

Definition empty : t := [].

Fixpoint get (m : t) (k : string) : option V :=
  match m with
  | [] => None
  | (k', v) :: r => if String.eqb k' k then Some v else get r k
  end.

(** [set]: a key already present keeps its place and takes the new value; a
    new key goes to the end. *)
Fixpoint set (m : t) (k : string) (v : V) : t :=
  match m with
  | [] => [(k, v)]
  | (k', v') :: r =>
      if String.eqb k' k then (k', v) :: r else (k', v') :: set r k v
  end.

(** [delete]: the entry of the key, if there is one, is removed. *)
Fixpoint delete (m : t) (k : string) : t :=
  match m with
  | [] => []
  | (k', v') :: r => if String.eqb k' k then r else (k', v') :: delete r k
  end.

Definition values (m : t) : list V := map snd m.
Definition keys (m : t) : list string := map fst m.
Definition size (m : t) : nat := List.length m.

(** How many entries carry the key. *)
Definition count (m : t) (k : string) : nat :=
  List.length (filter (fun e => String.eqb (fst e) k) m).
End WithValue.

Arguments t V : clear implicits.

End JsMap.

(* ================================================================= *)
(** ** Data model *)

(** services/CKBChainVizService.ts: [Block]. *)
Module Block.
Record t : Type := {
  blockNumber : string;
  blockHash : string;
  timestamp : string;
  miner : string;
  reward : string;
  transactionCount : Num.number;
  proposalsCount : option Num.number;
  unclesCount : option Num.number;
  transactions : list string
}.
End Block.

Module TxContext.
Record t : Type := {
  blockNumber : option string;
  blockHash : option string;
  txIndexInBlock : option Num.number
}.
End TxContext.

(** [Transaction]. *)
Module Transaction.
Record t : Type := {
  txHash : string;
  timestamp : string;
  context : option TxContext.t
}.
End Transaction.

Inductive Status : Type := PENDING | PROPOSED | CONFIRMED | REJECTED.

Definition Status_eqb (a b : Status) : bool :=
  match a, b with
  | PENDING, PENDING | PROPOSED, PROPOSED
  | CONFIRMED, CONFIRMED | REJECTED, REJECTED => true
  | _, _ => false
  end.

(** [EnhancedTransaction extends Transaction]. *)
Module EnhancedTransaction.
Record t : Type := {
  txHash : string;
  timestamp : string;
  context : option TxContext.t;
  status : Status
}.

(** [{ ...(payload as Transaction), status }]. *)
Definition spread (p : Transaction.t) (s : Status) : t :=
  {| txHash := Transaction.txHash p;
     timestamp := Transaction.timestamp p;
     context := Transaction.context p;
     status := s |}.
End EnhancedTransaction.

(** [WebSocketMessage]: [type] is whatever string arrives on the wire. *)
Module WebSocketMessage.
Inductive payload_t : Type :=
| OfBlock (b : Block.t)
| OfTransaction (t : Transaction.t).

Record t : Type := {
  channel : string;
  type : string;
  payload : payload_t
}.
End WebSocketMessage.

Module Date.
(** A [Date] is its time value: milliseconds since the epoch, or [NaN]. *)
Record t : Type := { getTime : Num.number }.
End Date.

(** [ProcessedBlockData]. *)
Module ProcessedBlockData.
Record t : Type := {
  hash : string;
  number : Num.number;
  timestamp : Date.t;
  transactionCount : Num.number;
  totalValue : Z;
  size : Num.number;
  miner : string;
  difficulty : Num.number
}.
End ProcessedBlockData.

(** [ProcessedTransactionData]. *)
Module ProcessedTransactionData.
Record t : Type := {
  hash : string;
  status : Status;
  value : Z;
  fee : Z;
  inputCount : Num.number;
  outputCount : Num.number;
  size : Num.number;
  timestamp : option Date.t
}.
End ProcessedTransactionData.

(** [ChainVisualizationData['metrics']]. *)
Module Metrics.
Record t : Type := {
  averageBlockTime : Num.number;
  transactionThroughput : Num.number;
  networkHashRate : Z;
  pendingTxCount : nat;
  confirmationTime : Num.number
}.
End Metrics.

(** [ChainVisualizationData]. *)
Module ChainVisualizationData.
Record t : Type := {
  blocks : list ProcessedBlockData.t;
  transactions : list ProcessedTransactionData.t;
  metrics : Metrics.t
}.
End ChainVisualizationData.

(* ================================================================= *)
(** ** The world: event bus, manager fields, console *)

(** What travels on the bus. The normalizer forwards wire payloads as they
    are ([Raw]) or with a status added ([WithStatus]); the manager publishes
    processed records, metrics and hashes. *)
Inductive Payload : Type :=
| Raw (p : WebSocketMessage.payload_t)
| WithStatus (p : WebSocketMessage.payload_t) (s : Status)
| OfProcessedBlock (b : ProcessedBlockData.t)
| OfProcessedTransaction (t : ProcessedTransactionData.t)
| OfMetrics (m : Metrics.t)
| OfHash (h : string)
| NoPayload.

(** The code a listener runs: one of the manager's three handlers bound to
    the manager, or a callback of a consumer adapter, which reads the payload
    and either returns or throws. *)
Inductive Callback : Type :=
| HandleNewBlock
| HandleTransactionUpdate
| HandleTransactionRejected
| Consumer (throws : Payload -> bool).

(** A function object: [fn] is its identity, the one [===] compares. *)
Record Listener : Type := { fn : nat; callback : Callback }.

(** The private fields of [ChainDataManager]. *)
Module Fields.
Record t : Type := {
  blocks : JsMap.t ProcessedBlockData.t;
  transactions : JsMap.t ProcessedTransactionData.t;
  blockTimestamps : list Num.number;
  transactionCounts : list Num.number
}.

Definition initial : t :=
  {| blocks := JsMap.empty;
     transactions := JsMap.empty;
     blockTimestamps := [];
     transactionCounts := [] |}.

Definition with_blocks (v : JsMap.t ProcessedBlockData.t) (m : t) : t :=
  {| blocks := v; transactions := transactions m;
     blockTimestamps := blockTimestamps m; transactionCounts := transactionCounts m |}.
Definition with_transactions (v : JsMap.t ProcessedTransactionData.t) (m : t) : t :=
  {| blocks := blocks m; transactions := v;
     blockTimestamps := blockTimestamps m; transactionCounts := transactionCounts m |}.
Definition with_blockTimestamps (v : list Num.number) (m : t) : t :=
  {| blocks := blocks m; transactions := transactions m;
     blockTimestamps := v; transactionCounts := transactionCounts m |}.
Definition with_transactionCounts (v : list Num.number) (m : t) : t :=
  {| blocks := blocks m; transactions := transactions m;
     blockTimestamps := blockTimestamps m; transactionCounts := v |}.
End Fields.

Inductive LogLevel : Type := LOG | WARN | ERROR.

Inductive LogArg : Type :=
| Text (s : string)
| ANumber (n : Num.number)
| AWire (p : WebSocketMessage.payload_t)
| ABlock (b : Block.t)
| ATransaction (t : EnhancedTransaction.t)
| AMessage (m : WebSocketMessage.t)
| AError (e : Error).

(** [emitted] and [console] record what was emitted and logged so far; the
    code keeps no such lists, the properties read them. *)
Record World : Type := {
  listeners : list (string * Listener);     (* EventBus, in order of registration *)
  next_function : nat;                      (* identity of the next function object *)
  manager : Fields.t;                       (* the ChainDataManager instance *)
  emitted : list (string * Payload);        (* every EventBus.emit so far *)
  console : list (LogLevel * list LogArg)
}.

Definition with_listeners (v : list (string * Listener)) (w : World) : World :=
  {| listeners := v; next_function := next_function w; manager := manager w;
     emitted := emitted w; console := console w |}.
Definition with_next_function (v : nat) (w : World) : World :=
  {| listeners := listeners w; next_function := v; manager := manager w;
     emitted := emitted w; console := console w |}.
Definition with_manager (v : Fields.t) (w : World) : World :=
  {| listeners := listeners w; next_function := next_function w; manager := v;
     emitted := emitted w; console := console w |}.
Definition with_emitted (v : list (string * Payload)) (w : World) : World :=
  {| listeners := listeners w; next_function := next_function w; manager := manager w;
     emitted := v; console := console w |}.
Definition with_console (v : list (LogLevel * list LogArg)) (w : World) : World :=
  {| listeners := listeners w; next_function := next_function w; manager := manager w;
     emitted := emitted w; console := v |}.

Definition empty_world : World :=
  {| listeners := []; next_function := O; manager := Fields.initial;
     emitted := []; console := [] |}.

(** *** Computations that change the world and may throw *)

Definition M (A : Type) : Type := World -> Completion A * World.

Definition ret {A} (a : A) : M A := fun w => (Normal a, w).

Definition bind {A B} (c : M A) (k : A -> M B) : M B :=
  fun w =>
    match c w with
    | (Normal a, w') => k a w'
    | (Throw e, w') => (Throw e, w')
    end.

Definition throw {A} (e : Error) : M A := fun w => (Throw e, w).

(** [try { body } catch (error) { handler(error) }]. *)
Definition try_catch {A} (body : M A) (handler : Error -> M A) : M A :=
  fun w =>
    match body w with
    | (Normal a, w') => (Normal a, w')
    | (Throw e, w') => handler e w'
    end.

Definition lift {A} (c : Completion A) : M A := fun w => (c, w).

Notation "x <- c1 ;; c2" := (bind c1 (fun x => c2))
  (at level 61, c1 at next level, right associativity).
Notation "c1 ;; c2" := (bind c1 (fun _ => c2))
  (at level 61, right associativity).

Definition update_manager (f : Fields.t -> Fields.t) : M unit :=
  fun w => (Normal tt, with_manager (f (manager w)) w).

Definition read_manager : M Fields.t := fun w => (Normal (manager w), w).

Definition console_write (level : LogLevel) (args : list LogArg) : M unit :=
  fun w => (Normal tt, with_console (console w ++ [(level, args)]) w).

(** The world a computation leaves, and how it completed. *)
Definition exec {A} (c : M A) (w : World) : World := snd (c w).
Definition completion {A} (c : M A) (w : World) : Completion A := fst (c w).

(* ================================================================= *)
(** ** [EventBus]: Phaser's [Events.EventEmitter] *)

Module EventBus.

(** [on(event, fn)]: the listener is added after those already there. *)
Definition on (event : string) (f : Listener) : M unit :=
  fun w => (Normal tt, with_listeners (listeners w ++ [(event, f)]) w).

(** [off(event, fn)]: the listeners of [event] whose function is [fn] itself
    are removed; when there is none, nothing happens. *)
Definition off (event : string) (f : Listener) : M unit :=
  fun w =>
    (Normal tt,
     with_listeners
       (filter (fun e => negb (String.eqb (fst e) event && Nat.eqb (fn (snd e)) (fn f)))
               (listeners w))
       w).

Definition listeners_of (event : string) (ls : list (string * Listener)) : list Listener :=
  map snd (filter (fun e => String.eqb (fst e) event) ls).

(** The listeners are called in order; a callback that throws ends the
    emission. *)
Fixpoint call_each (call : Callback -> Payload -> M unit)
    (ls : list Listener) (p : Payload) : M unit :=
  match ls with
  | [] => ret tt
  | l :: r => call (callback l) p ;; call_each call r p
  end.

(** [emit(event, payload)], given what calling a callback does: the listeners
    registered when the emission starts are the ones called. *)
Definition emit_with (call : Callback -> Payload -> M unit)
    (event : string) (p : Payload) : M unit :=
  fun w =>
    call_each call (listeners_of event (listeners w)) p
      (with_emitted (emitted w ++ [(event, p)]) w).

(** Calling a callback with a payload that no handler of the manager takes
    (a processed record, a metrics object, a hash): only a consumer's
    callback has something to do. *)
Definition call_consumer (cb : Callback) (p : Payload) : M unit :=
  match cb with
  | Consumer throws => if throws p then throw ListenerError else ret tt
  | _ => ret tt
  end.

(** A fresh function object, as [f.bind(this)] or a function expression
    creates one. *)
Definition new_function (cb : Callback) : M Listener :=
  fun w =>
    (Normal {| fn := next_function w; callback := cb |},
     with_next_function (S (next_function w)) w).

(** [off(event)] with no function: every listener of [event] is removed. *)
Definition off_all (event : string) : M unit :=
  fun w =>
    (Normal tt,
     with_listeners (filter (fun e => negb (String.eqb (fst e) event)) (listeners w)) w).

End EventBus.

(* ================================================================= *)
(** ** [ChainDataManager] *)

Module ChainDataManager.

(** [this.handleX.bind(this)]: every evaluation yields a new function. *)
Definition bind_this (cb : Callback) : M Listener := EventBus.new_function cb.

Definition setupEventListeners : M unit :=
  f1 <- bind_this HandleNewBlock ;;
  EventBus.on "block-finalized" f1 ;;
  f2 <- bind_this HandleTransactionUpdate ;;
  EventBus.on "transaction-pending" f2 ;;
  f3 <- bind_this HandleTransactionUpdate ;;
  EventBus.on "transaction-proposed" f3 ;;
  f4 <- bind_this HandleTransactionUpdate ;;
  EventBus.on "transaction-confirmed" f4 ;;
  f5 <- bind_this HandleTransactionRejected ;;
  EventBus.on "transaction-rejected" f5.

(** [new ChainDataManager()]: the field initialisers, then the constructor
    body. *)
Definition constructor : M unit :=
  update_manager (fun _ => Fields.initial) ;;
  setupEventListeners.

Definition cleanup : M unit :=
  f1 <- bind_this HandleNewBlock ;;
  EventBus.off "block-finalized" f1 ;;
  f2 <- bind_this HandleTransactionUpdate ;;
  EventBus.off "transaction-pending" f2 ;;
  f3 <- bind_this HandleTransactionUpdate ;;
  EventBus.off "transaction-proposed" f3 ;;
  f4 <- bind_this HandleTransactionUpdate ;;
  EventBus.off "transaction-confirmed" f4 ;;
  f5 <- bind_this HandleTransactionRejected ;;
  EventBus.off "transaction-rejected" f5.

(** *** Metrics: functions of the fields *)

Definition calculateAverageBlockTime (m : Fields.t) : Num.number :=
  let ts := Fields.blockTimestamps m in
  if (List.length ts <? 2)%nat then Num.zero
  else
    let intervals :=
      Array.for_loop
        (fun i acc => Array.push acc (Array.get ts i - Array.get ts (i - 1))%num)
        1 (List.length ts - 1) [] in
    (Array.reduce (fun sum interval => sum + interval)%num Num.zero intervals
       / Num.of_nat (List.length intervals) / Num.of_Z 1000)%num.

Definition calculateTransactionThroughput (m : Fields.t) : Num.number :=
  let counts := Fields.transactionCounts m in
  if (List.length counts =? 0)%nat then Num.zero
  else
    let recentCounts := Array.slice_from counts (-10) in
    let totalTx := Array.reduce (fun sum count => sum + count)%num Num.zero recentCounts in
    let avgBlockTime := calculateAverageBlockTime m in
    if Num.gt avgBlockTime Num.zero
    then (totalTx / (Num.of_nat (List.length recentCounts) * avgBlockTime))%num
    else Num.zero.

Definition estimateHashRate (m : Fields.t) : Completion Z :=
  if (JsMap.size (Fields.blocks m) =? 0)%nat then Normal 0
  else
    let recentBlocks := Array.slice_from (JsMap.values (Fields.blocks m)) (-10) in
    let avgDifficulty :=
      (Array.reduce (fun sum block => sum + ProcessedBlockData.difficulty block)%num
         Num.zero recentBlocks
         / Num.of_nat (List.length recentBlocks))%num in
    let avgBlockTime := calculateAverageBlockTime m in
    if Num.gt avgBlockTime Num.zero
    then StringNumeric.BigInt_of_number (Num.floor (avgDifficulty / avgBlockTime)%num)
    else Normal 0.

Definition calculateAverageConfirmationTime (m : Fields.t) : Num.number :=
  (calculateAverageBlockTime m * Num.of_Z 6)%num.

Definition getMetrics (m : Fields.t) : Completion Metrics.t :=
  let avgBlockTime := calculateAverageBlockTime m in
  let txThroughput := calculateTransactionThroughput m in
  let pendingCount :=
    List.length
      (filter (fun tx => Status_eqb (ProcessedTransactionData.status tx) PENDING)
              (JsMap.values (Fields.transactions m))) in
  match estimateHashRate m with
  | Normal hashRate =>
      Normal {| Metrics.averageBlockTime := avgBlockTime;
                Metrics.transactionThroughput := txThroughput;
                Metrics.networkHashRate := hashRate;
                Metrics.pendingTxCount := pendingCount;
                Metrics.confirmationTime := calculateAverageConfirmationTime m |}
  | Throw e => Throw e
  end.

(** *** Read accessors *)

Definition getPendingTransactions (m : Fields.t) : list ProcessedTransactionData.t :=
  filter (fun tx => Status_eqb (ProcessedTransactionData.status tx) PENDING)
         (JsMap.values (Fields.transactions m)).

Definition getBlockByHash (m : Fields.t) (hash : string) : option ProcessedBlockData.t :=
  JsMap.get (Fields.blocks m) hash.

Definition getTransactionByHash (m : Fields.t) (hash : string)
    : option ProcessedTransactionData.t :=
  JsMap.get (Fields.transactions m) hash.

(** [getVisualizationData()]. *)
Definition getVisualizationData (m : Fields.t) : Completion ChainVisualizationData.t :=
  let blocks := Array.slice_from (JsMap.values (Fields.blocks m)) (-50) in
  let transactions := Array.slice_from (JsMap.values (Fields.transactions m)) (-100) in
  match getMetrics m with
  | Normal metrics =>
      Normal {| ChainVisualizationData.blocks := blocks;
                ChainVisualizationData.transactions := transactions;
                ChainVisualizationData.metrics := metrics |}
  | Throw e => Throw e
  end.

(** [getRecentBlocks(count)], [count] an integer (10 when omitted). *)
Definition getRecentBlocks (m : Fields.t) (count : Z) : list ProcessedBlockData.t :=
  Array.slice
    (Array.sort
       (fun a b => (ProcessedBlockData.number b - ProcessedBlockData.number a)%num)
       (JsMap.values (Fields.blocks m)))
    0 count.

(** [tx.timestamp!.getTime()]; a missing timestamp is not reached by the
    code, which filters such records out first. *)
Definition timestamp_time (tx : ProcessedTransactionData.t) : Num.number :=
  match ProcessedTransactionData.timestamp tx with
  | Some d => Date.getTime d
  | None => Num.NaN
  end.

(** [getRecentTransactions(count)], [count] an integer (20 when omitted). A
    [Date] object is truthy, whatever its time value. *)
Definition getRecentTransactions (m : Fields.t) (count : Z)
    : list ProcessedTransactionData.t :=
  Array.slice
    (Array.sort
       (fun a b => (timestamp_time b - timestamp_time a)%num)
       (filter (fun tx => match ProcessedTransactionData.timestamp tx with
                          | Some _ => true
                          | None => false
                          end)
               (JsMap.values (Fields.transactions m))))
    0 count.

(** [EventBus.emit] as the handlers below call it: what they publish is a
    processed record, a metrics object or a hash. *)
Definition emit : string -> Payload -> M unit :=
  EventBus.emit_with EventBus.call_consumer.

(** [handleTransactionRejected] reads nothing but the hash. *)
Definition handleTransactionRejected (transaction : EnhancedTransaction.t) : M unit :=
  update_manager (fun m =>
    Fields.with_transactions
      (JsMap.delete (Fields.transactions m) (EnhancedTransaction.txHash transaction)) m) ;;
  emit "transaction-removed" (OfHash (EnhancedTransaction.txHash transaction)).

Section WithHost.

(** [Date.parse] of the host: the time value of a date string, [NaN] when
    the host cannot read it. Its grammar is left to the implementation by
    the language standard. *)
Variable Date_parse : string -> Num.number.

(** [new Date(s)] for a string [s]. *)
Definition new_Date (s : string) : Date.t := {| Date.getTime := Date_parse s |}.

Definition processBlock (block : Block.t) : Completion ProcessedBlockData.t :=
  match StringNumeric.BigInt
          (if String.eqb (Block.reward block) "" then "0" else Block.reward block) with
  | Normal totalValue =>
      Normal {| ProcessedBlockData.hash := Block.blockHash block;
                ProcessedBlockData.number := StringNumeric.parseInt (Block.blockNumber block);
                ProcessedBlockData.timestamp := new_Date (Block.timestamp block);
                ProcessedBlockData.transactionCount := Block.transactionCount block;
                ProcessedBlockData.totalValue := totalValue;
                ProcessedBlockData.size := Num.zero;
                ProcessedBlockData.miner := Block.miner block;
                ProcessedBlockData.difficulty := Num.zero |}
  | Throw e => Throw e
  end.

Definition processTransaction (transaction : EnhancedTransaction.t)
    : Completion ProcessedTransactionData.t :=
  Normal {| ProcessedTransactionData.hash := EnhancedTransaction.txHash transaction;
            ProcessedTransactionData.status := EnhancedTransaction.status transaction;
            ProcessedTransactionData.value := 0;
            ProcessedTransactionData.fee := 0;
            ProcessedTransactionData.inputCount := Num.zero;
            ProcessedTransactionData.outputCount := Num.zero;
            ProcessedTransactionData.size := Num.zero;
            ProcessedTransactionData.timestamp :=
              Some (new_Date (EnhancedTransaction.timestamp transaction)) |}.

(** [a.push(x); if (a.length > 100) a.shift()]. *)
Definition push_bounded (a : list Num.number) (x : Num.number) : list Num.number :=
  let a' := Array.push a x in
  if (100 <? List.length a')%nat then Array.shift a' else a'.

Definition handleNewBlock (block : Block.t) : M unit :=
  try_catch
    (console_write LOG [Text "Processing new block:"; Text (Block.blockHash block);
                        Text "with data:"; ABlock block] ;;
     processedBlock <- lift (processBlock block) ;;
     update_manager (fun m =>
       Fields.with_blocks
         (JsMap.set (Fields.blocks m) (Block.blockHash block) processedBlock) m) ;;
     update_manager (fun m =>
       Fields.with_blockTimestamps
         (push_bounded (Fields.blockTimestamps m)
            (Date.getTime (ProcessedBlockData.timestamp processedBlock))) m) ;;
     update_manager (fun m =>
       Fields.with_transactionCounts
         (push_bounded (Fields.transactionCounts m)
            (ProcessedBlockData.transactionCount processedBlock)) m) ;;
     emit "processed-block-data" (OfProcessedBlock processedBlock) ;;
     this <- read_manager ;;
     metrics <- lift (getMetrics this) ;;
     emit "chain-metrics-updated" (OfMetrics metrics) ;;
     console_write LOG [Text "Successfully processed block:";
                        Text (ProcessedBlockData.hash processedBlock);
                        ANumber (ProcessedBlockData.number processedBlock)])
    (fun error =>
       console_write ERROR [Text "Error processing block:";
                            Text (Block.blockHash block); AError error] ;;
       console_write ERROR [Text "Block data:"; ABlock block]).

Definition handleTransactionUpdate (transaction : EnhancedTransaction.t) : M unit :=
  try_catch
    (processedTx <- lift (processTransaction transaction) ;;
     update_manager (fun m =>
       Fields.with_transactions
         (JsMap.set (Fields.transactions m)
            (EnhancedTransaction.txHash transaction) processedTx) m) ;;
     emit "processed-transaction-data" (OfProcessedTransaction processedTx))
    (fun error =>
       console_write ERROR [Text "Error processing transaction:";
                            Text (EnhancedTransaction.txHash transaction); AError error] ;;
       console_write ERROR [Text "Transaction data:"; ATransaction transaction]).

(** *** The handlers on whatever payload arrives

    The parameter types of the handlers are erased at run time: a listener
    is called with whatever was emitted, and [handleMessage] emits the
    payload of the wire message unchecked. [None] stands for a payload that
    is [null] or [undefined]; reading a property of it throws. *)
Definition read_property {P A : Type} (payload : option P) (property : P -> A) : M A :=
  match payload with
  | Some p => ret (property p)
  | None => throw TypeError
  end.

(** [handleNewBlock]: on an object, the body above. On [null] or [undefined]
    the first statement of the [try] block throws when it reads
    [block.blockHash] for its log line, and the first statement of the
    [catch] block reads [block.blockHash] again: nothing catches that. *)
Definition handleNewBlock_payload (payload : option Block.t) : M unit :=
  match payload with
  | Some block => handleNewBlock block
  | None =>
      try_catch
        (blockHash <- read_property payload Block.blockHash ;;
         console_write LOG [Text "Processing new block:"; Text blockHash])
        (fun error =>
           blockHash <- read_property payload Block.blockHash ;;
           console_write ERROR [Text "Error processing block:"; Text blockHash;
                                AError error])
  end.

(** [handleTransactionUpdate]: likewise; [processTransaction] reads
    [transaction.txHash] first, and the [catch] block reads it again. *)
Definition handleTransactionUpdate_payload (payload : option EnhancedTransaction.t)
    : M unit :=
  match payload with
  | Some transaction => handleTransactionUpdate transaction
  | None =>
      try_catch
        (txHash <- read_property payload EnhancedTransaction.txHash ;;
         ret tt)
        (fun error =>
           txHash <- read_property payload EnhancedTransaction.txHash ;;
           console_write ERROR [Text "Error processing transaction:"; Text txHash;
                                AError error])
  end.

(** Calling a listener's function with the payload of an emission. The
    handlers of the manager are called on the payloads their parameter
    types announce; any other pairing is outside the typed model and does
    nothing. *)
Definition call (cb : Callback) (p : Payload) : M unit :=
  match cb, p with
  | HandleNewBlock, Raw (WebSocketMessage.OfBlock block) => handleNewBlock block
  | HandleTransactionUpdate, WithStatus (WebSocketMessage.OfTransaction t) s =>
      handleTransactionUpdate (EnhancedTransaction.spread t s)
  | HandleTransactionRejected, WithStatus (WebSocketMessage.OfTransaction t) s =>
      handleTransactionRejected (EnhancedTransaction.spread t s)
  | Consumer _, _ => EventBus.call_consumer cb p
  | _, _ => ret tt
  end.

(** [EventBus.emit] in full. *)
Definition EventBus_emit : string -> Payload -> M unit := EventBus.emit_with call.

End WithHost.

End ChainDataManager.

(* ================================================================= *)
(** ** [chainviz.config]: the configuration read from the environment *)

(** [ChainVizConfig]. *)
Module ChainVizConfig.
Record t : Type := {
  url : string;
  timeout : Num.number;
  autoConnect : bool
}.
End ChainVizConfig.

Module Config.

(** What the module writes to the console: the level, the message and the
    object logged after it, if any. *)
Record Entry : Type := {
  level : LogLevel;
  message : string;
  logged : option ChainVizConfig.t
}.

Section WithEnv.
(** [import.meta.env]: a variable is a string when it is defined. *)
Variable env : string -> option string.

Definition getEnvVar (key defaultValue : string) : string :=
  match env key with
  | Some value => if String.eqb value "" then defaultValue else value
  | None => defaultValue
  end.

Definition getEnvNumber (key : string) (defaultValue : Num.number) : Num.number :=
  match env key with
  | Some value =>
      if String.eqb value "" then defaultValue else StringNumeric.parseInt_radix value 10
  | None => defaultValue
  end.

Definition getEnvBoolean (key : string) (defaultValue : bool) : bool :=
  match env key with
  | None => defaultValue
  | Some value => String.eqb value "true" || String.eqb value "1"
  end.

Definition chainVizConfig : ChainVizConfig.t :=
  {| ChainVizConfig.url := getEnvVar "VITE_CKB_CHAINVIZ_URL" "http://localhost:3000";
     ChainVizConfig.timeout := getEnvNumber "VITE_CKB_CHAINVIZ_TIMEOUT" (Num.of_Z 10000);
     ChainVizConfig.autoConnect := getEnvBoolean "VITE_CKB_CHAINVIZ_AUTO_CONNECT" true |}.

Definition url_warning : Entry :=
  {| level := WARN;
     message := "CKB ChainViz URL not configured. Using default: http://localhost:3000";
     logged := None |}.

Definition timeout_warning : Entry :=
  {| level := WARN;
     message := "CKB ChainViz timeout too low. Minimum recommended: 1000ms";
     logged := None |}.

(** The statements the module runs when it is loaded, as the console
    entries they leave. *)
Definition load : list Entry :=
  ([ {| level := LOG; message := "CKB ChainViz Configuration:";
        logged := Some chainVizConfig |} ]
   ++ (if String.eqb (ChainVizConfig.url chainVizConfig) "" then [url_warning] else [])
   ++ (if Num.lt (ChainVizConfig.timeout chainVizConfig) (Num.of_Z 1000)
       then [timeout_warning] else []))%list.

End WithEnv.

End Config.

(* ================================================================= *)
(** ** [CKBChainVizService] *)

Module CKBChainVizService.

(** The fields the constructor sets ([socket], which it leaves [null],
    belongs to socket.io and is not modelled). *)
Record t : Type := {
  baseUrl : string;
  timeout : Num.number;
  isConnected : bool
}.

(** [new CKBChainVizService(baseUrl, timeout)], both arguments optional. *)
Definition constructor (env : string -> option string)
    (baseUrl : option string) (timeout : option Num.number) : M t :=
  let url :=
    match baseUrl with
    | Some u => if String.eqb u "" then ChainVizConfig.url (Config.chainVizConfig env) else u
    | None => ChainVizConfig.url (Config.chainVizConfig env)
    end in
  let time :=
    match timeout with
    | Some t => if Num.truthy t then t else ChainVizConfig.timeout (Config.chainVizConfig env)
    | None => ChainVizConfig.timeout (Config.chainVizConfig env)
    end in
  console_write LOG [Text ("CKB ChainViz Service initialized with URL: " ++ url)] ;;
  ret {| baseUrl := url; timeout := time; isConnected := false |}.

(** *** [handleMessage]: the normalizer *)

Section WithHost.
Variable Date_parse : string -> Num.number.

Definition handleMessage (data : WebSocketMessage.t) : M unit :=
  let channel := WebSocketMessage.channel data in
  let type := WebSocketMessage.type data in
  let payload := WebSocketMessage.payload data in
  console_write LOG
    [Text ("Received " ++ type ++ " event on " ++ channel ++ " channel:"); AWire payload] ;;
  try_catch
    (if String.eqb type "block.finalized" then
       ChainDataManager.EventBus_emit Date_parse "block-finalized" (Raw payload)
     else if String.eqb type "transaction.pending" then
       ChainDataManager.EventBus_emit Date_parse "transaction-pending"
         (WithStatus payload PENDING)
     else if String.eqb type "transaction.proposed" then
       ChainDataManager.EventBus_emit Date_parse "transaction-proposed"
         (WithStatus payload PROPOSED)
     else if String.eqb type "transaction.confirmed" then
       ChainDataManager.EventBus_emit Date_parse "transaction-confirmed"
         (WithStatus payload CONFIRMED)
     else if String.eqb type "transaction.rejected" then
       ChainDataManager.EventBus_emit Date_parse "transaction-rejected"
         (WithStatus payload REJECTED)
     else
       console_write WARN [Text "Unknown message type:"; Text type])
    (fun error =>
       console_write ERROR [Text "Error handling WebSocket message:"; AError error] ;;
       console_write ERROR [Text "Message data:"; AMessage data]).

End WithHost.

End CKBChainVizService.

(* ================================================================= *)
(** ** The [Game] scene: its transaction counters and its teardown *)

Module Game.

(** The three counters [setupChainEventListeners] declares, which its
    listeners share; every listener hands them to [updateTransactionInfo]
    as they are after its update. *)
Record Counts : Type := {
  pendingCount : Z;
  proposedCount : Z;
  confirmedCount : Z
}.

Definition initial : Counts :=
  {| pendingCount := 0; proposedCount := 0; confirmedCount := 0 |}.

(** The listener of transaction-pending. *)
Definition transaction_pending (c : Counts) : Counts :=
  {| pendingCount := pendingCount c + 1;
     proposedCount := proposedCount c;
     confirmedCount := confirmedCount c |}.

(** The listener of transaction-proposed. *)
Definition transaction_proposed (c : Counts) : Counts :=
  {| pendingCount := if 0 <? pendingCount c then pendingCount c - 1 else pendingCount c;
     proposedCount := proposedCount c + 1;
     confirmedCount := confirmedCount c |}.

(** The listener of transaction-confirmed; it also starts the timer below. *)
Definition transaction_confirmed (c : Counts) : Counts :=
  {| pendingCount := pendingCount c;
     proposedCount := if 0 <? proposedCount c then proposedCount c - 1 else proposedCount c;
     confirmedCount := confirmedCount c + 1 |}.

(** The callback of [delayedCall], five seconds after a confirmation. *)
Definition delayed_reset (c : Counts) : Counts :=
  {| pendingCount := pendingCount c;
     proposedCount := proposedCount c;
     confirmedCount := 0 |}.

(** [shutdown]: when the service is connected it is torn down ([teardown]
    stands for the two [unsubscribe] calls and the [disconnect] on the
    service); then [off] is called with an event name only, for five
    events. *)
Definition shutdown (connected : bool) (teardown : M unit) : M unit :=
  (if connected then teardown else ret tt) ;;
  EventBus.off_all "block-finalized" ;;
  EventBus.off_all "transaction-pending" ;;
  EventBus.off_all "transaction-proposed" ;;
  EventBus.off_all "transaction-confirmed" ;;
  EventBus.off_all "chainviz-disconnected".

End Game.

(* ================================================================= *)
(** ** [ChainVisualizationScene]: what it keeps on display *)

Module ChainVisualizationScene.

(** A display object, as far as the scene reads and writes it: its identity,
    its position and the colour it was created with. *)
Record GameObject : Type := {
  id : nat;
  x : Num.number;
  y : Num.number;
  fillColor : Z
}.

Definition with_x (v : Num.number) (o : GameObject) : GameObject :=
  {| id := id o; x := v; y := y o; fillColor := fillColor o |}.

(** The fields of the scene once [create] has run. A container is its
    display list, in order; the sprite maps hold references, here the
    identities of the objects. Console output, tweens and the metrics text
    are left out. *)
Record t : Type := {
  isSceneReady : bool;
  next_object : nat;
  blockContainer : list GameObject;
  transactionContainer : list GameObject;
  blockSprites : JsMap.t nat;
  transactionSprites : JsMap.t nat
}.

(** The scene as [create] leaves it. *)
Definition create : t :=
  {| isSceneReady := true;
     next_object := O;
     blockContainer := [];
     transactionContainer := [];
     blockSprites := JsMap.empty;
     transactionSprites := JsMap.empty |}.

(** [container.remove(child)]: the child is taken out of the display list,
    if it is there. *)
Definition remove (children : list GameObject) (child : nat) : list GameObject :=
  filter (fun o => negb (Nat.eqb (id o) child)) children.

(** The loop of [repositionBlocks] from the pair [index] on: the objects are
    read two by two; on a last object without a partner the sprite is moved
    and the assignment to the missing text throws, which ends the loop. *)
Fixpoint reposition_from (index : nat) (objects : list GameObject) : list GameObject :=
  match objects with
  | [] => []
  | sprite :: rest =>
      match rest with
      | [] => [with_x (Num.of_nat (index * 70)) sprite]
      | text :: rest' =>
          with_x (Num.of_nat (index * 70)) sprite
          :: with_x (Num.of_nat (index * 70)) text
          :: reposition_from (S index) rest'
      end
  end.

Definition repositionBlocks (s : t) : t :=
  {| isSceneReady := isSceneReady s;
     next_object := next_object s;
     blockContainer := reposition_from 0 (blockContainer s);
     transactionContainer := transactionContainer s;
     blockSprites := blockSprites s;
     transactionSprites := transactionSprites s |}.

(** [handleNewBlock]. Once [create] has run, [this.add] and the containers
    exist: the guard comes down to [isSceneReady]. *)
Definition handleNewBlock (blockData : ProcessedBlockData.t) (s : t) : t :=
  if negb (isSceneReady s) then s
  else
    let blockCount := (Num.of_nat (List.length (blockContainer s)) / Num.of_Z 2)%num in
    let xPos := (blockCount * Num.of_Z 70)%num in
    let blockSprite :=
      {| id := next_object s; x := xPos; y := Num.zero; fillColor := 65280 |} in
    let blockText :=
      {| id := S (next_object s); x := xPos; y := Num.zero; fillColor := 0 |} in
    let added := (blockContainer s ++ [blockSprite; blockText])%list in
    let kept :=
      if (20 <? List.length added)%nat then
        match added with
        | oldSprite :: oldText :: _ => remove (remove added (id oldSprite)) (id oldText)
        | _ => added
        end
      else added in
    repositionBlocks
      {| isSceneReady := isSceneReady s;
         next_object := S (S (next_object s));
         blockContainer := kept;
         transactionContainer := transactionContainer s;
         blockSprites :=
           JsMap.set (blockSprites s) (ProcessedBlockData.hash blockData) (next_object s);
         transactionSprites := transactionSprites s |}.

(** [handleNewTransaction]; the guard is [isSceneReady], as above. *)
Definition handleNewTransaction (txData : ProcessedTransactionData.t) (s : t) : t :=
  if negb (isSceneReady s) then s
  else
    let color :=
      match ProcessedTransactionData.status txData with
      | PENDING => 16776960
      | PROPOSED => 16746496
      | CONFIRMED => 65280
      | _ => 13421772
      end in
    let txCount := List.length (transactionContainer s) in
    let xPos := Num.of_nat ((txCount mod 15) * 35) in
    let yPos := Num.of_nat ((txCount / 15) * 35) in
    let txSprite := {| id := next_object s; x := xPos; y := yPos; fillColor := color |} in
    let added := (transactionContainer s ++ [txSprite])%list in
    let kept :=
      if (150 <? List.length added)%nat then
        match added with
        | oldTx :: _ => remove added (id oldTx)
        | [] => added
        end
      else added in
    {| isSceneReady := isSceneReady s;
       next_object := S (next_object s);
       blockContainer := blockContainer s;
       transactionContainer := kept;
       blockSprites := blockSprites s;
       transactionSprites :=
         JsMap.set (transactionSprites s) (ProcessedTransactionData.hash txData)
           (next_object s) |}.

Definition removeTransaction (txHash : string) (s : t) : t :=
  match JsMap.get (transactionSprites s) txHash with
  | Some sprite =>
      {| isSceneReady := isSceneReady s;
         next_object := next_object s;
         blockContainer := blockContainer s;
         transactionContainer := remove (transactionContainer s) sprite;
         blockSprites := blockSprites s;
         transactionSprites := JsMap.delete (transactionSprites s) txHash |}
  | None => s
  end.

(** [shutdown], as far as the fields go: the scene is no longer ready. *)
Definition shutdown (s : t) : t :=
  {| isSceneReady := false;
     next_object := next_object s;
     blockContainer := blockContainer s;
     transactionContainer := transactionContainer s;
     blockSprites := blockSprites s;
     transactionSprites := transactionSprites s |}.

End ChainVisualizationScene.

(* ================================================================= *)
(** * Vocabulary of the properties *)

Import StringNumeric.

(** ** Decimal numerals *)

(** Horner evaluation of a decimal numeral, most significant digit first. *)
Fixpoint horner (d : Decimal.uint) (acc : Z) : Z :=
  match d with
  | Nil => acc
  | D0 l => horner l (acc * 10 + 0)
  | D1 l => horner l (acc * 10 + 1)
  | D2 l => horner l (acc * 10 + 2)
  | D3 l => horner l (acc * 10 + 3)
  | D4 l => horner l (acc * 10 + 4)
  | D5 l => horner l (acc * 10 + 5)
  | D6 l => horner l (acc * 10 + 6)
  | D7 l => horner l (acc * 10 + 7)
  | D8 l => horner l (acc * 10 + 8)
  | D9 l => horner l (acc * 10 + 9)
  end.

Fixpoint no_whitespace (s : string) : bool :=
  match s with
  | EmptyString => true
  | String c r => negb (is_whitespace c) && no_whitespace r
  end.

(** ** Effects of the handlers *)

(** What the manager's [emit] leaves behind: one more entry in the trace. *)
Definition published (event : string) (p : Payload) (w : World) : World :=
  with_emitted (emitted w ++ [(event, p)]) w.

(** The fields after a block was processed into [pb] and stored under [hash]. *)
Definition ingest (hash : string) (pb : ProcessedBlockData.t) (m : Fields.t) : Fields.t :=
  {| Fields.blocks := JsMap.set (Fields.blocks m) hash pb;
     Fields.transactions := Fields.transactions m;
     Fields.blockTimestamps :=
       ChainDataManager.push_bounded (Fields.blockTimestamps m)
         (Date.getTime (ProcessedBlockData.timestamp pb));
     Fields.transactionCounts :=
       ChainDataManager.push_bounded (Fields.transactionCounts m)
         (ProcessedBlockData.transactionCount pb) |}.

(** A computation that leaves the listeners alone and only adds to the
    trace of emissions. *)
Definition trace_extending (c : M unit) : Prop :=
  forall w,
    listeners (exec c w) = listeners w /\
    next_function (exec c w) = next_function w /\
    exists more, emitted (exec c w) = (emitted w ++ more)%list.

(** ** Windows and metrics, as the specification words them *)

(** The last [n] elements of a list, in order. *)
Definition last_n {A : Type} (n : nat) (l : list A) : list A :=
  skipn (List.length l - n) l.

(** The differences between consecutive samples. *)
Fixpoint deltas (ts : list Num.number) : list Num.number :=
  match ts with
  | [] => []
  | a :: rest =>
      match rest with
      | [] => []
      | b :: _ => (b - a)%num :: deltas rest
      end
  end.

Definition sum (xs : list Num.number) : Num.number := fold_left Num.add xs Num.zero.

Definition mean (xs : list Num.number) : Num.number :=
  (sum xs / Num.of_nat (List.length xs))%num.

Definition seconds_of_milliseconds (x : Num.number) : Num.number :=
  (x / Num.of_Z 1000)%num.

(** ** States of the engine *)

(** What holds of the manager's fields in every state the code can reach. *)
Record Invariant (m : Fields.t) : Prop := {
  blocks_keys : NoDup (JsMap.keys (Fields.blocks m));
  transactions_keys : NoDup (JsMap.keys (Fields.transactions m));
  difficulty_placeholder :
    Forall (fun b => ProcessedBlockData.difficulty b = Num.zero)
           (JsMap.values (Fields.blocks m));
  timestamps_bounded : (List.length (Fields.blockTimestamps m) <= 100)%nat;
  windows_parallel :
    List.length (Fields.transactionCounts m) = List.length (Fields.blockTimestamps m)
}.

(** The computations that drive the engine once it is constructed. *)
Inductive step (Date_parse : string -> Num.number) : M unit -> Prop :=
| step_block block :
    step Date_parse (ChainDataManager.handleNewBlock Date_parse block)
| step_update t :
    step Date_parse (ChainDataManager.handleTransactionUpdate Date_parse t)
| step_rejected t :
    step Date_parse (ChainDataManager.handleTransactionRejected t)
| step_cleanup :
    step Date_parse ChainDataManager.cleanup
| step_subscribe event f :
    step Date_parse (EventBus.on event f)
| step_emit event p :
    step Date_parse (ChainDataManager.EventBus_emit Date_parse event p)
| step_message data :
    step Date_parse (CKBChainVizService.handleMessage Date_parse data).

(** The worlds in which a manager has been constructed and driven since. *)
Inductive reachable (Date_parse : string -> Num.number) : World -> Prop :=
| reachable_new w :
    reachable Date_parse (exec ChainDataManager.constructor w)
| reachable_step w c :
    reachable Date_parse w -> step Date_parse c -> reachable Date_parse (exec c w).

(** No registered listener has the identity of a function yet to be created. *)
Definition fresh_functions (w : World) : Prop :=
  Forall (fun e => (fn (snd e) < next_function w)%nat) (listeners w).

(** ** Sequences of events *)

(** A sequence of block-finalized events, handled one after the other. *)
Definition deliver_blocks (Date_parse : string -> Num.number)
    (blocks : list Block.t) (w : World) : World :=
  fold_left (fun w block => exec (ChainDataManager.handleNewBlock Date_parse block) w)
            blocks w.

(** Whether [processBlock] returns on a block. *)
Definition processes (Date_parse : string -> Num.number) (block : Block.t) : bool :=
  match ChainDataManager.processBlock Date_parse block with
  | Normal _ => true
  | Throw _ => false
  end.

(** A transaction event as the bus carries it: the event name decides the
    handler, and the payload is the raw transaction with the status of that
    name. *)
Record TransactionEvent : Type := {
  event_status : Status;
  event_transaction : Transaction.t
}.

Definition event_payload (ev : TransactionEvent) : EnhancedTransaction.t :=
  EnhancedTransaction.spread (event_transaction ev) (event_status ev).

(** The handler [setupEventListeners] subscribes under the event's name. *)
Definition deliver_transaction (Date_parse : string -> Num.number)
    (ev : TransactionEvent) : M unit :=
  match event_status ev with
  | REJECTED => ChainDataManager.handleTransactionRejected (event_payload ev)
  | _ => ChainDataManager.handleTransactionUpdate Date_parse (event_payload ev)
  end.

Definition deliver_transactions (Date_parse : string -> Num.number)
    (evs : list TransactionEvent) (w : World) : World :=
  fold_left (fun w ev => exec (deliver_transaction Date_parse ev) w) evs w.

(** ** The normalizer, as the specification words it *)

(** The transaction message types, as the specification lists them: the
    suffix of the type and of the event name, and the status it stands for. *)
Definition transaction_kinds : list (string * Status) :=
  [("pending", PENDING); ("proposed", PROPOSED);
   ("confirmed", CONFIRMED); ("rejected", REJECTED)].

(** What the specification says a message is republished as, if at all. *)
Definition normalized (type : string) (payload : WebSocketMessage.payload_t)
    : option (string * Payload) :=
  if String.eqb type "block.finalized" then Some ("block-finalized", Raw payload)
  else
    match find (fun k => String.eqb type ("transaction." ++ fst k)) transaction_kinds with
    | Some (kind, status) => Some ("transaction-" ++ kind, WithStatus payload status)
    | None => None
    end.

(** ** Sample inputs *)

Module Sample.

(** [Date.parse] of a host, on the three date-time strings used below. *)
Definition Date_parse (s : string) : Num.number :=
  if String.eqb s "1970-01-01T00:00:00.000Z" then Num.of_Z 0
  else if String.eqb s "1970-01-01T00:00:10.000Z" then Num.of_Z 10000
  else if String.eqb s "1970-01-01T00:00:25.000Z" then Num.of_Z 25000
  else Num.NaN.

Definition block (number hash timestamp reward : string) (count : Z) : Block.t :=
  {| Block.blockNumber := number;
     Block.blockHash := hash;
     Block.timestamp := timestamp;
     Block.miner := "ckt1qzda0cr08m85hc8jlnfp3zer7xulejywt49kt2rr0vthywaa50xwsq";
     Block.reward := reward;
     Block.transactionCount := Num.of_Z count;
     Block.proposalsCount := None;
     Block.unclesCount := None;
     Block.transactions := [] |}.

Definition block1 : Block.t :=
  block "101" "0xb1" "1970-01-01T00:00:00.000Z" "123456789012345678" 3.
Definition block2 : Block.t :=
  block "102" "0xb2" "1970-01-01T00:00:10.000Z" "111313151041" 5.
Definition block3 : Block.t :=
  block "103" "0xb3" "1970-01-01T00:00:25.000Z" "111313151041" 7.

(** A block whose reward is no integer literal. *)
Definition malformed : Block.t :=
  block "104" "0xb4" "1970-01-01T00:00:25.000Z" "12.5" 1.

Definition transaction (hash : string) : Transaction.t :=
  {| Transaction.txHash := hash;
     Transaction.timestamp := "1970-01-01T00:00:10.000Z";
     Transaction.context := None |}.

(** A new manager on an empty bus. *)
Definition fresh : World := exec ChainDataManager.constructor empty_world.

Definition after_three_blocks : World :=
  exec (ChainDataManager.handleNewBlock Date_parse block3)
    (exec (ChainDataManager.handleNewBlock Date_parse block2)
       (exec (ChainDataManager.handleNewBlock Date_parse block1) fresh)).

End Sample.


(** ** Orders on numbers *)

(** [a >= b] between two numbers that are not [NaN]. *)
Definition at_least (a b : Num.number) : Prop :=
  match a, b with
  | Num.Fin x, Num.Fin y => (y <= x)%Qc
  | _, _ => False
  end.

Definition is_finite (a : Num.number) : Prop :=
  match a with
  | Num.Fin _ => True
  | Num.NaN => False
  end.

(** ** Rankings *)

(** The comparator of the code: descending by [key]. *)
Definition descending {A : Type} (key : A -> Num.number) (a b : A) : Num.number :=
  (key b - key a)%num.

(** The part of a sorted array that [slice(0, count)] leaves out. *)
Definition beyond {A : Type} (a : list A) (count : Z) : list A :=
  skipn (Z.to_nat (Array.relative_index (Z.of_nat (List.length a)) count)) a.


(** ** Runs of the engine *)

(** [w'] is reached from [w] by driving the engine. *)
Inductive steps (Date_parse : string -> Num.number) : World -> World -> Prop :=
| steps_refl w : steps Date_parse w w
| steps_step w w' c :
    steps Date_parse w w' -> step Date_parse c -> steps Date_parse w (exec c w').

(** Every record is stored under its own hash. *)
Definition keyed (m : Fields.t) : Prop :=
  Forall (fun e => ProcessedBlockData.hash (snd e) = fst e) (Fields.blocks m) /\
  Forall (fun e => ProcessedTransactionData.hash (snd e) = fst e) (Fields.transactions m) /\
  Forall (fun e => ProcessedTransactionData.timestamp (snd e) <> None) (Fields.transactions m).


(** ** Counting pending transactions *)

(** 1 when the map holds a pending record under the hash, else 0. *)
Definition pending_under (m : Fields.t) (hash : string) : nat :=
  match ChainDataManager.getTransactionByHash m hash with
  | Some r => if Status_eqb (ProcessedTransactionData.status r) PENDING then 1 else 0
  | None => 0
  end.

(** ** Subscribers *)

(** No consumer subscribed to [event] throws on the payload [p]. *)
Definition quiet (event : string) (p : Payload) (w : World) : bool :=
  forallb (fun l => match callback l with
                    | Consumer throws => negb (throws p)
                    | _ => true
                    end)
          (EventBus.listeners_of event (listeners w)).

(** The bus holds the five listeners of one manager and nothing else. *)
Definition manager_subscribed (w : World) : Prop :=
  map (fun e => (fst e, callback (snd e))) (listeners w) =
  [("block-finalized", HandleNewBlock);
   ("transaction-pending", HandleTransactionUpdate);
   ("transaction-proposed", HandleTransactionUpdate);
   ("transaction-confirmed", HandleTransactionUpdate);
   ("transaction-rejected", HandleTransactionRejected)].

(** The handler call a wire message amounts to, when its payload has the
    shape its type announces. *)
Definition delivered (Date_parse : string -> Num.number) (data : WebSocketMessage.t)
    : option (M unit) :=
  match normalized (WebSocketMessage.type data) (WebSocketMessage.payload data) with
  | Some (_, Raw (WebSocketMessage.OfBlock block)) =>
      Some (ChainDataManager.handleNewBlock Date_parse block)
  | Some (_, WithStatus (WebSocketMessage.OfTransaction t) status) =>
      Some (deliver_transaction Date_parse
              {| event_status := status; event_transaction := t |})
  | Some _ => None
  | None => Some (ret tt)
  end.

(** Some consumer subscribed to [event] throws on the payload [p]. *)
Definition some_subscriber_throws (event : string) (p : Payload) (w : World) : Prop :=
  exists f throws,
    In (event, {| fn := f; callback := Consumer throws |}) (listeners w) /\ throws p = true.

(** The sample engine after a pending and a proposed transaction. *)
Definition sample_with_transactions : World :=
  deliver_transactions Sample.Date_parse
    [ {| event_status := PENDING; event_transaction := Sample.transaction "0x71" |};
      {| event_status := PROPOSED; event_transaction := Sample.transaction "0x72" |} ]
    Sample.after_three_blocks.

(** The sample engine with a subscriber that fails on every processed block. *)
Definition sample_with_failing_subscriber : World :=
  exec (f <- EventBus.new_function (Consumer (fun _ => true)) ;;
        EventBus.on "processed-block-data" f)
       Sample.after_three_blocks.

(** ** Numbers a double holds exactly *)

(** 2^53: up to this magnitude every integer is a double, so reading a
    numeral, and adding or subtracting integers, is exact in the code as it
    is in the model. *)
Definition safe_integer_bound : Z := 9007199254740992.

(** A time value that is an integer of magnitude at most 2^52: the
    difference of two of them stays within [safe_integer_bound]. (The time
    values of the year 140000 are still below.) *)
Definition safe_time (t : Num.number) : Prop :=
  exists z, t = Num.of_Z z /\ Z.abs z <= 4503599627370496.

(** The magnitude of the decimal numeral [parseInt(s, 10)] finds in [s], 0
    when it finds none. *)
Definition decimal_magnitude (s : string) : Z :=
  fst (digits_prefix 10 0 false (snd (strip_sign (trim_start s)))).

(** ** Numerals in front of other text *)

Definition is_decimal_digit (c : ascii) : bool :=
  let n := nat_of_ascii c in ((48 <=? n) && (n <=? 57))%nat.

(** What may follow a decimal numeral without being read as part of it:
    nothing, or a character that is no decimal digit and not the [x] of a
    hexadecimal prefix. *)
Definition ends_numeral (rest : string) : bool :=
  match rest with
  | EmptyString => true
  | String c _ =>
      negb (is_decimal_digit c) && negb (Ascii.eqb c "x") && negb (Ascii.eqb c "X")
  end.

(** A string in which [parseInt] finds no numeral: it is empty, or starts
    with a character that is neither white space, nor a sign, nor a decimal
    digit. *)
Definition starts_no_numeral (s : string) : bool :=
  match s with
  | EmptyString => true
  | String c _ =>
      negb (is_whitespace c) && negb (is_decimal_digit c)
      && negb (Ascii.eqb c "+") && negb (Ascii.eqb c "-")
  end.

(** A block whose timestamp the host cannot parse, and one whose number is
    no numeral. *)
Definition sample_undated : Block.t :=
  Sample.block "105" "0xb5" "yesterday" "7" 2.

Definition sample_unnumbered : Block.t :=
  Sample.block "latest" "0xb6" "1970-01-01T00:00:25.000Z" "7" 2.

(** What may follow a decimal numeral read in radix 10: nothing, or a
    character that is no decimal digit. *)
Definition ends_decimal (rest : string) : bool :=
  match rest with
  | EmptyString => true
  | String c _ => negb (is_decimal_digit c)
  end.

(** An environment that sets the timeout to 250 ms and nothing else. *)
Definition sample_env (key : string) : option string :=
  if String.eqb key "VITE_CKB_CHAINVIZ_TIMEOUT" then Some "250ms" else None.

(** ** The [Game] scene on the bus *)

(** The events whose listeners [Game.shutdown] removes. *)
Definition silenced : list string :=
  ["block-finalized"; "transaction-pending"; "transaction-proposed";
   "transaction-confirmed"; "chainviz-disconnected"].

(** What reaches the counters of the [Game] scene: the three transaction
    events it listens to, the expiry of a confirmation timer, and the
    rejection it has no listener for. *)
Inductive CounterEvent : Type :=
| Pending
| Proposed
| Confirmed
| Rejected
| TimerExpired.

Definition CounterEvent_eqb (a b : CounterEvent) : bool :=
  match a, b with
  | Pending, Pending | Proposed, Proposed | Confirmed, Confirmed
  | Rejected, Rejected | TimerExpired, TimerExpired => true
  | _, _ => false
  end.

Definition count_event (ev : CounterEvent) (past : list CounterEvent) : Z :=
  Z.of_nat (List.length (filter (CounterEvent_eqb ev) past)).

Definition counter_step (c : Game.Counts) (ev : CounterEvent) : Game.Counts :=
  match ev with
  | Pending => Game.transaction_pending c
  | Proposed => Game.transaction_proposed c
  | Confirmed => Game.transaction_confirmed c
  | Rejected => c
  | TimerExpired => Game.delayed_reset c
  end.

(** The counters after a sequence of events, from the start of the scene. *)
Definition counters_after (past : list CounterEvent) : Game.Counts :=
  fold_left counter_step past Game.initial.

(** ** The visualization scene *)

(** What the bus makes the scene do once it is created. *)
Inductive scene_step : (ChainVisualizationScene.t -> ChainVisualizationScene.t) -> Prop :=
| scene_block blockData :
    scene_step (ChainVisualizationScene.handleNewBlock blockData)
| scene_transaction txData :
    scene_step (ChainVisualizationScene.handleNewTransaction txData)
| scene_removed txHash :
    scene_step (ChainVisualizationScene.removeTransaction txHash)
| scene_shutdown :
    scene_step ChainVisualizationScene.shutdown.

Inductive scene_reachable : ChainVisualizationScene.t -> Prop :=
| scene_created : scene_reachable ChainVisualizationScene.create
| scene_next s f : scene_reachable s -> scene_step f -> scene_reachable (f s).

(** The identities of the objects a container shows, in order. *)
Definition shown (objects : list ChainVisualizationScene.GameObject) : list nat :=
  map ChainVisualizationScene.id objects.

(** A cell of the transaction grid: 15 columns and 11 rows, 35 apart. *)
Definition on_grid (o : ChainVisualizationScene.GameObject) : Prop :=
  exists column row : nat,
    (column < 15)%nat /\ (row <= 10)%nat /\
    ChainVisualizationScene.x o = Num.of_nat (column * 35) /\
    ChainVisualizationScene.y o = Num.of_nat (row * 35).

(** The objects stand two by two in a row, 70 apart, from [start] on. *)
Definition in_row (start : nat) (objects : list ChainVisualizationScene.GameObject) : Prop :=
  forall i o, nth_error objects i = Some o ->
              ChainVisualizationScene.x o = Num.of_nat ((start + i / 2) * 70).

(** What holds of the scene's fields in every state it can reach. *)
Record SceneInvariant (s : ChainVisualizationScene.t) : Prop := {
  block_objects_known :
    Forall (fun n => (n < ChainVisualizationScene.next_object s)%nat)
           (shown (ChainVisualizationScene.blockContainer s));
  transaction_objects_known :
    Forall (fun n => (n < ChainVisualizationScene.next_object s)%nat)
           (shown (ChainVisualizationScene.transactionContainer s));
  transaction_references_known :
    Forall (fun n => (n < ChainVisualizationScene.next_object s)%nat)
           (JsMap.values (ChainVisualizationScene.transactionSprites s));
  block_objects_distinct : NoDup (shown (ChainVisualizationScene.blockContainer s));
  transaction_objects_distinct :
    NoDup (shown (ChainVisualizationScene.transactionContainer s));
  transaction_hashes_distinct :
    NoDup (JsMap.keys (ChainVisualizationScene.transactionSprites s));
  transaction_references_distinct :
    NoDup (JsMap.values (ChainVisualizationScene.transactionSprites s));
  blocks_bounded : (List.length (ChainVisualizationScene.blockContainer s) <= 20)%nat;
  blocks_paired : Nat.Even (List.length (ChainVisualizationScene.blockContainer s));
  blocks_in_row : in_row 0 (ChainVisualizationScene.blockContainer s);
  transactions_bounded :
    (List.length (ChainVisualizationScene.transactionContainer s) <= 150)%nat;
  transactions_on_grid : Forall on_grid (ChainVisualizationScene.transactionContainer s)
}.

(** Sample scenes: one that has shown ten blocks, one that has shown a
    pending transaction, and one whose transaction container is full. *)
Definition sample_block_record (hash : string) : ProcessedBlockData.t :=
  {| ProcessedBlockData.hash := hash;
     ProcessedBlockData.number := Num.of_Z 101;
     ProcessedBlockData.timestamp := {| Date.getTime := Num.of_Z 0 |};
     ProcessedBlockData.transactionCount := Num.of_Z 3;
     ProcessedBlockData.totalValue := 7;
     ProcessedBlockData.size := Num.zero;
     ProcessedBlockData.miner := "ckt1";
     ProcessedBlockData.difficulty := Num.zero |}.

Definition sample_pending_record : ProcessedTransactionData.t :=
  {| ProcessedTransactionData.hash := "0x71";
     ProcessedTransactionData.status := PENDING;
     ProcessedTransactionData.value := 0;
     ProcessedTransactionData.fee := 0;
     ProcessedTransactionData.inputCount := Num.zero;
     ProcessedTransactionData.outputCount := Num.zero;
     ProcessedTransactionData.size := Num.zero;
     ProcessedTransactionData.timestamp := Some {| Date.getTime := Num.of_Z 10000 |} |}.

Definition show_blocks (hashes : list string) (s : ChainVisualizationScene.t)
    : ChainVisualizationScene.t :=
  fold_left (fun s hash => ChainVisualizationScene.handleNewBlock (sample_block_record hash) s)
            hashes s.

Definition sample_scene_ten_blocks : ChainVisualizationScene.t :=
  show_blocks ["0xb0"; "0xb1"; "0xb2"; "0xb3"; "0xb4"; "0xb5"; "0xb6"; "0xb7"; "0xb8"; "0xb9"]
              ChainVisualizationScene.create.

Definition sample_scene_pending : ChainVisualizationScene.t :=
  ChainVisualizationScene.handleNewTransaction sample_pending_record
    ChainVisualizationScene.create.

Definition sample_scene_full : ChainVisualizationScene.t :=
  Nat.iter 150 (ChainVisualizationScene.handleNewTransaction sample_pending_record)
           ChainVisualizationScene.create.

(* ================================================================= *)
(** * Properties *)

(** ** Numbers *)

Lemma Fin_eq (x y : Qc) : (this x == this y)%Q -> Num.Fin x = Num.Fin y.
Proof. intros H. f_equal. now apply Qc_is_canon. Qed.

Lemma num_gt_zero_zero : Num.gt Num.zero Num.zero = false.
Proof. reflexivity. Qed.

Lemma num_gt_zero_pos (a : Num.number) :
  Num.gt a Num.zero = true -> exists q, a = Num.Fin q /\ (0 < q)%Qc.
Proof.
  destruct a as [|q]; simpl; [discriminate|].
  intros H. exists q. split; [reflexivity|].
  apply negb_true_iff in H.
  destruct (Qlt_le_dec 0 (this q)) as [Hlt|Hle]; [exact Hlt|].
  apply Qle_bool_iff in Hle. unfold Num.zero, Num.of_Z in H. simpl in H.
  rewrite Hle in H. discriminate.
Qed.

(** ** The computation monad *)

Lemma call_consumer_frame (cb : Callback) (p : Payload) (w : World) :
  snd (EventBus.call_consumer cb p w) = w.
Proof.
  destruct cb; simpl; try reflexivity.
  destruct (throws p); reflexivity.
Qed.

Lemma call_each_consumer_frame (ls : list Listener) (p : Payload) (w : World) :
  snd (EventBus.call_each EventBus.call_consumer ls p w) = w.
Proof.
  induction ls as [|l r IH]; simpl; [reflexivity|].
  unfold bind.
  pose proof (call_consumer_frame (callback l) p w) as Hf.
  destruct (EventBus.call_consumer (callback l) p w) as [[[]|e] w']; simpl in Hf; subst w'.
  - apply IH.
  - reflexivity.
Qed.

Lemma emit_cases (event : string) (p : Payload) (w : World) :
  ChainDataManager.emit event p w = (Normal tt, published event p w) \/
  exists e, ChainDataManager.emit event p w = (Throw e, published event p w).
Proof.
  unfold ChainDataManager.emit, EventBus.emit_with.
  fold (published event p w).
  pose proof (call_each_consumer_frame
                (EventBus.listeners_of event (listeners w)) p (published event p w)) as Hf.
  destruct (EventBus.call_each _ _ p (published event p w)) as [[[]|e] w']; simpl in Hf; subst w'.
  - now left.
  - right. now exists e.
Qed.

(** ** C9: metrics of a fresh manager *)

(** C9. Right after construction, whatever the world the manager is created
    in, [getMetrics()] returns without throwing: average block interval 0,
    throughput 0, hash rate 0, pending count 0, confirmation time 0. *)
Theorem getMetrics_zero_state (w : World) :
  ChainDataManager.getMetrics (manager (exec ChainDataManager.constructor w)) =
  Normal {| Metrics.averageBlockTime := Num.zero;
            Metrics.transactionThroughput := Num.zero;
            Metrics.networkHashRate := 0;
            Metrics.pendingTxCount := 0;
            Metrics.confirmationTime := Num.zero |}.
Proof.
  unfold ChainDataManager.getMetrics; simpl.
  reflexivity.
Qed.

(** ** Decimal strings *)

Lemma digits_value_of_uint (d : Decimal.uint) (acc : Z) :
  digits_value 10 acc (NilEmpty.string_of_uint d) = Some (horner d acc).
Proof.
  revert acc. induction d; intros acc; simpl; try reflexivity;
    change (radix_digit 10 _) with (Some 0) || idtac; apply IHd.
Qed.

Lemma horner_pos (d : Decimal.uint) (acc : positive) :
  horner d (Zpos acc) = Zpos (Pos.of_uint_acc d acc).
Proof.
  revert acc. induction d; intros acc; cbn [horner Pos.of_uint_acc]; try reflexivity;
    rewrite <- IHd; f_equal; lia.
Qed.

Lemma horner_zero (d : Decimal.uint) : horner d 0 = Z.of_uint d.
Proof.
  unfold Z.of_uint.
  induction d; cbn [horner Pos.of_uint]; try reflexivity;
    try (change (0 * 10 + 0) with 0; exact IHd);
    match goal with |- horner _ ?a = _ => change a with (Zpos (Z.to_pos a)) end;
    rewrite horner_pos; reflexivity.
Qed.

Lemma trim_start_no_whitespace (s : string) :
  no_whitespace s = true -> trim_start s = s.
Proof.
  destruct s as [|c r]; simpl; [reflexivity|].
  intros H. apply andb_true_iff in H as [Hc _].
  apply negb_true_iff in Hc. now rewrite Hc.
Qed.

Lemma rev_onto_no_whitespace (s acc : string) :
  no_whitespace s = true -> no_whitespace acc = true ->
  no_whitespace (rev_onto s acc) = true.
Proof.
  revert acc. induction s as [|c r IH]; intros acc Hs Hacc; simpl in *; [exact Hacc|].
  apply andb_true_iff in Hs as [Hc Hr].
  apply IH; [exact Hr|]. simpl. now rewrite Hc, Hacc.
Qed.

Lemma rev_onto_rev_onto (s a b : string) :
  rev_onto (rev_onto s a) b = rev_onto a (s ++ b).
Proof.
  revert a b. induction s as [|c r IH]; intros a b; simpl; [reflexivity|].
  rewrite IH. reflexivity.
Qed.

Lemma rev_involutive (s : string) : rev (rev s) = s.
Proof.
  unfold rev. rewrite rev_onto_rev_onto. simpl.
  induction s as [|c r IH]; simpl; [reflexivity|]. now rewrite IH.
Qed.

Lemma trim_no_whitespace (s : string) : no_whitespace s = true -> trim s = s.
Proof.
  intros H. unfold trim.
  rewrite (trim_start_no_whitespace s H).
  rewrite trim_start_no_whitespace.
  - apply rev_involutive.
  - unfold rev. now apply rev_onto_no_whitespace.
Qed.

Lemma string_of_uint_no_whitespace (d : Decimal.uint) :
  no_whitespace (NilEmpty.string_of_uint d) = true.
Proof. induction d; simpl; try reflexivity; exact IHd. Qed.

(** A string of decimal digits, not empty, read as a BigInt literal. *)
Lemma StringToBigInt_digits (d : Decimal.uint) :
  d <> Nil ->
  StringToBigInt (NilEmpty.string_of_uint d) = Some (Z.of_uint d).
Proof.
  intros Hd. unfold StringToBigInt.
  rewrite trim_no_whitespace by apply string_of_uint_no_whitespace.
  rewrite <- horner_zero, <- digits_value_of_uint.
  destruct d as [|l|l|l|l|l|l|l|l|l|l]; try reflexivity.
  destruct l; reflexivity.
Qed.

Lemma StringToBigInt_negative_digits (d : Decimal.uint) :
  d <> Nil ->
  StringToBigInt (String "-" (NilEmpty.string_of_uint d)) = Some (- Z.of_uint d).
Proof.
  intros Hd. unfold StringToBigInt.
  rewrite trim_no_whitespace
    by (simpl; apply string_of_uint_no_whitespace).
  rewrite <- horner_zero.
  unfold nonempty_digits.
  rewrite digits_value_of_uint.
  destruct d; try reflexivity. now destruct Hd.
Qed.

(** The decimal reader of the standard library and [BigInt] agree. *)
Lemma BigInt_decimal (s : string) (d : Decimal.int) :
  NilZero.int_of_string s = Some d -> BigInt s = Normal (Z.of_int d).
Proof.
  unfold BigInt, NilZero.int_of_string. destruct s as [|a s']; [discriminate|].
  destruct (Ascii.eqb_spec a "-") as [->|Hna].
  - destruct (NilZero.uint_of_string s') as [u|] eqn:Hu; simpl; [|discriminate].
    intros [= <-].
    assert (Hnil : u <> Nil)
      by (intros ->; now apply (NilZero.uint_of_string_nonnil s')).
    apply NilZero.sus in Hu.
    replace (NilZero.string_of_uint u) with (NilEmpty.string_of_uint u) in Hu
      by (destruct u; try reflexivity; now destruct Hnil).
    subst s'. now rewrite StringToBigInt_negative_digits.
  - change (NilZero.uint_of_string (String a s'))
      with (NilEmpty.uint_of_string (String a s')).
    destruct (NilEmpty.uint_of_string (String a s')) as [u|] eqn:Hu;
      cbn [option_map]; [|discriminate].
    intros [= <-].
    apply NilEmpty.sus in Hu.
    assert (Hnil : u <> Nil) by (intros ->; discriminate).
    rewrite <- Hu.
    now rewrite StringToBigInt_digits.
Qed.

(** ** Maps *)

Section MapFacts.
Context {V : Type}.
Implicit Types (m : JsMap.t V) (k : string) (v : V).

Lemma get_None_not_key m k : JsMap.get m k = None <-> ~ In k (JsMap.keys m).
Proof.
  induction m as [|[k' v'] r IH]; simpl; [tauto|].
  destruct (String.eqb_spec k' k) as [->|Hne].
  - split; [discriminate|]. intros H. exfalso. apply H. now left.
  - rewrite IH. split; [intros H [Heq|Hin]; [now apply Hne|now apply H]|tauto].
Qed.

Lemma keys_set m k v :
  JsMap.keys (JsMap.set m k v) =
  if in_dec string_dec k (JsMap.keys m) then JsMap.keys m else (JsMap.keys m ++ [k])%list.
Proof.
  induction m as [|[k' v'] r IH]; simpl; [reflexivity|].
  destruct (String.eqb_spec k' k) as [Heq|Hne]; simpl.
  - destruct (string_dec k' k) as [Hkk|Hkk]; [reflexivity|contradiction].
  - rewrite IH.
    destruct (string_dec k' k) as [Heq|Hkk]; [contradiction|].
    destruct (in_dec string_dec k (JsMap.keys r)); reflexivity.
Qed.

Lemma NoDup_keys_set m k v :
  NoDup (JsMap.keys m) -> NoDup (JsMap.keys (JsMap.set m k v)).
Proof.
  intros H. rewrite keys_set.
  destruct (in_dec string_dec k (JsMap.keys m)) as [Hin|Hnot]; [exact H|].
  apply NoDup_app; [exact H|repeat constructor; intros []|].
  intros x Hx [<-|[]]. now apply Hnot.
Qed.

Lemma keys_delete_incl m k x :
  In x (JsMap.keys (JsMap.delete m k)) -> In x (JsMap.keys m).
Proof.
  induction m as [|[k' v'] r IH]; simpl; [tauto|].
  destruct (String.eqb k' k); simpl; [tauto|].
  intros [H|H]; [now left|right; now apply IH].
Qed.

Lemma NoDup_keys_delete m k :
  NoDup (JsMap.keys m) -> NoDup (JsMap.keys (JsMap.delete m k)).
Proof.
  induction m as [|[k' v'] r IH]; simpl; [trivial|].
  intros H. inversion H as [|? ? Hnot Hr]; subst.
  destruct (String.eqb k' k); [exact Hr|].
  simpl. constructor; [|now apply IH].
  intros Hin. apply Hnot. exact (keys_delete_incl _ _ _ Hin).
Qed.

Lemma get_set_same m k v : JsMap.get (JsMap.set m k v) k = Some v.
Proof.
  induction m as [|[k' v'] r IH]; simpl.
  - now rewrite String.eqb_refl.
  - destruct (String.eqb k' k) eqn:E; simpl; rewrite E; [reflexivity|exact IH].
Qed.

Lemma get_set_other m k k' v :
  k <> k' -> JsMap.get (JsMap.set m k v) k' = JsMap.get m k'.
Proof.
  intros Hne. induction m as [|[k0 v0] r IH]; simpl.
  - destruct (String.eqb_spec k k'); [contradiction|reflexivity].
  - destruct (String.eqb_spec k0 k) as [->|Hk0]; simpl.
    + destruct (String.eqb_spec k k'); [contradiction|reflexivity].
    + rewrite IH. reflexivity.
Qed.

Lemma count_not_key m k : ~ In k (JsMap.keys m) -> JsMap.count m k = O.
Proof.
  unfold JsMap.count.
  induction m as [|[k' v'] r IH]; simpl; [reflexivity|].
  intros H. destruct (String.eqb_spec k' k) as [->|Hne]; [exfalso; apply H; now left|].
  apply IH. tauto.
Qed.

(** After [set], a map without repeated keys holds the key exactly once. *)
Lemma count_set m k v :
  NoDup (JsMap.keys m) -> JsMap.count (JsMap.set m k v) k = 1%nat.
Proof.
  unfold JsMap.count.
  induction m as [|[k' v'] r IH]; simpl; intros H.
  - now rewrite String.eqb_refl.
  - inversion H as [|? ? Hnot Hr]; subst.
    destruct (String.eqb k' k) eqn:E; simpl; rewrite E; simpl.
    + apply String.eqb_eq in E. subst k'.
      f_equal. now apply count_not_key.
    + now apply IH.
Qed.

Lemma get_delete_same m k :
  NoDup (JsMap.keys m) -> JsMap.get (JsMap.delete m k) k = None.
Proof.
  induction m as [|[k' v'] r IH]; simpl; intros H; [reflexivity|].
  inversion H as [|? ? Hnot Hr]; subst.
  destruct (String.eqb k' k) eqn:E; simpl.
  - apply String.eqb_eq in E. subst k'. now apply get_None_not_key.
  - rewrite E. now apply IH.
Qed.

Lemma delete_absent m k : JsMap.get m k = None -> JsMap.delete m k = m.
Proof.
  induction m as [|[k' v'] r IH]; simpl; [reflexivity|].
  destruct (String.eqb k' k); [discriminate|].
  intros H. now rewrite IH.
Qed.

Lemma Forall_values_set (P : V -> Prop) m k v :
  P v -> Forall P (JsMap.values m) -> Forall P (JsMap.values (JsMap.set m k v)).
Proof.
  intros Hv. induction m as [|[k' v'] r IH]; simpl; intros H.
  - now constructor.
  - inversion H; subst. destruct (String.eqb k' k); simpl; constructor; auto.
Qed.
End MapFacts.

(** ** What each handler does to the world *)

Ltac run_emit :=
  match goal with
  | |- context [ChainDataManager.emit ?ev ?p ?w] =>
      let H := fresh "Hemit" in
      destruct (emit_cases ev p w) as [H|[? H]]; rewrite H; clear H;
      cbn [manager emitted listeners next_function console published
           with_emitted with_manager with_console]
  end.

Ltac run_getMetrics :=
  match goal with
  | |- context [ChainDataManager.getMetrics ?m] =>
      destruct (ChainDataManager.getMetrics m)
  end.

Ltac unfold_handler :=
  unfold ChainDataManager.handleNewBlock, ChainDataManager.handleTransactionUpdate,
    ChainDataManager.handleTransactionRejected, ChainDataManager.processTransaction,
    exec, completion, try_catch, bind, console_write, lift, update_manager, read_manager.

Section Handlers.
Variable Date_parse : string -> Num.number.

Lemma handleNewBlock_completes (block : Block.t) (w : World) :
  completion (ChainDataManager.handleNewBlock Date_parse block) w = Normal tt.
Proof.
  unfold_handler.
  destruct (ChainDataManager.processBlock Date_parse block) as [pb|e]; [|reflexivity].
  run_emit; [|reflexivity].
  run_getMetrics; [|reflexivity].
  run_emit; reflexivity.
Qed.

Lemma handleNewBlock_manager (block : Block.t) (w : World) :
  manager (exec (ChainDataManager.handleNewBlock Date_parse block) w) =
  match ChainDataManager.processBlock Date_parse block with
  | Normal pb => ingest (Block.blockHash block) pb (manager w)
  | Throw _ => manager w
  end.
Proof.
  unfold_handler.
  destruct (ChainDataManager.processBlock Date_parse block) as [pb|e]; [|reflexivity].
  run_emit; [|reflexivity].
  run_getMetrics; [|reflexivity].
  run_emit; reflexivity.
Qed.

(** A block whose processing throws changes nothing but the console. *)
Lemma handleNewBlock_throw (block : Block.t) (e : Error) (w : World) :
  ChainDataManager.processBlock Date_parse block = Throw e ->
  let w' := exec (ChainDataManager.handleNewBlock Date_parse block) w in
  manager w' = manager w /\ emitted w' = emitted w /\
  listeners w' = listeners w /\ next_function w' = next_function w.
Proof.
  intros H. unfold_handler. rewrite H. simpl. auto.
Qed.

Lemma handleNewBlock_bus (block : Block.t) (w : World) :
  let w' := exec (ChainDataManager.handleNewBlock Date_parse block) w in
  listeners w' = listeners w /\ next_function w' = next_function w /\
  exists more, emitted w' = (emitted w ++ more)%list.
Proof.
  unfold_handler.
  destruct (ChainDataManager.processBlock Date_parse block) as [pb|e];
    [|simpl; repeat split; exists []; now rewrite app_nil_r].
  run_emit; [|repeat split; eexists; reflexivity].
  run_getMetrics; [|simpl; repeat split; eexists; reflexivity].
  run_emit; simpl; repeat split; rewrite <- app_assoc; eexists; reflexivity.
Qed.

Lemma handleTransactionUpdate_completes (t : EnhancedTransaction.t) (w : World) :
  completion (ChainDataManager.handleTransactionUpdate Date_parse t) w = Normal tt.
Proof. unfold_handler. run_emit; reflexivity. Qed.

Lemma handleTransactionUpdate_manager (t : EnhancedTransaction.t) (w : World) :
  manager (exec (ChainDataManager.handleTransactionUpdate Date_parse t) w) =
  Fields.with_transactions
    (JsMap.set (Fields.transactions (manager w)) (EnhancedTransaction.txHash t)
       {| ProcessedTransactionData.hash := EnhancedTransaction.txHash t;
          ProcessedTransactionData.status := EnhancedTransaction.status t;
          ProcessedTransactionData.value := 0;
          ProcessedTransactionData.fee := 0;
          ProcessedTransactionData.inputCount := Num.zero;
          ProcessedTransactionData.outputCount := Num.zero;
          ProcessedTransactionData.size := Num.zero;
          ProcessedTransactionData.timestamp :=
            Some (ChainDataManager.new_Date Date_parse (EnhancedTransaction.timestamp t)) |})
    (manager w).
Proof. unfold_handler. run_emit; reflexivity. Qed.

Lemma handleTransactionUpdate_bus (t : EnhancedTransaction.t) (w : World) :
  let w' := exec (ChainDataManager.handleTransactionUpdate Date_parse t) w in
  listeners w' = listeners w /\ next_function w' = next_function w /\
  exists more, emitted w' = (emitted w ++ more)%list.
Proof. unfold_handler. run_emit; simpl; repeat split; eexists; reflexivity. Qed.
End Handlers.

Lemma handleTransactionRejected_world (t : EnhancedTransaction.t) (w : World) :
  let w' := exec (ChainDataManager.handleTransactionRejected t) w in
  manager w' =
    Fields.with_transactions
      (JsMap.delete (Fields.transactions (manager w)) (EnhancedTransaction.txHash t))
      (manager w) /\
  emitted w' =
    (emitted w ++ [("transaction-removed", OfHash (EnhancedTransaction.txHash t))])%list /\
  listeners w' = listeners w /\ next_function w' = next_function w /\
  console w' = console w.
Proof. unfold_handler. run_emit; simpl; auto. Qed.

(** ** Sliding windows *)

Lemma last_n_all {A : Type} (n : nat) (l : list A) :
  (List.length l <= n)%nat -> last_n n l = l.
Proof.
  intros H. unfold last_n. replace (List.length l - n)%nat with O by lia. reflexivity.
Qed.

Lemma length_last_n {A : Type} (n : nat) (l : list A) :
  List.length (last_n n l) = Nat.min n (List.length l).
Proof. unfold last_n. rewrite length_skipn. lia. Qed.

Lemma last_n_app_last_n {A : Type} (n : nat) (l : list A) (x : A) :
  (0 < n)%nat -> last_n n (last_n n l ++ [x]) = last_n n (l ++ [x]).
Proof.
  intros Hn. unfold last_n.
  rewrite !length_app, length_skipn. simpl.
  destruct (Nat.le_gt_cases (List.length l) n) as [Hle|Hgt].
  - replace (List.length l - n)%nat with O by lia. simpl.
    now replace (List.length l - 0)%nat with (List.length l) by lia.
  - replace (List.length l - (List.length l - n) + 1 - n)%nat with 1%nat by lia.
    replace (List.length l + 1 - n)%nat with (1 + (List.length l - n))%nat by lia.
    rewrite <- skipn_skipn. f_equal.
    rewrite skipn_app.
    replace (List.length l - n - List.length l)%nat with O by lia.
    reflexivity.
Qed.

(** [push] then [shift] above 100 keeps the last 100. *)
Lemma push_bounded_last_n (a : list Num.number) (x : Num.number) :
  (List.length a <= 100)%nat ->
  ChainDataManager.push_bounded a x = last_n 100 (a ++ [x]).
Proof.
  intros H. unfold ChainDataManager.push_bounded, Array.push, Array.shift, last_n.
  rewrite length_app. cbn [List.length].
  destruct (Nat.ltb_spec 100 (List.length a + 1)) as [Hlt|Hge].
  - replace (List.length a + 1 - 100)%nat with 1%nat by lia.
    destruct a; reflexivity.
  - now replace (List.length a + 1 - 100)%nat with O by lia.
Qed.

Lemma push_bounded_length (a : list Num.number) (x : Num.number) :
  (List.length a <= 100)%nat ->
  (List.length (ChainDataManager.push_bounded a x) <= 100)%nat.
Proof.
  intros H. rewrite push_bounded_last_n by exact H.
  rewrite length_last_n. lia.
Qed.

(** [slice(-k)] is the last [k]. *)
Lemma slice_from_negative {A : Type} (k : nat) (a : list A) :
  (0 < k)%nat -> Array.slice_from a (- Z.of_nat k) = last_n k a.
Proof.
  intros Hk. unfold Array.slice_from, last_n.
  destruct (Z.ltb_spec (- Z.of_nat k) 0) as [_|Hge]; [|lia].
  f_equal. lia.
Qed.

(** ** The metrics the code computes *)

(** The loop of [calculateAverageBlockTime] collects the deltas. *)
Lemma for_loop_deltas (ts pre : list Num.number) (a : Num.number)
    (rest acc : list Num.number) :
  ts = (pre ++ a :: rest)%list ->
  Array.for_loop
    (fun i acc => Array.push acc (Array.get ts i - Array.get ts (i - 1))%num)
    (S (List.length pre)) (List.length rest) acc
  = (acc ++ deltas (a :: rest))%list.
Proof.
  revert pre a acc. induction rest as [|b rest IH]; intros pre a acc Hts.
  - simpl. now rewrite app_nil_r.
  - cbn [List.length Array.for_loop].
    replace (S (List.length pre)) with (List.length (pre ++ [a]))
      by (rewrite length_app; simpl; lia).
    rewrite (IH (pre ++ [a])%list b)
      by (rewrite Hts, <- app_assoc; reflexivity).
    unfold Array.push, Array.get.
    replace (List.length (pre ++ [a]) - 1)%nat with (List.length pre)
      by (rewrite length_app; simpl; lia).
    rewrite Hts at 2. rewrite app_nth2 by lia. rewrite Nat.sub_diag. cbn [nth].
    replace ts with ((pre ++ [a]) ++ b :: rest)%list
      by (rewrite Hts, <- app_assoc; reflexivity).
    rewrite app_nth2 by lia. rewrite Nat.sub_diag. cbn [nth].
    rewrite <- app_assoc. reflexivity.
Qed.

Lemma length_deltas (ts : list Num.number) :
  List.length (deltas ts) = (List.length ts - 1)%nat.
Proof.
  induction ts as [|a [|b rest] IH]; try reflexivity.
  change (deltas (a :: b :: rest)) with ((b - a)%num :: deltas (b :: rest)).
  cbn [List.length] in *. rewrite IH. lia.
Qed.

Lemma calculateAverageBlockTime_mean (m : Fields.t) :
  ChainDataManager.calculateAverageBlockTime m =
  if (List.length (Fields.blockTimestamps m) <? 2)%nat then Num.zero
  else seconds_of_milliseconds (mean (deltas (Fields.blockTimestamps m))).
Proof.
  unfold ChainDataManager.calculateAverageBlockTime.
  destruct (Fields.blockTimestamps m) as [|a rest]; [reflexivity|].
  destruct (Nat.ltb_spec (List.length (a :: rest)) 2) as [Hlt|Hge]; [reflexivity|].
  cbn [List.length]. rewrite Nat.sub_succ, Nat.sub_0_r.
  pose proof (for_loop_deltas (a :: rest) [] a rest [] eq_refl) as E.
  cbn [List.length app] in E. rewrite E.
  reflexivity.
Qed.

Lemma calculateTransactionThroughput_last_10 (m : Fields.t) :
  ChainDataManager.calculateTransactionThroughput m =
  let counts := Fields.transactionCounts m in
  let avg := ChainDataManager.calculateAverageBlockTime m in
  if (List.length counts =? 0)%nat then Num.zero
  else if Num.gt avg Num.zero
       then (sum (last_n 10 counts)
             / (Num.of_nat (Nat.min 10 (List.length counts)) * avg))%num
       else Num.zero.
Proof.
  unfold ChainDataManager.calculateTransactionThroughput. cbv zeta.
  change (-10) with (- Z.of_nat 10).
  rewrite slice_from_negative by lia.
  rewrite length_last_n. reflexivity.
Qed.

Lemma Q2Qc_inject_Z_add (a b : Z) :
  Q2Qc (inject_Z (a + b)) = (Q2Qc (inject_Z a) + Q2Qc (inject_Z b))%Qc.
Proof.
  unfold Qcplus. apply Q2Qc_eq_iff.
  cbn [this Q2Qc]. rewrite !Qred_correct, inject_Z_plus. reflexivity.
Qed.

(** Three samples 10 s and 15 s apart average to 12.5 s. *)
Lemma average_of_three (m : Fields.t) (t : Z) :
  Fields.blockTimestamps m = [Num.of_Z t; Num.of_Z (t + 10000); Num.of_Z (t + 25000)] ->
  ChainDataManager.calculateAverageBlockTime m = Num.Fin (Q2Qc (25 # 2)).
Proof.
  intros H. rewrite calculateAverageBlockTime_mean, H.
  cbn [List.length Nat.ltb Nat.leb deltas].
  unfold seconds_of_milliseconds, mean, sum, Num.of_Z. cbn [fold_left List.length].
  rewrite !Q2Qc_inject_Z_add.
  set (q := Q2Qc (inject_Z t)).
  unfold Num.sub, Num.add, Num.zero, Num.of_Z, Num.of_nat, Num.of_Z.
  assert (E : (Q2Qc (inject_Z 0) + (q + Q2Qc (inject_Z 10000) - q)
               + (q + Q2Qc (inject_Z 25000) - (q + Q2Qc (inject_Z 10000))) = Q2Qc (inject_Z 25000))%Qc).
  { ring_simplify. now apply Qc_is_canon. }
  rewrite E. vm_compute. now apply Fin_eq.
Qed.

(** ** The invariant holds in every state of the engine *)

Lemma Invariant_initial : Invariant Fields.initial.
Proof. split; simpl; try constructor; lia. Qed.

Lemma push_bounded_length_eq (a b : list Num.number) (x y : Num.number) :
  List.length a = List.length b ->
  List.length (ChainDataManager.push_bounded a x) =
  List.length (ChainDataManager.push_bounded b y).
Proof.
  intros H. unfold ChainDataManager.push_bounded, Array.push, Array.shift.
  rewrite !length_app, H. cbn [List.length].
  destruct (100 <? List.length b + 1)%nat.
  - destruct a, b; try discriminate; simpl in *; rewrite ?length_app; simpl; lia.
  - rewrite !length_app. simpl. lia.
Qed.

Lemma processBlock_Normal (Date_parse : string -> Num.number)
    (block : Block.t) (pb : ProcessedBlockData.t) :
  ChainDataManager.processBlock Date_parse block = Normal pb ->
  ProcessedBlockData.hash pb = Block.blockHash block /\
  ProcessedBlockData.difficulty pb = Num.zero /\
  Date.getTime (ProcessedBlockData.timestamp pb) = Date_parse (Block.timestamp block) /\
  ProcessedBlockData.transactionCount pb = Block.transactionCount block.
Proof.
  unfold ChainDataManager.processBlock.
  destruct (BigInt _); [|discriminate].
  intros [= <-]. simpl. auto.
Qed.

Lemma Invariant_ingest (Date_parse : string -> Num.number)
    (block : Block.t) (pb : ProcessedBlockData.t) (m : Fields.t) :
  ChainDataManager.processBlock Date_parse block = Normal pb ->
  Invariant m -> Invariant (ingest (Block.blockHash block) pb m).
Proof.
  intros Hpb [Hb Ht Hd Hlen Hpar].
  apply processBlock_Normal in Hpb as (_ & Hzero & _).
  split; simpl.
  - now apply NoDup_keys_set.
  - exact Ht.
  - now apply Forall_values_set.
  - now apply push_bounded_length.
  - now apply push_bounded_length_eq.
Qed.

Lemma Invariant_with_transactions (v : JsMap.t ProcessedTransactionData.t) (m : Fields.t) :
  NoDup (JsMap.keys v) -> Invariant m -> Invariant (Fields.with_transactions v m).
Proof. intros Hv [Hb Ht Hd Hlen Hpar]. split; assumption. Qed.

Section Preservation.
Variable Date_parse : string -> Num.number.

Lemma Invariant_handleNewBlock block w :
  Invariant (manager w) ->
  Invariant (manager (exec (ChainDataManager.handleNewBlock Date_parse block) w)).
Proof.
  intros H. rewrite handleNewBlock_manager.
  destruct (ChainDataManager.processBlock Date_parse block) eqn:E; [|exact H].
  now apply (Invariant_ingest Date_parse).
Qed.

Lemma Invariant_handleTransactionUpdate t w :
  Invariant (manager w) ->
  Invariant (manager (exec (ChainDataManager.handleTransactionUpdate Date_parse t) w)).
Proof.
  intros H. rewrite handleTransactionUpdate_manager.
  apply Invariant_with_transactions; [|exact H].
  apply NoDup_keys_set, H.
Qed.

Lemma Invariant_handleTransactionRejected t w :
  Invariant (manager w) ->
  Invariant (manager (exec (ChainDataManager.handleTransactionRejected t) w)).
Proof.
  intros H. destruct (handleTransactionRejected_world t w) as (-> & _).
  apply Invariant_with_transactions; [|exact H].
  apply NoDup_keys_delete, H.
Qed.

Lemma Invariant_call cb p w :
  Invariant (manager w) ->
  Invariant (manager (exec (ChainDataManager.call Date_parse cb p) w)).
Proof.
  intros H.
  destruct cb; destruct p as [[b|t]|[b|t] s| | | | |];
    try exact H;
    try (now apply Invariant_handleNewBlock);
    try (now apply Invariant_handleTransactionUpdate);
    try (now apply Invariant_handleTransactionRejected);
    unfold exec; cbn [ChainDataManager.call];
    rewrite call_consumer_frame; exact H.
Qed.

Lemma Invariant_call_each ls p w :
  Invariant (manager w) ->
  Invariant (manager (exec (EventBus.call_each (ChainDataManager.call Date_parse) ls p) w)).
Proof.
  revert w. induction ls as [|l r IH]; intros w H; [exact H|].
  unfold exec. cbn [EventBus.call_each]. unfold bind.
  pose proof (Invariant_call (callback l) p w H) as H1. unfold exec in H1.
  destruct (ChainDataManager.call Date_parse (callback l) p w) as [[[]|e] w1];
    [apply IH|]; exact H1.
Qed.

Lemma Invariant_EventBus_emit event p w :
  Invariant (manager w) ->
  Invariant (manager (exec (ChainDataManager.EventBus_emit Date_parse event p) w)).
Proof.
  intros H. unfold ChainDataManager.EventBus_emit, EventBus.emit_with, exec.
  now apply Invariant_call_each.
Qed.

Lemma cleanup_manager w : manager (exec ChainDataManager.cleanup w) = manager w.
Proof. reflexivity. Qed.

Lemma Invariant_handleMessage data w :
  Invariant (manager w) ->
  Invariant (manager (exec (CKBChainVizService.handleMessage Date_parse data) w)).
Proof.
  intros H.
  unfold CKBChainVizService.handleMessage, exec, bind, try_catch, console_write.
  set (w0 := with_console _ w).
  assert (H0 : Invariant (manager w0)) by exact H.
  clearbody w0.
  repeat match goal with
  | |- context [if ?b then _ else _] => destruct b
  end;
  try match goal with
  | |- context [ChainDataManager.EventBus_emit Date_parse ?ev ?p w0] =>
      pose proof (Invariant_EventBus_emit ev p w0 H0) as H1; unfold exec in H1;
      destruct (ChainDataManager.EventBus_emit Date_parse ev p w0) as [[[]|e] w1];
      exact H1
  end.
  exact H0.
Qed.

Lemma step_Invariant c w :
  step Date_parse c -> Invariant (manager w) -> Invariant (manager (exec c w)).
Proof.
  intros [block|t|t| |event f|event p|data] H.
  - now apply Invariant_handleNewBlock.
  - now apply Invariant_handleTransactionUpdate.
  - now apply Invariant_handleTransactionRejected.
  - exact H.
  - exact H.
  - now apply Invariant_EventBus_emit.
  - now apply Invariant_handleMessage.
Qed.

Theorem reachable_Invariant w : reachable Date_parse w -> Invariant (manager w).
Proof.
  induction 1 as [w|w c _ IH Hc].
  - exact Invariant_initial.
  - now apply step_Invariant.
Qed.
End Preservation.

(** ** [getMetrics] returns in every state of the engine *)

Lemma of_nat_nonzero (n : nat) :
  (0 < n)%nat -> Qeq_bool (Q2Qc (inject_Z (Z.of_nat n))) 0 = false.
Proof.
  intros Hn. destruct (Qeq_bool _ 0) eqn:E; [|reflexivity].
  apply Qeq_bool_eq in E. cbn [this Q2Qc] in E. rewrite Qred_correct in E.
  unfold Qeq in E. simpl in E. lia.
Qed.

Lemma zero_div_of_nat (n : nat) :
  (0 < n)%nat -> (Num.zero / Num.of_nat n)%num = Num.zero.
Proof.
  intros Hn. unfold Num.div, Num.zero, Num.of_nat, Num.of_Z.
  rewrite (of_nat_nonzero n Hn).
  apply Fin_eq. reflexivity.
Qed.

Lemma zero_div_positive (a : Num.number) :
  Num.gt a Num.zero = true -> (Num.zero / a)%num = Num.zero.
Proof.
  intros H. apply num_gt_zero_pos in H as (q & -> & Hq).
  unfold Num.div, Num.zero, Num.of_Z.
  destruct (Qeq_bool q 0) eqn:E.
  - apply Qeq_bool_eq in E. exfalso.
    apply (Qlt_irrefl 0). unfold Qclt in Hq. now rewrite E in Hq.
  - apply Fin_eq. reflexivity.
Qed.

Lemma sum_difficulty_zero (bs : list ProcessedBlockData.t) :
  Forall (fun b => ProcessedBlockData.difficulty b = Num.zero) bs ->
  Array.reduce (fun sum block => sum + ProcessedBlockData.difficulty block)%num
    Num.zero bs = Num.zero.
Proof.
  unfold Array.reduce. induction 1 as [|b r Hb _ IH]; simpl; [reflexivity|].
  rewrite Hb. exact IH.
Qed.

Lemma Forall_last_n {A : Type} (P : A -> Prop) (n : nat) (l : list A) :
  Forall P l -> Forall P (last_n n l).
Proof.
  intros H. unfold last_n. apply Forall_forall. intros x Hx.
  rewrite Forall_forall in H. apply H.
  rewrite <- (firstn_skipn (List.length l - n) l). apply in_or_app. now right.
Qed.

Lemma estimateHashRate_placeholder (m : Fields.t) :
  Invariant m -> ChainDataManager.estimateHashRate m = Normal 0.
Proof.
  intros Hinv. unfold ChainDataManager.estimateHashRate.
  destruct (Nat.eqb_spec (JsMap.size (Fields.blocks m)) 0) as [|Hsize]; [reflexivity|].
  destruct (Num.gt (ChainDataManager.calculateAverageBlockTime m) Num.zero) eqn:Hgt;
    [|reflexivity].
  change (-10) with (- Z.of_nat 10). rewrite slice_from_negative by lia.
  rewrite sum_difficulty_zero
    by (apply Forall_last_n, (difficulty_placeholder m Hinv)).
  rewrite zero_div_of_nat.
  - rewrite zero_div_positive by exact Hgt. reflexivity.
  - rewrite length_last_n. unfold JsMap.values. rewrite length_map.
    unfold JsMap.size in Hsize. lia.
Qed.

Lemma getMetrics_returns (m : Fields.t) :
  Invariant m ->
  ChainDataManager.getMetrics m =
  Normal {| Metrics.averageBlockTime := ChainDataManager.calculateAverageBlockTime m;
            Metrics.transactionThroughput := ChainDataManager.calculateTransactionThroughput m;
            Metrics.networkHashRate := 0;
            Metrics.pendingTxCount :=
              List.length (ChainDataManager.getPendingTransactions m);
            Metrics.confirmationTime :=
              ChainDataManager.calculateAverageConfirmationTime m |}.
Proof.
  intros H. unfold ChainDataManager.getMetrics.
  now rewrite estimateHashRate_placeholder.
Qed.

Lemma reachable_after_three_blocks : reachable Sample.Date_parse Sample.after_three_blocks.
Proof.
  unfold Sample.after_three_blocks, Sample.fresh.
  repeat (apply reachable_step; [|apply step_block]).
  apply reachable_new.
Qed.

(** ** C8: the reward is read as an exact integer *)

(** C8. When the reward of a raw block is a decimal integer string, as the
    decimal reader of the standard library reads it into [d], processing the
    block succeeds and the processed block's reward ([totalValue]) is the
    integer [d] denotes; and once the block is handled that very record is
    what [getBlockByHash] returns. *)
Theorem processBlock_reward_exact (Date_parse : string -> Num.number)
    (block : Block.t) (d : Decimal.int) (w : World) :
  NilZero.int_of_string (Block.reward block) = Some d ->
  exists pb,
    ChainDataManager.processBlock Date_parse block = Normal pb /\
    ProcessedBlockData.totalValue pb = Z.of_int d /\
    ChainDataManager.getBlockByHash
      (manager (exec (ChainDataManager.handleNewBlock Date_parse block) w))
      (Block.blockHash block) = Some pb.
Proof.
  intros H.
  assert (Hne : String.eqb (Block.reward block) "" = false)
    by (destruct (Block.reward block); [discriminate|reflexivity]).
  pose proof (BigInt_decimal _ _ H) as Hbig.
  eexists. split; [|split].
  - unfold ChainDataManager.processBlock. rewrite Hne, Hbig. reflexivity.
  - reflexivity.
  - rewrite handleNewBlock_manager.
    unfold ChainDataManager.processBlock. rewrite Hne, Hbig.
    unfold ChainDataManager.getBlockByHash, ingest. cbn [Fields.blocks].
    apply get_set_same.
Qed.

Lemma processBlock_reward_exact_witness :
  exists pb,
    ChainDataManager.processBlock Sample.Date_parse Sample.block1 = Normal pb /\
    ProcessedBlockData.totalValue pb = 123456789012345678 /\
    ChainDataManager.getBlockByHash
      (manager (exec (ChainDataManager.handleNewBlock Sample.Date_parse Sample.block1)
                  Sample.fresh))
      "0xb1" = Some pb.
Proof.
  exact (processBlock_reward_exact Sample.Date_parse Sample.block1
           (Z.to_int 123456789012345678) Sample.fresh eq_refl).
Defined.

(** ** C6: the average block interval *)

(** C6. In every state of the engine [getMetrics()] returns, and its average
    block interval is 0 when the timestamp window holds fewer than 2 samples
    and otherwise the mean of the consecutive deltas of the window, converted
    from milliseconds to seconds; for a window [t, t+10000, t+25000] it is
    12.5. *)
Theorem averageBlockTime_mean_of_deltas (Date_parse : string -> Num.number) (w : World) :
  reachable Date_parse w ->
  exists metrics,
    ChainDataManager.getMetrics (manager w) = Normal metrics /\
    Metrics.averageBlockTime metrics =
      (if (List.length (Fields.blockTimestamps (manager w)) <? 2)%nat then Num.zero
       else seconds_of_milliseconds (mean (deltas (Fields.blockTimestamps (manager w))))) /\
    (forall t : Z,
        Fields.blockTimestamps (manager w)
          = [Num.of_Z t; Num.of_Z (t + 10000); Num.of_Z (t + 25000)] ->
        Metrics.averageBlockTime metrics = Num.Fin (Q2Qc (25 # 2))).
Proof.
  intros Hw. apply reachable_Invariant in Hw.
  eexists. split; [apply getMetrics_returns, Hw|]. cbn [Metrics.averageBlockTime].
  split; [apply calculateAverageBlockTime_mean|].
  intros t Ht. now apply (average_of_three _ t).
Qed.

Lemma averageBlockTime_mean_of_deltas_witness :
  exists metrics,
    ChainDataManager.getMetrics (manager Sample.after_three_blocks) = Normal metrics /\
    Metrics.averageBlockTime metrics =
      (if (List.length (Fields.blockTimestamps (manager Sample.after_three_blocks)) <? 2)%nat
       then Num.zero
       else seconds_of_milliseconds
              (mean (deltas (Fields.blockTimestamps (manager Sample.after_three_blocks))))) /\
    (forall t : Z,
        Fields.blockTimestamps (manager Sample.after_three_blocks)
          = [Num.of_Z t; Num.of_Z (t + 10000); Num.of_Z (t + 25000)] ->
        Metrics.averageBlockTime metrics = Num.Fin (Q2Qc (25 # 2))).
Proof.
  exact (averageBlockTime_mean_of_deltas Sample.Date_parse Sample.after_three_blocks
           reachable_after_three_blocks).
Defined.

(** The three sample blocks arrive at 0 s, 10 s and 25 s: 12.5 s on average. *)
Example averageBlockTime_after_three_blocks :
  Fields.blockTimestamps (manager Sample.after_three_blocks)
    = [Num.of_Z 0; Num.of_Z 10000; Num.of_Z 25000] /\
  ChainDataManager.calculateAverageBlockTime (manager Sample.after_three_blocks)
    = Num.Fin (Q2Qc (25 # 2)).
Proof.
  split; [reflexivity|]. now apply (average_of_three _ 0).
Qed.

(** ** C2: transaction throughput *)

(** The claim as worded, refuted: after the three sample blocks the window of
    counts is [3, 5, 7] and the average interval 12.5 s; the code returns
    15 / (3 x 12.5) = 2/5, not 15 / (10 x 12.5) = 3/25. *)
Lemma throughput_does_not_divide_by_ten :
  exists metrics,
    ChainDataManager.getMetrics (manager Sample.after_three_blocks) = Normal metrics /\
    Metrics.transactionThroughput metrics <>
      (sum (last_n 10 (Fields.transactionCounts (manager Sample.after_three_blocks)))
       / (Num.of_Z 10 * Metrics.averageBlockTime metrics))%num.
Proof.
  eexists. split.
  - apply getMetrics_returns, (reachable_Invariant Sample.Date_parse),
      reachable_after_three_blocks.
  - cbn [Metrics.transactionThroughput Metrics.averageBlockTime].
    intros H.
    assert (E : Num.eqb
                  (ChainDataManager.calculateTransactionThroughput
                     (manager Sample.after_three_blocks))
                  (Num.Fin (Q2Qc (3 # 25))) = true).
    { rewrite H. vm_compute. reflexivity. }
    vm_compute in E. discriminate E.
Qed.

(** Blocks whose timestamps go backwards give a negative average interval;
    the code then returns 0, where the formula of the claim is negative. *)
Example throughput_zero_when_interval_negative :
  let w :=
    exec (ChainDataManager.handleNewBlock Sample.Date_parse Sample.block1)
      (exec (ChainDataManager.handleNewBlock Sample.Date_parse Sample.block2)
         Sample.fresh) in
  ChainDataManager.calculateAverageBlockTime (manager w) = Num.of_Z (-10) /\
  ChainDataManager.calculateTransactionThroughput (manager w) = Num.zero.
Proof.
  cbv zeta. split; [|reflexivity].
  vm_compute. now apply Fin_eq.
Qed.

(** C2, amended. In every state of the engine [getMetrics()] returns, and
    its throughput is 0 when the window of counts is empty or the average
    block interval is not positive; otherwise it is the sum of the last [k]
    counts divided by ([k] x the average interval), where [k] is 10 or the
    length of the window if that is smaller. *)
Theorem transactionThroughput_recent_counts (Date_parse : string -> Num.number) (w : World) :
  reachable Date_parse w ->
  exists metrics,
    ChainDataManager.getMetrics (manager w) = Normal metrics /\
    let counts := Fields.transactionCounts (manager w) in
    let avg := Metrics.averageBlockTime metrics in
    let k := Nat.min 10 (List.length counts) in
    Metrics.transactionThroughput metrics =
      (if (List.length counts =? 0)%nat then Num.zero
       else if Num.gt avg Num.zero
            then (sum (last_n k counts) / (Num.of_nat k * avg))%num
            else Num.zero).
Proof.
  intros Hw. apply reachable_Invariant in Hw.
  eexists. split; [apply getMetrics_returns, Hw|].
  cbn [Metrics.averageBlockTime Metrics.transactionThroughput].
  rewrite calculateTransactionThroughput_last_10. cbv zeta.
  destruct (Nat.le_gt_cases 10 (List.length (Fields.transactionCounts (manager w))))
    as [Hle|Hgt].
  - now rewrite Nat.min_l by exact Hle.
  - rewrite Nat.min_r by lia.
    rewrite !last_n_all by lia. reflexivity.
Qed.

Lemma transactionThroughput_recent_counts_witness :
  exists metrics,
    ChainDataManager.getMetrics (manager Sample.after_three_blocks) = Normal metrics /\
    let counts := Fields.transactionCounts (manager Sample.after_three_blocks) in
    let avg := Metrics.averageBlockTime metrics in
    let k := Nat.min 10 (List.length counts) in
    Metrics.transactionThroughput metrics =
      (if (List.length counts =? 0)%nat then Num.zero
       else if Num.gt avg Num.zero
            then (sum (last_n k counts) / (Num.of_nat k * avg))%num
            else Num.zero).
Proof.
  exact (transactionThroughput_recent_counts Sample.Date_parse Sample.after_three_blocks
           reachable_after_three_blocks).
Defined.

(** ** C3: the two sliding windows *)

Section Windows.
Variable Date_parse : string -> Num.number.

Lemma deliver_blocks_windows (blocks : list Block.t) (w : World)
    (times counts : list Num.number) :
  Fields.blockTimestamps (manager w) = last_n 100 times ->
  Fields.transactionCounts (manager w) = last_n 100 counts ->
  let done := filter (processes Date_parse) blocks in
  let m := manager (deliver_blocks Date_parse blocks w) in
  Fields.blockTimestamps m
    = last_n 100 (times ++ map (fun b => Date_parse (Block.timestamp b)) done)%list /\
  Fields.transactionCounts m
    = last_n 100 (counts ++ map Block.transactionCount done)%list.
Proof.
  revert w times counts.
  induction blocks as [|block rest IH]; intros w times counts Ht Hc; cbn zeta.
  - simpl. now rewrite !app_nil_r.
  - change (deliver_blocks Date_parse (block :: rest) w)
      with (deliver_blocks Date_parse rest
              (exec (ChainDataManager.handleNewBlock Date_parse block) w)).
    pose proof (handleNewBlock_manager Date_parse block w) as Hm.
    cbn [filter].
    assert (Hp : processes Date_parse block =
                 match ChainDataManager.processBlock Date_parse block with
                 | Normal _ => true
                 | Throw _ => false
                 end) by reflexivity.
    destruct (ChainDataManager.processBlock Date_parse block) as [pb|e] eqn:E;
      rewrite Hp; clear Hp.
    + apply processBlock_Normal in E as (_ & _ & Htime & Hcount).
      assert (H1 : Fields.blockTimestamps
                     (manager (exec (ChainDataManager.handleNewBlock Date_parse block) w))
                   = last_n 100 (times ++ [Date_parse (Block.timestamp block)])%list).
      { rewrite Hm. unfold ingest. cbn [Fields.blockTimestamps].
        rewrite Ht, Htime, push_bounded_last_n by (rewrite length_last_n; lia).
        apply last_n_app_last_n. lia. }
      assert (H2 : Fields.transactionCounts
                     (manager (exec (ChainDataManager.handleNewBlock Date_parse block) w))
                   = last_n 100 (counts ++ [Block.transactionCount block])%list).
      { rewrite Hm. unfold ingest. cbn [Fields.transactionCounts].
        rewrite Hc, Hcount, push_bounded_last_n by (rewrite length_last_n; lia).
        apply last_n_app_last_n. lia. }
      destruct (IH _ _ _ H1 H2) as [IHt IHc].
      rewrite IHt, IHc. cbn [map]. rewrite <- !app_assoc. split; reflexivity.
    + apply IH; rewrite Hm; assumption.
Qed.
End Windows.

(** The claim as worded, refuted: a block-finalized event whose reward is
    ["12.5"] makes [BigInt] throw inside [processBlock]; the handler catches
    the exception and nothing is appended to the timestamp window. *)
Lemma malformed_block_not_appended :
  let w := exec (ChainDataManager.handleNewBlock Sample.Date_parse Sample.malformed)
                Sample.fresh in
  Fields.blockTimestamps (manager w) <>
    Array.push (Fields.blockTimestamps (manager Sample.fresh))
      (Sample.Date_parse (Block.timestamp Sample.malformed)) /\
  Fields.transactionCounts (manager w) <>
    Array.push (Fields.transactionCounts (manager Sample.fresh))
      (Block.transactionCount Sample.malformed).
Proof. split; discriminate. Qed.

(** C3, amended. Starting from a new manager, after any sequence of
    block-finalized events the timestamp window holds the parsed timestamps,
    and the count window the transaction counts, of the last 100 events that
    [processBlock] accepted, in arrival order (events on which it throws
    append nothing); so both windows have the length min(100, number of
    accepted events), which is exactly 100 from the 100th accepted event on. *)
Theorem windows_hold_last_100_accepted (Date_parse : string -> Num.number)
    (blocks : list Block.t) (w : World) :
  let done := filter (processes Date_parse) blocks in
  let m := manager (deliver_blocks Date_parse blocks (exec ChainDataManager.constructor w)) in
  Fields.blockTimestamps m
    = last_n 100 (map (fun b => Date_parse (Block.timestamp b)) done) /\
  Fields.transactionCounts m = last_n 100 (map Block.transactionCount done) /\
  List.length (Fields.blockTimestamps m) = Nat.min 100 (List.length done) /\
  List.length (Fields.transactionCounts m) = Nat.min 100 (List.length done).
Proof.
  cbv zeta.
  destruct (deliver_blocks_windows Date_parse blocks
              (exec ChainDataManager.constructor w) [] [] eq_refl eq_refl) as [Ht Hc].
  rewrite !app_nil_l in Ht, Hc. rewrite Ht, Hc, !length_last_n, !length_map. auto.
Qed.

(** 150 well-formed blocks: the windows hold the last 100, in order. *)
Example windows_after_150_blocks :
  let blocks :=
    map (fun i => Sample.block "1" (String (ascii_of_nat i) "") "1970-01-01T00:00:10.000Z"
                    "1" (Z.of_nat i))
        (seq 0 150) in
  let m := manager (deliver_blocks Sample.Date_parse blocks Sample.fresh) in
  List.length (Fields.blockTimestamps m) = 100%nat /\
  Fields.transactionCounts m = map (fun i => Num.of_Z (Z.of_nat i)) (seq 50 100).
Proof.
  cbv zeta.
  destruct (deliver_blocks_windows Sample.Date_parse
              (map (fun i => Sample.block "1" (String (ascii_of_nat i) "")
                                "1970-01-01T00:00:10.000Z" "1" (Z.of_nat i)) (seq 0 150))
              Sample.fresh [] [] eq_refl eq_refl) as (Ht & Hc).
  split; [rewrite Ht, length_last_n|rewrite Hc]; vm_compute; reflexivity.
Qed.

(** ** C4: one record per transaction hash, latest status wins *)

Lemma deliver_transaction_step (Date_parse : string -> Num.number) (ev : TransactionEvent) :
  step Date_parse (deliver_transaction Date_parse ev).
Proof.
  unfold deliver_transaction. destruct (event_status ev); constructor.
Qed.

Lemma deliver_transactions_reachable (Date_parse : string -> Num.number)
    (evs : list TransactionEvent) (w : World) :
  reachable Date_parse w -> reachable Date_parse (deliver_transactions Date_parse evs w).
Proof.
  revert w. induction evs as [|ev rest IH]; intros w H; [exact H|].
  apply IH. apply reachable_step; [exact H|apply deliver_transaction_step].
Qed.

Lemma deliver_transactions_app (Date_parse : string -> Num.number)
    (evs more : list TransactionEvent) (w : World) :
  deliver_transactions Date_parse (evs ++ more) w =
  deliver_transactions Date_parse more (deliver_transactions Date_parse evs w).
Proof. unfold deliver_transactions. apply fold_left_app. Qed.

(** C4. From any state of the engine, after any sequence of transaction
    events ending with an event on hash [T1]: if that last event is pending,
    proposed or confirmed, the transaction map holds exactly one entry for
    [T1] and [getTransactionByHash(T1)] returns the record with hash [T1]
    and the status of that event; if it is rejected,
    [getTransactionByHash(T1)] returns nothing. *)
Theorem latest_status_wins (Date_parse : string -> Num.number) (w : World)
    (evs : list TransactionEvent) (ev : TransactionEvent) :
  reachable Date_parse w ->
  let T1 := Transaction.txHash (event_transaction ev) in
  let m := manager (deliver_transactions Date_parse (evs ++ [ev]) w) in
  match event_status ev with
  | REJECTED => ChainDataManager.getTransactionByHash m T1 = None
  | status =>
      JsMap.count (Fields.transactions m) T1 = 1%nat /\
      exists record,
        ChainDataManager.getTransactionByHash m T1 = Some record /\
        ProcessedTransactionData.hash record = T1 /\
        ProcessedTransactionData.status record = status
  end.
Proof.
  intros Hw. cbv zeta. rewrite deliver_transactions_app.
  pose proof (reachable_Invariant Date_parse _
                (deliver_transactions_reachable Date_parse evs w Hw)) as Hinv.
  set (w1 := deliver_transactions Date_parse evs w) in *.
  cbn [deliver_transactions fold_left]. unfold deliver_transaction.
  destruct ev as [status t]. cbn [event_status event_transaction].
  destruct status;
    try (rewrite handleTransactionUpdate_manager;
         unfold ChainDataManager.getTransactionByHash; cbn [Fields.transactions Fields.with_transactions];
         split; [apply count_set, Hinv|];
         eexists; split; [apply get_set_same|split; reflexivity]).
  destruct (handleTransactionRejected_world
              (event_payload {| event_status := REJECTED; event_transaction := t |}) w1)
    as (-> & _).
  unfold ChainDataManager.getTransactionByHash. cbn [Fields.transactions Fields.with_transactions].
  apply get_delete_same, Hinv.
Qed.

Lemma latest_status_wins_witness :
  let T1 := "0x71" in
  let pending := {| event_status := PENDING; event_transaction := Sample.transaction T1 |} in
  let proposed := {| event_status := PROPOSED; event_transaction := Sample.transaction T1 |} in
  let confirmed := {| event_status := CONFIRMED; event_transaction := Sample.transaction T1 |} in
  let m := manager (deliver_transactions Sample.Date_parse
                      ([pending; proposed] ++ [confirmed]) Sample.fresh) in
  JsMap.count (Fields.transactions m) T1 = 1%nat /\
  exists record,
    ChainDataManager.getTransactionByHash m T1 = Some record /\
    ProcessedTransactionData.hash record = T1 /\
    ProcessedTransactionData.status record = CONFIRMED.
Proof.
  exact (latest_status_wins Sample.Date_parse Sample.fresh
           [ {| event_status := PENDING; event_transaction := Sample.transaction "0x71" |};
             {| event_status := PROPOSED; event_transaction := Sample.transaction "0x71" |} ]
           {| event_status := CONFIRMED; event_transaction := Sample.transaction "0x71" |}
           (reachable_new Sample.Date_parse empty_world)).
Defined.

(** Pending, proposed, confirmed, then rejected: the record is gone. *)
Example rejected_after_confirmed :
  let ev s := {| event_status := s; event_transaction := Sample.transaction "0x71" |} in
  ChainDataManager.getTransactionByHash
    (manager (deliver_transactions Sample.Date_parse
                [ev PENDING; ev PROPOSED; ev CONFIRMED; ev REJECTED] Sample.fresh))
    "0x71" = None.
Proof. reflexivity. Qed.

(** ** C10: rejecting a transaction the map does not hold *)

(** C10. When the hash of a transaction-rejected event is not in the
    transaction map, the handler still publishes [transaction-removed] with
    that hash (the one emission it makes), and the manager's fields, the
    listeners of the bus and the console are left as they were. *)
Theorem rejected_unknown_hash (w : World) (transaction : EnhancedTransaction.t) :
  ChainDataManager.getTransactionByHash (manager w)
    (EnhancedTransaction.txHash transaction) = None ->
  let w' := exec (ChainDataManager.handleTransactionRejected transaction) w in
  emitted w' =
    (emitted w ++ [("transaction-removed", OfHash (EnhancedTransaction.txHash transaction))])%list /\
  manager w' = manager w /\
  listeners w' = listeners w /\
  console w' = console w.
Proof.
  intros H.
  destruct (handleTransactionRejected_world transaction w) as (Hm & He & Hl & _ & Hc).
  cbv zeta. repeat split; try assumption.
  rewrite Hm. unfold ChainDataManager.getTransactionByHash in H.
  rewrite (delete_absent _ _ H). now destruct (manager w).
Qed.

Lemma rejected_unknown_hash_witness :
  let transaction := EnhancedTransaction.spread (Sample.transaction "0x72") REJECTED in
  let w' := exec (ChainDataManager.handleTransactionRejected transaction)
                 Sample.after_three_blocks in
  emitted w' =
    (emitted Sample.after_three_blocks ++ [("transaction-removed", OfHash "0x72")])%list /\
  manager w' = manager Sample.after_three_blocks /\
  listeners w' = listeners Sample.after_three_blocks /\
  console w' = console Sample.after_three_blocks.
Proof.
  exact (rejected_unknown_hash Sample.after_three_blocks
           (EnhancedTransaction.spread (Sample.transaction "0x72") REJECTED) eq_refl).
Defined.

(** ** C5: a failing event is isolated *)

(** The claim as worded, refuted twice. A [null] payload is a malformed
    payload, and the exception it raises leaves [handleNewBlock]: the
    [catch] block reads [block.blockHash] again. And when the exception is
    raised by a subscriber of processed-block-data, it is caught, but the
    block map is not what it was before the event: the record was stored
    before the publication. *)
Lemma failing_event_not_contained :
  completion (ChainDataManager.handleNewBlock_payload Sample.Date_parse None)
             Sample.after_three_blocks = Throw TypeError /\
  completion (ChainDataManager.handleTransactionUpdate_payload Sample.Date_parse None)
             Sample.after_three_blocks = Throw TypeError /\
  (let w := sample_with_failing_subscriber in
   let w' := exec (ChainDataManager.handleNewBlock Sample.Date_parse sample_unnumbered) w in
   completion (ChainDataManager.handleNewBlock Sample.Date_parse sample_unnumbered) w
     = Normal tt /\
   last (console w') (LOG, []) = (ERROR, [Text "Block data:"; ABlock sample_unnumbered]) /\
   ChainDataManager.getBlockByHash (manager w) "0xb6" = None /\
   ChainDataManager.getBlockByHash (manager w') "0xb6" <> None).
Proof.
  split; [reflexivity|]. split; [reflexivity|].
  cbv zeta. split; [apply handleNewBlock_completes|].
  split; [vm_compute; reflexivity|].
  split; [vm_compute; reflexivity|].
  vm_compute. discriminate.
Qed.

(** C5, amended. When the payload is an object (anything but [null] or
    [undefined]), no exception leaves [handleNewBlock] or
    [handleTransactionUpdate], whatever the payload holds and whatever the
    subscribers of the manager's own publications do; processing a
    transaction payload never throws. When processing a block payload
    throws, the manager's fields (both maps, both windows) are what they
    were before the event; when it does not, the block is stored and
    counted, also when a subscriber throws afterwards. After a block whose
    processing threw, a later block that processes into [pb] is stored and
    returned by [getBlockByHash]; likewise a later transaction update is
    stored and returned by [getTransactionByHash]. *)
Theorem failing_event_is_isolated (Date_parse : string -> Num.number) (w : World)
    (bad good : Block.t) (e : Error) (pb : ProcessedBlockData.t)
    (t : EnhancedTransaction.t) :
  ChainDataManager.processBlock Date_parse bad = Throw e ->
  ChainDataManager.processBlock Date_parse good = Normal pb ->
  let w1 := exec (ChainDataManager.handleNewBlock_payload Date_parse (Some bad)) w in
  let w2 := exec (ChainDataManager.handleNewBlock_payload Date_parse (Some good)) w1 in
  let w3 := exec (ChainDataManager.handleTransactionUpdate_payload Date_parse (Some t)) w1 in
  (forall block w0,
      completion (ChainDataManager.handleNewBlock_payload Date_parse (Some block)) w0
        = Normal tt) /\
  (forall t0 w0,
      completion (ChainDataManager.handleTransactionUpdate_payload Date_parse (Some t0)) w0
        = Normal tt) /\
  (forall t0, exists record, ChainDataManager.processTransaction Date_parse t0 = Normal record) /\
  (forall block w0,
      manager (exec (ChainDataManager.handleNewBlock_payload Date_parse (Some block)) w0) =
      match ChainDataManager.processBlock Date_parse block with
      | Normal stored => ingest (Block.blockHash block) stored (manager w0)
      | Throw _ => manager w0
      end) /\
  manager w1 = manager w /\
  ChainDataManager.getBlockByHash (manager w2) (Block.blockHash good) = Some pb /\
  (exists record,
      ChainDataManager.getTransactionByHash (manager w3) (EnhancedTransaction.txHash t)
        = Some record /\
      ProcessedTransactionData.status record = EnhancedTransaction.status t).
Proof.
  intros Hbad Hgood. cbv zeta. cbn [ChainDataManager.handleNewBlock_payload
                                     ChainDataManager.handleTransactionUpdate_payload].
  split; [intros; apply handleNewBlock_completes|].
  split; [intros; apply handleTransactionUpdate_completes|].
  split; [intros; eexists; reflexivity|].
  split; [intros; apply handleNewBlock_manager|].
  destruct (handleNewBlock_throw Date_parse bad e w Hbad) as (Hm & _).
  split; [exact Hm|]. split.
  - rewrite handleNewBlock_manager, Hgood.
    unfold ChainDataManager.getBlockByHash, ingest. cbn [Fields.blocks].
    apply get_set_same.
  - rewrite handleTransactionUpdate_manager.
    unfold ChainDataManager.getTransactionByHash. cbn [Fields.transactions Fields.with_transactions].
    eexists. split; [apply get_set_same|reflexivity].
Qed.

Lemma failing_event_is_isolated_witness :
  let Date_parse := Sample.Date_parse in
  let t := EnhancedTransaction.spread (Sample.transaction "0x71") PENDING in
  let w := Sample.after_three_blocks in
  let w1 := exec (ChainDataManager.handleNewBlock_payload Date_parse (Some Sample.malformed)) w in
  let w2 := exec (ChainDataManager.handleNewBlock_payload Date_parse (Some Sample.block1)) w1 in
  let w3 := exec (ChainDataManager.handleTransactionUpdate_payload Date_parse (Some t)) w1 in
  (forall block w0,
      completion (ChainDataManager.handleNewBlock_payload Date_parse (Some block)) w0
        = Normal tt) /\
  (forall t0 w0,
      completion (ChainDataManager.handleTransactionUpdate_payload Date_parse (Some t0)) w0
        = Normal tt) /\
  (forall t0, exists record, ChainDataManager.processTransaction Date_parse t0 = Normal record) /\
  (forall block w0,
      manager (exec (ChainDataManager.handleNewBlock_payload Date_parse (Some block)) w0) =
      match ChainDataManager.processBlock Date_parse block with
      | Normal stored => ingest (Block.blockHash block) stored (manager w0)
      | Throw _ => manager w0
      end) /\
  manager w1 = manager w /\
  ChainDataManager.getBlockByHash (manager w2) "0xb1"
    = Some {| ProcessedBlockData.hash := "0xb1";
              ProcessedBlockData.number := Num.of_Z 101;
              ProcessedBlockData.timestamp := {| Date.getTime := Num.of_Z 0 |};
              ProcessedBlockData.transactionCount := Num.of_Z 3;
              ProcessedBlockData.totalValue := 123456789012345678;
              ProcessedBlockData.size := Num.zero;
              ProcessedBlockData.miner := Block.miner Sample.block1;
              ProcessedBlockData.difficulty := Num.zero |} /\
  (exists record,
      ChainDataManager.getTransactionByHash (manager w3) "0x71" = Some record /\
      ProcessedTransactionData.status record = PENDING).
Proof.
  exact (failing_event_is_isolated Sample.Date_parse Sample.after_three_blocks
           Sample.malformed Sample.block1 SyntaxError _
           (EnhancedTransaction.spread (Sample.transaction "0x71") PENDING)
           eq_refl eq_refl).
Defined.

(** ** The bus during an emission *)

Section Bus.
Variable Date_parse : string -> Num.number.

Lemma call_trace_extending cb p :
  trace_extending (ChainDataManager.call Date_parse cb p).
Proof.
  intros w.
  assert (Hsame : forall w' : World, w' = w ->
            listeners w' = listeners w /\ next_function w' = next_function w /\
            exists more, emitted w' = (emitted w ++ more)%list).
  { intros w' ->. repeat split. exists []. now rewrite app_nil_r. }
  destruct cb; destruct p as [[b|t]|[b|t] s| | | | |];
    try (apply Hsame; reflexivity);
    try apply handleNewBlock_bus;
    try apply handleTransactionUpdate_bus;
    try (destruct (handleTransactionRejected_world (EnhancedTransaction.spread t s) w)
           as (_ & He & Hl & Hn & _);
         cbn [ChainDataManager.call]; repeat split; try assumption;
         eexists; exact He);
    apply Hsame; unfold exec; cbn [ChainDataManager.call];
    apply call_consumer_frame.
Qed.

Lemma call_each_trace_extending ls p :
  trace_extending (EventBus.call_each (ChainDataManager.call Date_parse) ls p).
Proof.
  induction ls as [|l r IH]; intros w.
  - repeat split. exists []. now rewrite app_nil_r.
  - unfold exec. cbn [EventBus.call_each]. unfold bind.
    destruct (call_trace_extending (callback l) p w) as (Hl & Hn & more & He).
    unfold exec in Hl, Hn, He.
    destruct (ChainDataManager.call Date_parse (callback l) p w) as [[[]|e] w1];
      cbn [snd] in *.
    + destruct (IH w1) as (Hl' & Hn' & more' & He'). unfold exec in Hl', Hn', He'.
      rewrite Hl', Hn', He', Hl, Hn, He, <- app_assoc.
      repeat split. eexists. reflexivity.
    + repeat split; try assumption. eexists. exact He.
Qed.

(** An emission is recorded first; what the listeners publish follows. *)
Lemma EventBus_emit_trace event p w :
  let w' := exec (ChainDataManager.EventBus_emit Date_parse event p) w in
  listeners w' = listeners w /\
  exists more, emitted w' = (emitted w ++ (event, p) :: more)%list.
Proof.
  cbv zeta. unfold ChainDataManager.EventBus_emit, EventBus.emit_with.
  destruct (call_each_trace_extending
              (EventBus.listeners_of event (listeners w)) p
              (with_emitted (emitted w ++ [(event, p)]) w)) as (Hl & _ & more & He).
  unfold exec in *. split; [exact Hl|].
  exists more. rewrite He. cbn [emitted with_emitted]. now rewrite <- app_assoc.
Qed.
End Bus.

(** ** C7: the normalizer *)

Lemma normalized_cases (type : string) (payload : WebSocketMessage.payload_t) :
  normalized type payload =
  if String.eqb type "block.finalized" then Some ("block-finalized", Raw payload)
  else if String.eqb type "transaction.pending"
       then Some ("transaction-pending", WithStatus payload PENDING)
  else if String.eqb type "transaction.proposed"
       then Some ("transaction-proposed", WithStatus payload PROPOSED)
  else if String.eqb type "transaction.confirmed"
       then Some ("transaction-confirmed", WithStatus payload CONFIRMED)
  else if String.eqb type "transaction.rejected"
       then Some ("transaction-rejected", WithStatus payload REJECTED)
  else None.
Proof.
  unfold normalized, transaction_kinds. cbn [find fst append].
  repeat match goal with
  | |- context [String.eqb type ?s] => destruct (String.eqb type s)
  end; reflexivity.
Qed.

(** C7. For every message and every world, [handleMessage] returns without
    throwing, even when a listener throws. A [block.finalized] message is
    emitted as [block-finalized] with the payload as it came; a
    [transaction.k] message, [k] one of pending, proposed, confirmed and
    rejected, is emitted as [transaction-k] with the payload and the status
    [k] stands for; the emission comes right after what the trace already
    held. A message of any other type is emitted nowhere: fields, listeners
    and trace stay as they were and the console gets the reception line and
    the warning with the type. As this holds in every world, it holds for
    each message after any earlier one. *)
Theorem handleMessage_normalizes (Date_parse : string -> Num.number)
    (data : WebSocketMessage.t) (w : World) :
  let w' := exec (CKBChainVizService.handleMessage Date_parse data) w in
  let type := WebSocketMessage.type data in
  let payload := WebSocketMessage.payload data in
  completion (CKBChainVizService.handleMessage Date_parse data) w = Normal tt /\
  listeners w' = listeners w /\
  match normalized type payload with
  | Some publication =>
      exists more, emitted w' = (emitted w ++ publication :: more)%list
  | None =>
      emitted w' = emitted w /\
      manager w' = manager w /\
      console w' =
        (console w ++
         [(LOG, [Text ("Received " ++ type ++ " event on "
                         ++ WebSocketMessage.channel data ++ " channel:");
                 AWire payload]);
          (WARN, [Text "Unknown message type:"; Text type])])%list
  end.
Proof.
  cbv zeta.
  rewrite normalized_cases.
  unfold CKBChainVizService.handleMessage, completion, exec, bind, try_catch,
    console_write.
  set (w0 := with_console _ w).
  repeat match goal with
  | |- context [String.eqb (WebSocketMessage.type data) ?s] =>
      destruct (String.eqb (WebSocketMessage.type data) s)
  end;
  try match goal with
  | |- context [ChainDataManager.EventBus_emit Date_parse ?ev ?p w0] =>
      destruct (EventBus_emit_trace Date_parse ev p w0) as (Hl & more & He);
      unfold exec in Hl, He;
      destruct (ChainDataManager.EventBus_emit Date_parse ev p w0) as [[[]|e] w1];
      cbn [fst snd listeners emitted with_console] in *;
      (split; [reflexivity|]); (split; [exact Hl|]); exists more; exact He
  end.
  unfold w0. cbn [fst snd listeners emitted manager console with_console]. rewrite <- app_assoc. auto.
Qed.

(** A consumer that throws on every block-finalized event does not stop the
    normalizer: the exception is caught and logged, and the next message is
    published and reaches the manager. *)
Example messages_are_isolated :
  let subscribe :=
    f <- EventBus.new_function (Consumer (fun _ => true)) ;;
    EventBus.on "block-finalized" f in
  let message type payload :=
    {| WebSocketMessage.channel := "chain";
       WebSocketMessage.type := type;
       WebSocketMessage.payload := payload |} in
  let first := message "block.finalized" (WebSocketMessage.OfBlock Sample.block1) in
  let second :=
    message "transaction.pending" (WebSocketMessage.OfTransaction (Sample.transaction "0x71")) in
  let w := exec subscribe Sample.fresh in
  let w1 := exec (CKBChainVizService.handleMessage Sample.Date_parse first) w in
  let w2 := exec (CKBChainVizService.handleMessage Sample.Date_parse second) w1 in
  completion (CKBChainVizService.handleMessage Sample.Date_parse first) w = Normal tt /\
  last (console w1) (LOG, []) = (ERROR, [Text "Message data:"; AMessage first]) /\
  completion (CKBChainVizService.handleMessage Sample.Date_parse second) w1 = Normal tt /\
  (exists record,
      ChainDataManager.getTransactionByHash (manager w2) "0x71" = Some record /\
      ProcessedTransactionData.status record = PENDING).
Proof.
  cbv zeta. repeat split; try reflexivity.
  eexists. split; reflexivity.
Qed.

(** ** C1: teardown *)

Lemma off_unregistered (event : string) (id bound : nat) (ls : list (string * Listener)) :
  Forall (fun e => (fn (snd e) < bound)%nat) ls -> (bound <= id)%nat ->
  filter (fun e => negb (String.eqb (fst e) event && Nat.eqb (fn (snd e)) id)) ls = ls.
Proof.
  intros H Hid. induction H as [|e r He _ IH]; simpl; [reflexivity|].
  destruct (Nat.eqb_spec (fn (snd e)) id) as [Heq|_]; [lia|].
  rewrite andb_false_r. simpl. now rewrite IH.
Qed.

(** [cleanup] hands [off] five functions it has just created: none of them is
    registered, so every listener stays, those of the manager included. *)
Lemma cleanup_keeps_listeners (w : World) :
  fresh_functions w ->
  listeners (exec ChainDataManager.cleanup w) = listeners w /\
  completion ChainDataManager.cleanup w = Normal tt.
Proof.
  intros H. split; [|reflexivity].
  unfold fresh_functions in H.
  cbn.
  set (n := next_function w) in *.
  rewrite (off_unregistered "block-finalized" n n) by (assumption || lia).
  rewrite (off_unregistered "transaction-pending" (S n) n) by (assumption || lia).
  rewrite (off_unregistered "transaction-proposed" (S (S n)) n) by (assumption || lia).
  rewrite (off_unregistered "transaction-confirmed" (S (S (S n))) n) by (assumption || lia).
  rewrite (off_unregistered "transaction-rejected" (S (S (S (S n)))) n) by (assumption || lia).
  reflexivity.
Qed.

(** C1, on the code's side. A manager is constructed on an empty bus and
    [cleanup] is called twice: neither call throws, and the five listeners
    are still registered. A block-finalized event emitted afterwards is
    handled by the manager: its block map and both windows change; so is a
    transaction-pending event. *)
Theorem cleanup_leaves_manager_subscribed :
  let w1 := Sample.fresh in
  let w2 := exec ChainDataManager.cleanup w1 in
  let w3 := exec ChainDataManager.cleanup w2 in
  let w4 :=
    exec (ChainDataManager.EventBus_emit Sample.Date_parse "block-finalized"
            (Raw (WebSocketMessage.OfBlock Sample.block1))) w3 in
  let w5 :=
    exec (ChainDataManager.EventBus_emit Sample.Date_parse "transaction-pending"
            (WithStatus (WebSocketMessage.OfTransaction (Sample.transaction "0x71")) PENDING))
         w4 in
  completion ChainDataManager.cleanup w1 = Normal tt /\
  completion ChainDataManager.cleanup w2 = Normal tt /\
  List.length (listeners w1) = 5%nat /\
  listeners w3 = listeners w1 /\
  manager w3 = Fields.initial /\
  JsMap.keys (Fields.blocks (manager w4)) = ["0xb1"] /\
  Fields.blockTimestamps (manager w4) = [Num.of_Z 0] /\
  Fields.transactionCounts (manager w4) = [Num.of_Z 3] /\
  JsMap.keys (Fields.transactions (manager w5)) = ["0x71"].
Proof.
  cbv zeta. repeat split; reflexivity.
Qed.

(* ================================================================= *)
(** * Further properties of the engine *)


(** ** Sorting *)

Lemma this_Qcminus (x y : Qc) : (this (x - y)%Qc == this x - this y)%Q.
Proof.
  unfold Qcminus, Qcplus, Qcopp. cbn [this Q2Qc]. rewrite !Qred_correct. reflexivity.
Qed.

Lemma gt_sub_zero (x y : Qc) :
  Num.gt (Num.Fin y - Num.Fin x)%num Num.zero = true <-> (x < y)%Qc.
Proof.
  unfold Num.gt, Num.sub, Num.zero, Num.of_Z.
  rewrite negb_true_iff.
  change (this (Q2Qc (inject_Z 0))) with (0%Q).
  unfold Qclt.
  split.
  - intros H. destruct (Qlt_le_dec x y) as [Hlt|Hle]; [exact Hlt|].
    assert (Hq : (this (y - x)%Qc <= 0)%Q) by (rewrite this_Qcminus; lra).
    apply Qle_bool_iff in Hq. rewrite Hq in H. discriminate.
  - intros Hlt. destruct (Qle_bool (y - x)%Qc 0) eqn:E; [|reflexivity].
    apply Qle_bool_iff in E. rewrite this_Qcminus in E. lra.
Qed.

Lemma gt_true_at_least (a b : Num.number) :
  Num.gt (b - a)%num Num.zero = true -> at_least b a.
Proof.
  destruct a as [|x], b as [|y]; try discriminate.
  intros H. apply gt_sub_zero in H. now apply Qclt_le_weak.
Qed.

Lemma gt_false_at_least (a b : Num.number) :
  is_finite a -> is_finite b ->
  Num.gt (b - a)%num Num.zero = false -> at_least a b.
Proof.
  destruct a as [|x], b as [|y]; try contradiction.
  intros _ _ H. simpl.
  destruct (Qclt_le_dec x y) as [Hlt|Hle]; [|exact Hle].
  apply gt_sub_zero in Hlt. rewrite Hlt in H. discriminate.
Qed.

Section SortFacts.
Context {A : Type} (key : A -> Num.number).

Lemma sort_insert_Permutation (compare : A -> A -> Num.number) (x : A) (l : list A) :
  Permutation (Array.sort_insert compare x l) (x :: l).
Proof.
  induction l as [|y r IH]; simpl; [reflexivity|].
  destruct (Num.gt (compare x y) Num.zero); [|reflexivity].
  rewrite IH. apply perm_swap.
Qed.

Lemma sort_Permutation (compare : A -> A -> Num.number) (l : list A) :
  Permutation (Array.sort compare l) l.
Proof.
  induction l as [|x r IH]; simpl; [reflexivity|].
  rewrite sort_insert_Permutation. now constructor.
Qed.

Lemma at_least_trans (a b c : Num.number) :
  at_least a b -> at_least b c -> at_least a c.
Proof.
  destruct a, b, c; simpl; try tauto. intros H1 H2. now apply Qcle_trans with q0.
Qed.

Lemma sort_insert_sorted (x : A) (l : list A) :
  is_finite (key x) -> Forall (fun a => is_finite (key a)) l ->
  StronglySorted (fun a b => at_least (key a) (key b)) l ->
  StronglySorted (fun a b => at_least (key a) (key b)) (Array.sort_insert (descending key) x l).
Proof.
  intros Hx Hfin Hs. induction Hs as [|y r Hr IH Hy]; simpl.
  - repeat constructor.
  - inversion Hfin as [|? ? Hfy Hfr]; subst.
    unfold descending at 1.
    destruct (Num.gt (key y - key x)%num Num.zero) eqn:E.
    + constructor; [now apply IH|].
      apply (Permutation_Forall (Permutation_sym (sort_insert_Permutation (descending key) x r))).
      constructor; [|exact Hy].
      now apply gt_true_at_least.
    + pose proof (gt_false_at_least _ _ Hx Hfy E) as Hle.
      constructor; [now constructor|].
      constructor; [exact Hle|].
      eapply Forall_impl; [|exact Hy].
      intros a Ha. now apply at_least_trans with (key y).
Qed.

Lemma sort_sorted (l : list A) :
  Forall (fun a => is_finite (key a)) l ->
  StronglySorted (fun a b => at_least (key a) (key b)) (Array.sort (descending key) l).
Proof.
  induction 1 as [|x r Hx Hr IH]; simpl; [constructor|].
  apply sort_insert_sorted; [exact Hx| |exact IH].
  apply (Permutation_Forall (Permutation_sym (sort_Permutation (descending key) r))). exact Hr.
Qed.
End SortFacts.

Lemma slice_from_start {A : Type} (a : list A) (count : Z) :
  Array.slice a 0 count =
  firstn (Z.to_nat (Array.relative_index (Z.of_nat (List.length a)) count)) a.
Proof.
  unfold Array.slice.
  replace (Array.relative_index (Z.of_nat (List.length a)) 0) with 0
    by (unfold Array.relative_index; simpl; lia).
  rewrite Z.sub_0_r. reflexivity.
Qed.

Lemma slice_beyond {A : Type} (a : list A) (count : Z) :
  (Array.slice a 0 count ++ beyond a count)%list = a.
Proof. rewrite slice_from_start. apply firstn_skipn. Qed.

Lemma length_slice_from_start {A : Type} (a : list A) (count : Z) :
  0 <= count ->
  List.length (Array.slice a 0 count) = Nat.min (Z.to_nat count) (List.length a).
Proof.
  intros H. rewrite slice_from_start, length_firstn.
  unfold Array.relative_index. destruct (Z.ltb_spec count 0); lia.
Qed.


(** ** How the fields evolve *)

Section FieldsEvolution.
Variable Date_parse : string -> Num.number.
Variable R : Fields.t -> Fields.t -> Prop.
Hypothesis R_refl : forall m, R m m.
Hypothesis R_trans : forall m1 m2 m3, R m1 m2 -> R m2 m3 -> R m1 m3.
Hypothesis R_ingest :
  forall m block pb,
    ChainDataManager.processBlock Date_parse block = Normal pb ->
    R m (ingest (Block.blockHash block) pb m).
Hypothesis R_update :
  forall m t r,
    ChainDataManager.processTransaction Date_parse t = Normal r ->
    R m (Fields.with_transactions
           (JsMap.set (Fields.transactions m) (EnhancedTransaction.txHash t) r) m).
Hypothesis R_delete :
  forall m hash,
    R m (Fields.with_transactions (JsMap.delete (Fields.transactions m) hash) m).

Lemma evolution_handleNewBlock block w :
  R (manager w) (manager (exec (ChainDataManager.handleNewBlock Date_parse block) w)).
Proof.
  rewrite handleNewBlock_manager.
  destruct (ChainDataManager.processBlock Date_parse block) eqn:E; [|apply R_refl].
  now apply R_ingest.
Qed.

Lemma evolution_handleTransactionUpdate t w :
  R (manager w) (manager (exec (ChainDataManager.handleTransactionUpdate Date_parse t) w)).
Proof. rewrite handleTransactionUpdate_manager. now apply R_update. Qed.

Lemma evolution_handleTransactionRejected t w :
  R (manager w) (manager (exec (ChainDataManager.handleTransactionRejected t) w)).
Proof.
  destruct (handleTransactionRejected_world t w) as (-> & _). apply R_delete.
Qed.

Lemma evolution_call cb p w :
  R (manager w) (manager (exec (ChainDataManager.call Date_parse cb p) w)).
Proof.
  destruct cb; destruct p as [[b|t]|[b|t] s| | | | |];
    try apply R_refl;
    try apply evolution_handleNewBlock;
    try apply evolution_handleTransactionUpdate;
    try apply evolution_handleTransactionRejected;
    unfold exec; cbn [ChainDataManager.call];
    rewrite call_consumer_frame; apply R_refl.
Qed.

Lemma evolution_call_each ls p w :
  R (manager w)
    (manager (exec (EventBus.call_each (ChainDataManager.call Date_parse) ls p) w)).
Proof.
  revert w. induction ls as [|l r IH]; intros w; [apply R_refl|].
  unfold exec. cbn [EventBus.call_each]. unfold bind.
  pose proof (evolution_call (callback l) p w) as H1. unfold exec in H1.
  destruct (ChainDataManager.call Date_parse (callback l) p w) as [[[]|e] w1];
    [|exact H1].
  eapply R_trans; [exact H1|apply IH].
Qed.

Lemma evolution_EventBus_emit event p w :
  R (manager w) (manager (exec (ChainDataManager.EventBus_emit Date_parse event p) w)).
Proof.
  unfold ChainDataManager.EventBus_emit, EventBus.emit_with, exec.
  apply (evolution_call_each _ p (with_emitted _ w)).
Qed.

Lemma evolution_handleMessage data w :
  R (manager w) (manager (exec (CKBChainVizService.handleMessage Date_parse data) w)).
Proof.
  unfold CKBChainVizService.handleMessage, exec, bind, try_catch, console_write.
  set (w0 := with_console _ w).
  change (manager w) with (manager w0).
  clearbody w0.
  repeat match goal with
  | |- context [if ?b then _ else _] => destruct b
  end;
  try match goal with
  | |- context [ChainDataManager.EventBus_emit Date_parse ?ev ?p w0] =>
      pose proof (evolution_EventBus_emit ev p w0) as H1; unfold exec in H1;
      destruct (ChainDataManager.EventBus_emit Date_parse ev p w0) as [[[]|e] w1];
      exact H1
  end.
  apply R_refl.
Qed.

Lemma evolution_step c w :
  step Date_parse c -> R (manager w) (manager (exec c w)).
Proof.
  intros [block|t|t| |event f|event p|data].
  - apply evolution_handleNewBlock.
  - apply evolution_handleTransactionUpdate.
  - apply evolution_handleTransactionRejected.
  - apply R_refl.
  - apply R_refl.
  - apply evolution_EventBus_emit.
  - apply evolution_handleMessage.
Qed.

Lemma evolution_steps w w' :
  steps Date_parse w w' -> R (manager w) (manager w').
Proof.
  induction 1 as [w|w w' c _ IH Hc]; [apply R_refl|].
  eapply R_trans; [exact IH|now apply evolution_step].
Qed.
End FieldsEvolution.

(** A property of the fields that the three updates keep holds in every
    state of the engine. *)
Lemma reachable_fields (Date_parse : string -> Num.number) (P : Fields.t -> Prop) :
  P Fields.initial ->
  (forall m block pb,
      ChainDataManager.processBlock Date_parse block = Normal pb ->
      P m -> P (ingest (Block.blockHash block) pb m)) ->
  (forall m t r,
      ChainDataManager.processTransaction Date_parse t = Normal r ->
      P m ->
      P (Fields.with_transactions
           (JsMap.set (Fields.transactions m) (EnhancedTransaction.txHash t) r) m)) ->
  (forall m hash,
      P m -> P (Fields.with_transactions (JsMap.delete (Fields.transactions m) hash) m)) ->
  forall w, reachable Date_parse w -> P (manager w).
Proof.
  intros H0 Hi Hu Hd w Hw. induction Hw as [w|w c _ IH Hc]; [exact H0|].
  revert IH.
  apply (evolution_step Date_parse (fun m m' => P m -> P m')); eauto.
Qed.


(** ** More on maps *)

Section MoreMapFacts.
Context {V : Type}.
Implicit Types (m : JsMap.t V) (k : string) (v : V).

Lemma get_In m k v : JsMap.get m k = Some v -> In (k, v) m.
Proof.
  induction m as [|[k' v'] r IH]; simpl; [discriminate|].
  destruct (String.eqb_spec k' k) as [->|Hne].
  - intros [= ->]. now left.
  - intros H. right. now apply IH.
Qed.

Lemma In_get m k v : NoDup (JsMap.keys m) -> In (k, v) m -> JsMap.get m k = Some v.
Proof.
  induction m as [|[k' v'] r IH]; simpl; [tauto|].
  intros Hnd [[= -> ->]|Hin].
  - now rewrite String.eqb_refl.
  - inversion Hnd as [|? ? Hnot Hr]; subst.
    destruct (String.eqb_spec k' k) as [->|Hne].
    + exfalso. apply Hnot. change k with (fst (k, v)). now apply in_map.
    + now apply IH.
Qed.

Lemma Forall_set (P : string * V -> Prop) m k v :
  (forall k', P (k', v)) -> Forall P m -> Forall P (JsMap.set m k v).
Proof.
  intros Hv. induction m as [|[k' v'] r IH]; simpl; intros H.
  - constructor; [apply Hv|constructor].
  - inversion H; subst. destruct (String.eqb k' k); constructor; auto.
Qed.

Lemma Forall_set_key (P : string * V -> Prop) m k v :
  P (k, v) -> Forall P m -> Forall P (JsMap.set m k v).
Proof.
  intros Hv. induction m as [|[k' v'] r IH]; simpl; intros H.
  - constructor; [exact Hv|constructor].
  - inversion H; subst. destruct (String.eqb_spec k' k) as [->|Hne]; constructor; auto.
Qed.

Lemma Forall_delete (P : string * V -> Prop) m k :
  Forall P m -> Forall P (JsMap.delete m k).
Proof.
  induction m as [|[k' v'] r IH]; simpl; intros H; [constructor|].
  inversion H; subst. destruct (String.eqb k' k); [assumption|constructor; auto].
Qed.

Lemma size_set m k v : (JsMap.size m <= JsMap.size (JsMap.set m k v))%nat.
Proof.
  unfold JsMap.size. induction m as [|[k' v'] r IH]; simpl; [lia|].
  destruct (String.eqb k' k); simpl; lia.
Qed.

Lemma get_set_kept m k v h :
  JsMap.get m h <> None -> JsMap.get (JsMap.set m k v) h <> None.
Proof.
  intros H. destruct (string_dec k h) as [->|Hne].
  - rewrite get_set_same. discriminate.
  - now rewrite get_set_other.
Qed.

(** Filtering the values before and after [set]. *)
Lemma count_values_set (f : V -> bool) m k v :
  (List.length (filter f (JsMap.values (JsMap.set m k v)))
   + match JsMap.get m k with
     | Some old => if f old then 1 else 0
     | None => 0
     end
   = List.length (filter f (JsMap.values m)) + (if f v then 1 else 0))%nat.
Proof.
  induction m as [|[k' v'] r IH]; simpl.
  - destruct (f v); simpl; lia.
  - destruct (String.eqb k' k); simpl.
    + destruct (f v), (f v'); simpl; lia.
    + destruct (f v'); simpl; lia.
Qed.

Lemma count_values_delete (f : V -> bool) m k :
  (List.length (filter f (JsMap.values (JsMap.delete m k)))
   + match JsMap.get m k with
     | Some old => if f old then 1 else 0
     | None => 0
     end
   = List.length (filter f (JsMap.values m)))%nat.
Proof.
  induction m as [|[k' v'] r IH]; simpl; [reflexivity|].
  destruct (String.eqb k' k); simpl.
  - destruct (f v'); simpl; lia.
  - destruct (f v'); simpl; lia.
Qed.
End MoreMapFacts.

(** ** Records are stored under their own hash *)

Lemma reachable_keyed (Date_parse : string -> Num.number) (w : World) :
  reachable Date_parse w -> keyed (manager w).
Proof.
  apply (reachable_fields Date_parse keyed).
  - repeat split; constructor.
  - intros m block pb Hpb (Hb & Ht & Hs).
    apply processBlock_Normal in Hpb as (Hhash & _).
    repeat split; simpl; try assumption.
    now apply Forall_set_key.
  - intros m t r [= <-] (Hb & Ht & Hs).
    repeat split; simpl; try assumption.
    + now apply Forall_set_key.
    + apply Forall_set; [intros; simpl; discriminate|exact Hs].
  - intros m hash (Hb & Ht & Hs).
    repeat split; simpl; try assumption; now apply Forall_delete.
Qed.


(** ** X1 - X2: what holds in every state of the engine *)

(** X1. In every state of the engine [estimateHashRate] returns 0 without
    throwing: the difficulty it averages is the placeholder 0 of
    [processBlock], so [getMetrics().networkHashRate] is always 0. *)
Theorem hash_rate_is_always_zero (Date_parse : string -> Num.number) (w : World) :
  reachable Date_parse w ->
  ChainDataManager.estimateHashRate (manager w) = Normal 0 /\
  exists metrics,
    ChainDataManager.getMetrics (manager w) = Normal metrics /\
    Metrics.networkHashRate metrics = 0.
Proof.
  intros Hw. apply reachable_Invariant in Hw. split.
  - now apply estimateHashRate_placeholder.
  - eexists. split; [now apply getMetrics_returns|reflexivity].
Qed.

Lemma hash_rate_is_always_zero_witness :
  ChainDataManager.estimateHashRate (manager Sample.after_three_blocks) = Normal 0 /\
  exists metrics,
    ChainDataManager.getMetrics (manager Sample.after_three_blocks) = Normal metrics /\
    Metrics.networkHashRate metrics = 0.
Proof.
  exact (hash_rate_is_always_zero Sample.Date_parse Sample.after_three_blocks
           reachable_after_three_blocks).
Defined.

(** X2. However the engine was driven (handlers called directly, events
    emitted on the bus, wire messages normalized), the two windows have the
    same length, and never more than 100 entries. *)
Theorem windows_parallel_and_bounded (Date_parse : string -> Num.number) (w : World) :
  reachable Date_parse w ->
  List.length (Fields.transactionCounts (manager w))
    = List.length (Fields.blockTimestamps (manager w)) /\
  (List.length (Fields.blockTimestamps (manager w)) <= 100)%nat.
Proof.
  intros Hw. apply reachable_Invariant in Hw.
  split; [apply (windows_parallel _ Hw)|apply (timestamps_bounded _ Hw)].
Qed.

Lemma windows_parallel_and_bounded_witness :
  List.length (Fields.transactionCounts (manager Sample.after_three_blocks))
    = List.length (Fields.blockTimestamps (manager Sample.after_three_blocks)) /\
  (List.length (Fields.blockTimestamps (manager Sample.after_three_blocks)) <= 100)%nat.
Proof.
  exact (windows_parallel_and_bounded Sample.Date_parse Sample.after_three_blocks
           reachable_after_three_blocks).
Defined.

(** ** X3 - X5: the block map *)

(** X3. No operation of the engine removes a block: a hash that
    [getBlockByHash] finds is still found after any further run, and the
    block map never gets smaller. *)
Theorem blocks_are_never_dropped (Date_parse : string -> Num.number)
    (w w' : World) (hash : string) :
  steps Date_parse w w' ->
  (ChainDataManager.getBlockByHash (manager w) hash <> None ->
   ChainDataManager.getBlockByHash (manager w') hash <> None) /\
  (JsMap.size (Fields.blocks (manager w)) <= JsMap.size (Fields.blocks (manager w')))%nat.
Proof.
  apply (evolution_steps Date_parse
           (fun m m' =>
              (JsMap.get (Fields.blocks m) hash <> None ->
               JsMap.get (Fields.blocks m') hash <> None) /\
              (JsMap.size (Fields.blocks m) <= JsMap.size (Fields.blocks m'))%nat)).
  - intros m. split; [tauto|lia].
  - intros m1 m2 m3 [H1 L1] [H2 L2]. split; [tauto|lia].
  - intros m block pb _. simpl. split; [apply get_set_kept|apply size_set].
  - intros m t r _. simpl. split; [tauto|lia].
  - intros m h. simpl. split; [tauto|lia].
Qed.

Lemma steps_to_after_three_blocks :
  steps Sample.Date_parse
    (exec (ChainDataManager.handleNewBlock Sample.Date_parse Sample.block1) Sample.fresh)
    Sample.after_three_blocks.
Proof.
  unfold Sample.after_three_blocks.
  apply steps_step; [apply steps_step; [apply steps_refl|]|]; apply step_block.
Qed.

Lemma blocks_are_never_dropped_witness :
  let w := exec (ChainDataManager.handleNewBlock Sample.Date_parse Sample.block1)
                Sample.fresh in
  (ChainDataManager.getBlockByHash (manager w) "0xb1" <> None ->
   ChainDataManager.getBlockByHash (manager Sample.after_three_blocks) "0xb1" <> None) /\
  (JsMap.size (Fields.blocks (manager w))
   <= JsMap.size (Fields.blocks (manager Sample.after_three_blocks)))%nat.
Proof.
  exact (blocks_are_never_dropped Sample.Date_parse _ _ "0xb1" steps_to_after_three_blocks).
Defined.

Lemma deliver_blocks_keys (Date_parse : string -> Num.number)
    (blocks : list Block.t) (w : World) :
  NoDup (JsMap.keys (Fields.blocks (manager w))
         ++ map Block.blockHash (filter (processes Date_parse) blocks))%list ->
  JsMap.keys (Fields.blocks (manager (deliver_blocks Date_parse blocks w)))
  = (JsMap.keys (Fields.blocks (manager w))
     ++ map Block.blockHash (filter (processes Date_parse) blocks))%list.
Proof.
  revert w. induction blocks as [|block rest IH]; intros w Hnd.
  - simpl. now rewrite app_nil_r.
  - change (deliver_blocks Date_parse (block :: rest) w)
      with (deliver_blocks Date_parse rest
              (exec (ChainDataManager.handleNewBlock Date_parse block) w)).
    cbn [filter] in *.
    assert (Hp : processes Date_parse block =
                 match ChainDataManager.processBlock Date_parse block with
                 | Normal _ => true
                 | Throw _ => false
                 end) by reflexivity.
    pose proof (handleNewBlock_manager Date_parse block w) as Hm.
    destruct (ChainDataManager.processBlock Date_parse block) as [pb|e];
      rewrite Hp in *; clear Hp.
    + cbn [map] in *.
      assert (Hk : JsMap.keys (Fields.blocks
                     (manager (exec (ChainDataManager.handleNewBlock Date_parse block) w)))
                   = (JsMap.keys (Fields.blocks (manager w)) ++ [Block.blockHash block])%list).
      { rewrite Hm. unfold ingest. cbn [Fields.blocks]. rewrite keys_set.
        destruct (in_dec string_dec _ _) as [Hin|Hnot]; [|reflexivity].
        exfalso. apply NoDup_remove_2 in Hnd. apply Hnd. apply in_or_app. now left. }
      rewrite IH; rewrite Hk, <- app_assoc; [reflexivity|exact Hnd].
    + rewrite IH; rewrite Hm; [reflexivity|exact Hnd].
Qed.

(** X4. The block map has no bound: after any sequence of block-finalized
    events delivered to a new manager, if the accepted blocks have pairwise
    distinct hashes then the map holds all of them, in arrival order -
    however many there are, while the windows keep 100. *)
Theorem distinct_blocks_all_retained (Date_parse : string -> Num.number)
    (blocks : list Block.t) (w : World) :
  NoDup (map Block.blockHash (filter (processes Date_parse) blocks)) ->
  let m := manager (deliver_blocks Date_parse blocks (exec ChainDataManager.constructor w)) in
  JsMap.keys (Fields.blocks m) = map Block.blockHash (filter (processes Date_parse) blocks) /\
  JsMap.size (Fields.blocks m) = List.length (filter (processes Date_parse) blocks).
Proof.
  intros Hnd. cbv zeta.
  pose proof (deliver_blocks_keys Date_parse blocks (exec ChainDataManager.constructor w) Hnd)
    as Hk.
  cbn [app] in Hk. rewrite !app_nil_l in Hk || idtac.
  split; [exact Hk|].
  unfold JsMap.size. rewrite <- (length_map fst). fold (JsMap.keys (V:=ProcessedBlockData.t)).
  change (map fst ?x) with (JsMap.keys x). rewrite Hk. apply length_map.
Qed.


Lemma distinct_blocks_all_retained_witness :
  let blocks := [Sample.block1; Sample.malformed; Sample.block2; Sample.block3] in
  let m := manager (deliver_blocks Sample.Date_parse blocks
                      (exec ChainDataManager.constructor empty_world)) in
  JsMap.keys (Fields.blocks m)
    = map Block.blockHash (filter (processes Sample.Date_parse) blocks) /\
  JsMap.size (Fields.blocks m) = List.length (filter (processes Sample.Date_parse) blocks).
Proof.
  apply (distinct_blocks_all_retained Sample.Date_parse
           [Sample.block1; Sample.malformed; Sample.block2; Sample.block3] empty_world).
  repeat constructor; simpl; intuition discriminate.
Defined.

(** X5. A block delivered again under a hash the map already holds replaces
    the stored record in place (same keys, same order) but is counted once
    more in both windows: the windows count deliveries, not blocks. *)
Theorem redelivered_block_counts_again (Date_parse : string -> Num.number)
    (w : World) (block : Block.t) (pb : ProcessedBlockData.t) :
  reachable Date_parse w ->
  ChainDataManager.processBlock Date_parse block = Normal pb ->
  ChainDataManager.getBlockByHash (manager w) (Block.blockHash block) <> None ->
  let m := manager w in
  let m' := manager (exec (ChainDataManager.handleNewBlock Date_parse block) w) in
  JsMap.keys (Fields.blocks m') = JsMap.keys (Fields.blocks m) /\
  ChainDataManager.getBlockByHash m' (Block.blockHash block) = Some pb /\
  Fields.blockTimestamps m'
    = last_n 100 (Fields.blockTimestamps m ++ [Date_parse (Block.timestamp block)])%list /\
  Fields.transactionCounts m'
    = last_n 100 (Fields.transactionCounts m ++ [Block.transactionCount block])%list.
Proof.
  intros Hw Hpb Hin. cbv zeta.
  apply reachable_Invariant in Hw.
  rewrite handleNewBlock_manager, Hpb.
  apply processBlock_Normal in Hpb as (_ & _ & Htime & Hcount).
  unfold ingest, ChainDataManager.getBlockByHash in *.
  cbn [Fields.blocks Fields.blockTimestamps Fields.transactionCounts].
  repeat split.
  - rewrite keys_set.
    destruct (in_dec string_dec _ _) as [Hk|Hnot]; [reflexivity|].
    exfalso. apply Hin. now apply get_None_not_key.
  - apply get_set_same.
  - rewrite Htime. apply push_bounded_last_n, Hw.
  - rewrite Hcount. apply push_bounded_last_n.
    rewrite (windows_parallel _ Hw). apply Hw.
Qed.

Lemma redelivered_block_counts_again_witness :
  let w := Sample.after_three_blocks in
  let m := manager w in
  let m' := manager (exec (ChainDataManager.handleNewBlock Sample.Date_parse Sample.block2) w) in
  JsMap.keys (Fields.blocks m') = JsMap.keys (Fields.blocks m) /\
  ChainDataManager.getBlockByHash m' "0xb2"
    = Some {| ProcessedBlockData.hash := "0xb2";
              ProcessedBlockData.number := Num.of_Z 102;
              ProcessedBlockData.timestamp := {| Date.getTime := Num.of_Z 10000 |};
              ProcessedBlockData.transactionCount := Num.of_Z 5;
              ProcessedBlockData.totalValue := 111313151041;
              ProcessedBlockData.size := Num.zero;
              ProcessedBlockData.miner := Block.miner Sample.block2;
              ProcessedBlockData.difficulty := Num.zero |} /\
  Fields.blockTimestamps m'
    = last_n 100 (Fields.blockTimestamps m ++ [Num.of_Z 10000])%list /\
  Fields.transactionCounts m'
    = last_n 100 (Fields.transactionCounts m ++ [Num.of_Z 5])%list.
Proof.
  apply (redelivered_block_counts_again Sample.Date_parse Sample.after_three_blocks
           Sample.block2 _ reachable_after_three_blocks eq_refl).
  vm_compute. discriminate.
Defined.

(** ** X6 - X7: pending transactions *)

Lemma In_values_iff {V : Type} (m : JsMap.t V) (v : V) :
  In v (JsMap.values m) <-> exists k, In (k, v) m.
Proof.
  unfold JsMap.values. rewrite in_map_iff. split.
  - intros [[k v'] [<- Hin]]. now exists k.
  - intros [k Hin]. now exists (k, v).
Qed.

Lemma stored_transaction_iff (Date_parse : string -> Num.number) (w : World)
    (r : ProcessedTransactionData.t) :
  reachable Date_parse w ->
  In r (JsMap.values (Fields.transactions (manager w))) <->
  ChainDataManager.getTransactionByHash (manager w) (ProcessedTransactionData.hash r) = Some r.
Proof.
  intros Hw.
  pose proof (reachable_Invariant _ _ Hw) as Hinv.
  destruct (reachable_keyed _ _ Hw) as (_ & Hkey & _).
  rewrite In_values_iff. unfold ChainDataManager.getTransactionByHash. split.
  - intros [k Hin]. rewrite Forall_forall in Hkey.
    pose proof (Hkey _ Hin) as Hk. simpl in Hk. subst k.
    apply In_get; [apply Hinv|exact Hin].
  - intros H. eexists. apply get_In, H.
Qed.

Lemma stored_block_iff (Date_parse : string -> Num.number) (w : World)
    (b : ProcessedBlockData.t) :
  reachable Date_parse w ->
  In b (JsMap.values (Fields.blocks (manager w))) <->
  ChainDataManager.getBlockByHash (manager w) (ProcessedBlockData.hash b) = Some b.
Proof.
  intros Hw.
  pose proof (reachable_Invariant _ _ Hw) as Hinv.
  destruct (reachable_keyed _ _ Hw) as (Hkey & _).
  rewrite In_values_iff. unfold ChainDataManager.getBlockByHash. split.
  - intros [k Hin]. rewrite Forall_forall in Hkey.
    pose proof (Hkey _ Hin) as Hk. simpl in Hk. subst k.
    apply In_get; [apply Hinv|exact Hin].
  - intros H. eexists. apply get_In, H.
Qed.

Lemma Status_eqb_eq (a b : Status) : Status_eqb a b = true <-> a = b.
Proof. destruct a, b; simpl; split; congruence. Qed.

(** X6. In every state of the engine [getPendingTransactions()] returns
    exactly the records that [getTransactionByHash] finds under their own
    hash with status PENDING, and [getMetrics().pendingTxCount] is the
    length of that list. *)
Theorem getPendingTransactions_exact (Date_parse : string -> Num.number) (w : World) :
  reachable Date_parse w ->
  (forall r,
      In r (ChainDataManager.getPendingTransactions (manager w)) <->
      ChainDataManager.getTransactionByHash (manager w) (ProcessedTransactionData.hash r)
        = Some r /\
      ProcessedTransactionData.status r = PENDING) /\
  exists metrics,
    ChainDataManager.getMetrics (manager w) = Normal metrics /\
    Metrics.pendingTxCount metrics
      = List.length (ChainDataManager.getPendingTransactions (manager w)).
Proof.
  intros Hw. split.
  - intros r. unfold ChainDataManager.getPendingTransactions.
    rewrite filter_In, (stored_transaction_iff Date_parse w r Hw), Status_eqb_eq.
    reflexivity.
  - eexists. split; [apply getMetrics_returns, (reachable_Invariant _ _ Hw)|reflexivity].
Qed.

(** X7. Whatever the state, a transaction event changes the number of
    pending transactions by what it says about its own hash: the count
    after the event, plus 1 if the hash was pending before, equals the count
    before, plus 1 if the event is a pending one. *)
Theorem pending_count_follows_events (Date_parse : string -> Num.number)
    (w : World) (ev : TransactionEvent) :
  let hash := Transaction.txHash (event_transaction ev) in
  let m := manager w in
  let m' := manager (exec (deliver_transaction Date_parse ev) w) in
  (List.length (ChainDataManager.getPendingTransactions m') + pending_under m hash
   = List.length (ChainDataManager.getPendingTransactions m)
     + (if Status_eqb (event_status ev) PENDING then 1 else 0))%nat.
Proof.
  cbv zeta. unfold ChainDataManager.getPendingTransactions, pending_under,
    ChainDataManager.getTransactionByHash, deliver_transaction.
  destruct ev as [status t]. cbn [event_status event_transaction].
  destruct status;
    try (rewrite handleTransactionUpdate_manager;
         cbn [Fields.transactions Fields.with_transactions event_payload
              EnhancedTransaction.spread EnhancedTransaction.txHash
              EnhancedTransaction.status event_status event_transaction];
         rewrite count_values_set; reflexivity).
  destruct (handleTransactionRejected_world
              (event_payload {| event_status := REJECTED; event_transaction := t |}) w)
    as (-> & _).
  cbn [Fields.transactions Fields.with_transactions event_payload
       EnhancedTransaction.spread EnhancedTransaction.txHash event_transaction].
  rewrite count_values_delete. simpl. lia.
Qed.


(** ** X8 - X10: exports and rankings *)

Lemma In_last_n {A : Type} (n : nat) (l : list A) (x : A) : In x (last_n n l) -> In x l.
Proof.
  unfold last_n. intros H.
  rewrite <- (firstn_skipn (List.length l - n) l). apply in_or_app. now right.
Qed.

(** X8. In every state of the engine [getVisualizationData()] returns
    without throwing: the last 50 blocks and the last 100 transactions of
    the maps in insertion order, each of them the record the point lookup
    finds under its hash, and the metrics [getMetrics()] returns. *)
Theorem getVisualizationData_export (Date_parse : string -> Num.number) (w : World) :
  reachable Date_parse w ->
  exists data metrics,
    ChainDataManager.getVisualizationData (manager w) = Normal data /\
    ChainDataManager.getMetrics (manager w) = Normal metrics /\
    ChainVisualizationData.metrics data = metrics /\
    ChainVisualizationData.blocks data
      = last_n 50 (JsMap.values (Fields.blocks (manager w))) /\
    ChainVisualizationData.transactions data
      = last_n 100 (JsMap.values (Fields.transactions (manager w))) /\
    (forall b, In b (ChainVisualizationData.blocks data) ->
               ChainDataManager.getBlockByHash (manager w) (ProcessedBlockData.hash b)
                 = Some b) /\
    (forall t, In t (ChainVisualizationData.transactions data) ->
               ChainDataManager.getTransactionByHash (manager w)
                 (ProcessedTransactionData.hash t) = Some t).
Proof.
  intros Hw.
  pose proof (getMetrics_returns _ (reachable_Invariant _ _ Hw)) as Hm.
  unfold ChainDataManager.getVisualizationData. rewrite Hm.
  change (-50) with (- Z.of_nat 50). change (-100) with (- Z.of_nat 100).
  rewrite !slice_from_negative by lia.
  do 2 eexists. cbn [ChainVisualizationData.blocks ChainVisualizationData.transactions
                     ChainVisualizationData.metrics].
  repeat split.
  - intros b Hb. apply (stored_block_iff Date_parse w b Hw). eapply In_last_n, Hb.
  - intros t Ht. apply (stored_transaction_iff Date_parse w t Hw). eapply In_last_n, Ht.
Qed.

Lemma getVisualizationData_export_witness :
  let w := Sample.after_three_blocks in
  exists data metrics,
    ChainDataManager.getVisualizationData (manager w) = Normal data /\
    ChainDataManager.getMetrics (manager w) = Normal metrics /\
    ChainVisualizationData.metrics data = metrics /\
    ChainVisualizationData.blocks data
      = last_n 50 (JsMap.values (Fields.blocks (manager w))) /\
    ChainVisualizationData.transactions data
      = last_n 100 (JsMap.values (Fields.transactions (manager w))) /\
    (forall b, In b (ChainVisualizationData.blocks data) ->
               ChainDataManager.getBlockByHash (manager w) (ProcessedBlockData.hash b)
                 = Some b) /\
    (forall t, In t (ChainVisualizationData.transactions data) ->
               ChainDataManager.getTransactionByHash (manager w)
                 (ProcessedTransactionData.hash t) = Some t).
Proof.
  exact (getVisualizationData_export Sample.Date_parse Sample.after_three_blocks
           reachable_after_three_blocks).
Defined.

(** X9. When every stored block number is a number (no [NaN]),
    [getRecentBlocks(count)] returns the front of a descending ranking of
    all stored blocks: with the blocks it leaves out appended, the result is
    a permutation of the map's values in which every block's number is at
    least that of every block after it; for [count >= 0] it has
    min(count, size) blocks. *)
Theorem getRecentBlocks_ranking (m : Fields.t) (count : Z) :
  Forall (fun b => is_finite (ProcessedBlockData.number b)) (JsMap.values (Fields.blocks m)) ->
  exists rest,
    Permutation (ChainDataManager.getRecentBlocks m count ++ rest)
                (JsMap.values (Fields.blocks m)) /\
    StronglySorted
      (fun a b => at_least (ProcessedBlockData.number a) (ProcessedBlockData.number b))
      (ChainDataManager.getRecentBlocks m count ++ rest) /\
    (0 <= count ->
     List.length (ChainDataManager.getRecentBlocks m count)
       = Nat.min (Z.to_nat count) (JsMap.size (Fields.blocks m))).
Proof.
  intros Hfin. unfold ChainDataManager.getRecentBlocks.
  set (sorted := Array.sort _ _).
  exists (beyond sorted count).
  rewrite slice_beyond. subst sorted. repeat split.
  - apply sort_Permutation.
  - apply (sort_sorted ProcessedBlockData.number), Hfin.
  - intros Hc. rewrite length_slice_from_start by exact Hc.
    rewrite (Permutation_length (sort_Permutation _ _)).
    unfold JsMap.values, JsMap.size. now rewrite length_map.
Qed.

Lemma sample_block_numbers_finite :
  Forall (fun b => is_finite (ProcessedBlockData.number b))
         (JsMap.values (Fields.blocks (manager Sample.after_three_blocks))).
Proof. vm_compute. repeat constructor. Qed.

Lemma getRecentBlocks_ranking_witness :
  let m := manager Sample.after_three_blocks in
  exists rest,
    Permutation (ChainDataManager.getRecentBlocks m 2 ++ rest)
                (JsMap.values (Fields.blocks m)) /\
    StronglySorted
      (fun a b => at_least (ProcessedBlockData.number a) (ProcessedBlockData.number b))
      (ChainDataManager.getRecentBlocks m 2 ++ rest) /\
    (0 <= 2 ->
     List.length (ChainDataManager.getRecentBlocks m 2)
       = Nat.min (Z.to_nat 2) (JsMap.size (Fields.blocks m))).
Proof.
  exact (getRecentBlocks_ranking (manager Sample.after_three_blocks) 2
           sample_block_numbers_finite).
Defined.

(** The two most recent of the three sample blocks, highest number first. *)
Example getRecentBlocks_after_three_blocks :
  map ProcessedBlockData.hash
      (ChainDataManager.getRecentBlocks (manager Sample.after_three_blocks) 2)
  = ["0xb3"; "0xb2"].
Proof. reflexivity. Qed.

(** X10. In every state of the engine each stored transaction has a
    timestamp object, so [getRecentTransactions] filters none out; when all
    their time values are numbers (no invalid date),
    [getRecentTransactions(count)] returns the front of a ranking of all
    stored transactions by descending time. *)
Theorem getRecentTransactions_ranking (Date_parse : string -> Num.number)
    (w : World) (count : Z) :
  reachable Date_parse w ->
  Forall (fun t => is_finite (ChainDataManager.timestamp_time t))
         (JsMap.values (Fields.transactions (manager w))) ->
  exists rest,
    Permutation (ChainDataManager.getRecentTransactions (manager w) count ++ rest)
                (JsMap.values (Fields.transactions (manager w))) /\
    StronglySorted
      (fun a b => at_least (ChainDataManager.timestamp_time a)
                           (ChainDataManager.timestamp_time b))
      (ChainDataManager.getRecentTransactions (manager w) count ++ rest).
Proof.
  intros Hw Hfin. unfold ChainDataManager.getRecentTransactions.
  assert (Hall : filter (fun tx => match ProcessedTransactionData.timestamp tx with
                                   | Some _ => true
                                   | None => false
                                   end)
                        (JsMap.values (Fields.transactions (manager w)))
                 = JsMap.values (Fields.transactions (manager w))).
  { destruct (reachable_keyed _ _ Hw) as (_ & _ & Hs).
    unfold JsMap.values. revert Hs.
    generalize (Fields.transactions (manager w)). intros l Hs.
    induction Hs as [|[k v] r Hv _ IH]; simpl; [reflexivity|].
    simpl in Hv. destruct (ProcessedTransactionData.timestamp v); [|congruence].
    now rewrite IH. }
  rewrite Hall.
  set (sorted := Array.sort _ _).
  exists (beyond sorted count).
  rewrite slice_beyond. subst sorted. split.
  - apply sort_Permutation.
  - apply (sort_sorted ChainDataManager.timestamp_time), Hfin.
Qed.


Lemma reachable_sample_with_transactions :
  reachable Sample.Date_parse sample_with_transactions.
Proof.
  apply deliver_transactions_reachable, reachable_after_three_blocks.
Qed.

Lemma getPendingTransactions_exact_witness :
  (forall r,
      In r (ChainDataManager.getPendingTransactions (manager sample_with_transactions)) <->
      ChainDataManager.getTransactionByHash (manager sample_with_transactions)
        (ProcessedTransactionData.hash r) = Some r /\
      ProcessedTransactionData.status r = PENDING) /\
  exists metrics,
    ChainDataManager.getMetrics (manager sample_with_transactions) = Normal metrics /\
    Metrics.pendingTxCount metrics
      = List.length (ChainDataManager.getPendingTransactions (manager sample_with_transactions)).
Proof.
  exact (getPendingTransactions_exact Sample.Date_parse sample_with_transactions
           reachable_sample_with_transactions).
Defined.

(** Of the two transactions of the sample, one pending and one proposed, the
    pending one is returned and counted. *)
Example getPendingTransactions_of_sample :
  map ProcessedTransactionData.hash
      (ChainDataManager.getPendingTransactions (manager sample_with_transactions))
  = ["0x71"] /\
  exists metrics,
    ChainDataManager.getMetrics (manager sample_with_transactions) = Normal metrics /\
    Metrics.pendingTxCount metrics = 1%nat.
Proof.
  split; [vm_compute; reflexivity|].
  eexists. split.
  - apply getMetrics_returns, (reachable_Invariant Sample.Date_parse),
      reachable_sample_with_transactions.
  - vm_compute. reflexivity.
Qed.

Lemma sample_transaction_times_finite :
  Forall (fun t => is_finite (ChainDataManager.timestamp_time t))
         (JsMap.values (Fields.transactions (manager sample_with_transactions))).
Proof. vm_compute. repeat constructor. Qed.

Lemma getRecentTransactions_ranking_witness :
  exists rest,
    Permutation (ChainDataManager.getRecentTransactions (manager sample_with_transactions) 20
                 ++ rest)
                (JsMap.values (Fields.transactions (manager sample_with_transactions))) /\
    StronglySorted
      (fun a b => at_least (ChainDataManager.timestamp_time a)
                           (ChainDataManager.timestamp_time b))
      (ChainDataManager.getRecentTransactions (manager sample_with_transactions) 20 ++ rest).
Proof.
  exact (getRecentTransactions_ranking Sample.Date_parse sample_with_transactions 20
           reachable_sample_with_transactions sample_transaction_times_finite).
Defined.

(** ** X11 - X13: what the handlers publish *)

Lemma call_each_quiet (ls : list Listener) (p : Payload) (w : World) :
  forallb (fun l => match callback l with
                    | Consumer throws => negb (throws p)
                    | _ => true
                    end) ls = true ->
  EventBus.call_each EventBus.call_consumer ls p w = (Normal tt, w).
Proof.
  induction ls as [|l r IH]; simpl; [reflexivity|].
  intros H. apply andb_true_iff in H as [Hl Hr].
  unfold bind. destruct (callback l) as [| | |throws]; simpl; try (now apply IH).
  apply negb_true_iff in Hl. rewrite Hl. simpl. now apply IH.
Qed.

Lemma call_each_throws (ls : list Listener) (p : Payload) (w : World) :
  (exists l throws, In l ls /\ callback l = Consumer throws /\ throws p = true) ->
  EventBus.call_each EventBus.call_consumer ls p w = (Throw ListenerError, w).
Proof.
  induction ls as [|l r IH]; intros (l0 & throws & Hin & Hcb & Ht); [destruct Hin|].
  simpl. unfold bind.
  destruct (callback l) as [| | |throws'] eqn:E; simpl.
  1-3: (apply IH; destruct Hin as [->|Hin]; [congruence|now exists l0, throws]).
  destruct (throws' p) eqn:Et; [reflexivity|]. simpl.
  apply IH. destruct Hin as [->|Hin]; [|now exists l0, throws].
  rewrite E in Hcb. injection Hcb as ->. congruence.
Qed.

Lemma emit_quiet (event : string) (p : Payload) (w : World) :
  quiet event p w = true ->
  ChainDataManager.emit event p w = (Normal tt, published event p w).
Proof.
  intros H. unfold ChainDataManager.emit, EventBus.emit_with.
  now apply call_each_quiet.
Qed.

Lemma emit_throws (event : string) (p : Payload) (w : World) :
  some_subscriber_throws event p w ->
  ChainDataManager.emit event p w = (Throw ListenerError, published event p w).
Proof.
  intros (f & throws & Hin & Ht). unfold ChainDataManager.emit, EventBus.emit_with.
  apply call_each_throws.
  exists {| fn := f; callback := Consumer throws |}, throws. repeat split; [|exact Ht].
  unfold EventBus.listeners_of. cbn [listeners with_emitted].
  apply in_map_iff. exists (event, {| fn := f; callback := Consumer throws |}).
  split; [reflexivity|]. apply filter_In. split; [exact Hin|apply String.eqb_refl].
Qed.

(** X11. When [processBlock] accepts a block and a subscriber of
    processed-block-data throws, [handleNewBlock] still returns normally and
    the block stays stored and counted in the windows; but
    chain-metrics-updated is not published for it (processed-block-data is
    the only emission), and the failure is logged as a block error. *)
Theorem failing_subscriber_suppresses_metrics (Date_parse : string -> Num.number)
    (w : World) (block : Block.t) (pb : ProcessedBlockData.t) :
  ChainDataManager.processBlock Date_parse block = Normal pb ->
  some_subscriber_throws "processed-block-data" (OfProcessedBlock pb) w ->
  let w' := exec (ChainDataManager.handleNewBlock Date_parse block) w in
  completion (ChainDataManager.handleNewBlock Date_parse block) w = Normal tt /\
  manager w' = ingest (Block.blockHash block) pb (manager w) /\
  emitted w' = (emitted w ++ [("processed-block-data", OfProcessedBlock pb)])%list /\
  console w' =
    (console w ++
     [(LOG, [Text "Processing new block:"; Text (Block.blockHash block);
             Text "with data:"; ABlock block]);
      (ERROR, [Text "Error processing block:"; Text (Block.blockHash block);
               AError ListenerError]);
      (ERROR, [Text "Block data:"; ABlock block])])%list.
Proof.
  intros Hpb Hthrows. cbv zeta.
  split; [apply handleNewBlock_completes|].
  split; [now rewrite handleNewBlock_manager, Hpb|].
  unfold_handler. rewrite Hpb.
  match goal with
  | |- context [ChainDataManager.emit ?ev ?p ?w0] =>
      rewrite (emit_throws ev p w0)
        by (destruct Hthrows as (f & th & Hin & Ht); exists f, th; split; [exact Hin|exact Ht])
  end.
  cbn [fst snd emitted console published with_emitted with_console with_manager].
  rewrite <- !app_assoc. split; reflexivity.
Qed.

Lemma failing_subscriber_suppresses_metrics_witness :
  let w := sample_with_failing_subscriber in
  let block := Sample.block1 in
  let pb := {| ProcessedBlockData.hash := "0xb1";
               ProcessedBlockData.number := Num.of_Z 101;
               ProcessedBlockData.timestamp := {| Date.getTime := Num.of_Z 0 |};
               ProcessedBlockData.transactionCount := Num.of_Z 3;
               ProcessedBlockData.totalValue := 123456789012345678;
               ProcessedBlockData.size := Num.zero;
               ProcessedBlockData.miner := Block.miner Sample.block1;
               ProcessedBlockData.difficulty := Num.zero |} in
  let w' := exec (ChainDataManager.handleNewBlock Sample.Date_parse block) w in
  completion (ChainDataManager.handleNewBlock Sample.Date_parse block) w = Normal tt /\
  manager w' = ingest (Block.blockHash block) pb (manager w) /\
  emitted w' = (emitted w ++ [("processed-block-data", OfProcessedBlock pb)])%list /\
  console w' =
    (console w ++
     [(LOG, [Text "Processing new block:"; Text (Block.blockHash block);
             Text "with data:"; ABlock block]);
      (ERROR, [Text "Error processing block:"; Text (Block.blockHash block);
               AError ListenerError]);
      (ERROR, [Text "Block data:"; ABlock block])])%list.
Proof.
  apply (failing_subscriber_suppresses_metrics Sample.Date_parse
           sample_with_failing_subscriber Sample.block1 _ eq_refl).
  exists 5%nat, (fun _ => true). split; [|reflexivity].
  vm_compute. do 5 right. now left.
Defined.

(** X12. When [processBlock] accepts a block and no subscriber throws,
    [handleNewBlock] publishes exactly two events, in this order:
    processed-block-data with the stored record, then chain-metrics-updated
    with the metrics of the fields as they are after the block was stored
    and counted. *)
Theorem accepted_block_publications (Date_parse : string -> Num.number)
    (w : World) (block : Block.t) (pb : ProcessedBlockData.t) :
  reachable Date_parse w ->
  ChainDataManager.processBlock Date_parse block = Normal pb ->
  (forall p, quiet "processed-block-data" p w = true) ->
  (forall p, quiet "chain-metrics-updated" p w = true) ->
  let w' := exec (ChainDataManager.handleNewBlock Date_parse block) w in
  exists metrics,
    ChainDataManager.getMetrics (manager w') = Normal metrics /\
    emitted w' =
      (emitted w ++ [("processed-block-data", OfProcessedBlock pb);
                     ("chain-metrics-updated", OfMetrics metrics)])%list.
Proof.
  intros Hw Hpb Hq1 Hq2. cbv zeta.
  assert (Hinv : Invariant (ingest (Block.blockHash block) pb (manager w)))
    by (apply (Invariant_ingest Date_parse); [exact Hpb|apply (reachable_Invariant _ _ Hw)]).
  pose proof (getMetrics_returns _ Hinv) as Hm.
  rewrite handleNewBlock_manager, Hpb.
  eexists. split; [exact Hm|].
  unfold_handler. rewrite Hpb.
  match goal with
  | |- context [ChainDataManager.emit "processed-block-data" ?p ?w0] =>
      rewrite (emit_quiet "processed-block-data" p w0) by (apply (Hq1 p))
  end.
  cbn [manager published with_emitted with_manager with_console].
  change (Fields.with_transactionCounts _ (Fields.with_blockTimestamps _ (Fields.with_blocks _ (manager w))))
    with (ingest (Block.blockHash block) pb (manager w)).
  rewrite Hm.
  match goal with
  | |- context [ChainDataManager.emit "chain-metrics-updated" ?p ?w0] =>
      rewrite (emit_quiet "chain-metrics-updated" p w0) by (apply (Hq2 p))
  end.
  cbn [fst snd emitted published with_emitted with_manager with_console].
  rewrite <- app_assoc. reflexivity.
Qed.


Lemma handleMessage_listeners (Date_parse : string -> Num.number)
    (data : WebSocketMessage.t) (w : World) :
  listeners (exec (CKBChainVizService.handleMessage Date_parse data) w) = listeners w.
Proof.
  unfold CKBChainVizService.handleMessage, exec, bind, try_catch, console_write.
  set (w0 := with_console _ w).
  change (listeners w) with (listeners w0). clearbody w0.
  repeat match goal with
  | |- context [if ?b then _ else _] => destruct b
  end;
  try match goal with
  | |- context [ChainDataManager.EventBus_emit Date_parse ?ev ?p w0] =>
      destruct (EventBus_emit_trace Date_parse ev p w0) as (Hl & _);
      unfold exec in Hl;
      destruct (ChainDataManager.EventBus_emit Date_parse ev p w0) as [[[]|e] w1];
      exact Hl
  end.
  reflexivity.
Qed.


Lemma accepted_block_publications_witness :
  let w := Sample.after_three_blocks in
  let w' := exec (ChainDataManager.handleNewBlock Sample.Date_parse Sample.block2) w in
  exists metrics,
    ChainDataManager.getMetrics (manager w') = Normal metrics /\
    emitted w' =
      (emitted w ++
       [("processed-block-data",
         OfProcessedBlock
           {| ProcessedBlockData.hash := "0xb2";
              ProcessedBlockData.number := Num.of_Z 102;
              ProcessedBlockData.timestamp := {| Date.getTime := Num.of_Z 10000 |};
              ProcessedBlockData.transactionCount := Num.of_Z 5;
              ProcessedBlockData.totalValue := 111313151041;
              ProcessedBlockData.size := Num.zero;
              ProcessedBlockData.miner := Block.miner Sample.block2;
              ProcessedBlockData.difficulty := Num.zero |});
        ("chain-metrics-updated", OfMetrics metrics)])%list.
Proof.
  exact (accepted_block_publications Sample.Date_parse Sample.after_three_blocks
           Sample.block2 _ reachable_after_three_blocks eq_refl
           (fun _ => eq_refl) (fun _ => eq_refl)).
Defined.

(** X13. [handleTransactionUpdate] never throws and publishes exactly one
    event, processed-transaction-data, carrying the very record it has
    stored under the transaction's hash - also when a subscriber throws. *)
Theorem update_publishes_stored_record (Date_parse : string -> Num.number)
    (w : World) (t : EnhancedTransaction.t) :
  let w' := exec (ChainDataManager.handleTransactionUpdate Date_parse t) w in
  exists record,
    completion (ChainDataManager.handleTransactionUpdate Date_parse t) w = Normal tt /\
    ChainDataManager.getTransactionByHash (manager w') (EnhancedTransaction.txHash t)
      = Some record /\
    ProcessedTransactionData.status record = EnhancedTransaction.status t /\
    emitted w' =
      (emitted w ++ [("processed-transaction-data", OfProcessedTransaction record)])%list.
Proof.
  cbv zeta. eexists.
  split; [apply handleTransactionUpdate_completes|].
  split; [rewrite handleTransactionUpdate_manager; apply get_set_same|].
  split; [reflexivity|].
  unfold_handler. run_emit; reflexivity.
Qed.

(** ** X14: from the wire to the manager *)

Lemma manager_subscribed_listeners (w : World) :
  manager_subscribed w ->
  exists f1 f2 f3 f4 f5,
    listeners w =
    [("block-finalized", {| fn := f1; callback := HandleNewBlock |});
     ("transaction-pending", {| fn := f2; callback := HandleTransactionUpdate |});
     ("transaction-proposed", {| fn := f3; callback := HandleTransactionUpdate |});
     ("transaction-confirmed", {| fn := f4; callback := HandleTransactionUpdate |});
     ("transaction-rejected", {| fn := f5; callback := HandleTransactionRejected |})].
Proof.
  unfold manager_subscribed. intros H.
  destruct (listeners w) as [|[e1 [f1 c1]] [|[e2 [f2 c2]] [|[e3 [f3 c3]] [|[e4 [f4 c4]]
    [|[e5 [f5 c5]] [|? ?]]]]]]; try discriminate.
  simpl in H. injection H as -> -> -> -> -> -> -> -> -> ->.
  now exists f1, f2, f3, f4, f5.
Qed.

(** X14. On a bus that holds the five listeners of a manager and nothing
    else, [handleMessage] leaves the manager's fields exactly as the handler
    of the message's type would when called directly: [handleNewBlock] for
    block.finalized, [handleTransactionUpdate] with the status of the type
    for transaction.pending, .proposed and .confirmed,
    [handleTransactionRejected] for transaction.rejected, and nothing for
    any other type; the listeners stay as they were. *)
Theorem message_reaches_manager (Date_parse : string -> Num.number)
    (w : World) (data : WebSocketMessage.t) (handler : M unit) :
  manager_subscribed w ->
  delivered Date_parse data = Some handler ->
  let w' := exec (CKBChainVizService.handleMessage Date_parse data) w in
  manager w' = manager (exec handler w) /\ manager_subscribed w'.
Proof.
  intros Hsub Hd. cbv zeta.
  pose proof (handleMessage_listeners Date_parse data w) as Hl.
  split; [|unfold manager_subscribed; rewrite Hl; exact Hsub].
  destruct (manager_subscribed_listeners w Hsub) as (f1 & f2 & f3 & f4 & f5 & Hls).
  unfold delivered in Hd. rewrite normalized_cases in Hd.
  unfold CKBChainVizService.handleMessage, exec, bind, try_catch, console_write.
  set (w0 := with_console _ w).
  assert (Hls0 : listeners w0 = listeners w) by reflexivity.
  assert (Hm0 : manager w0 = manager w) by reflexivity.
  rewrite Hls in Hls0. clearbody w0.
  destruct data as [channel type payload].
  cbn [WebSocketMessage.type WebSocketMessage.payload WebSocketMessage.channel] in *.
  repeat match goal with
  | H : context [String.eqb type ?s] |- _ => destruct (String.eqb type s)
  end;
  destruct payload as [block|t]; try discriminate; injection Hd as <-;
  unfold ChainDataManager.EventBus_emit, EventBus.emit_with;
  try rewrite Hls0;
  cbn [EventBus.listeners_of filter map fst snd String.eqb Ascii.eqb Bool.eqb
       EventBus.call_each callback ChainDataManager.call bind ret];
  try (cbn [fst snd]; exact Hm0);
  unfold bind, ret, deliver_transaction, event_payload;
    cbn [event_status event_transaction];
    match goal with
    | Hm : manager ?w' = manager w |- context [with_emitted ?l ?w'] =>
        set (w1 := with_emitted l w');
        assert (Hm1 : manager w1 = manager w) by exact Hm;
        clearbody w1
    end;
  match goal with
  | |- context [ChainDataManager.handleNewBlock Date_parse ?b ?w1] =>
      pose proof (handleNewBlock_manager Date_parse b w1) as H1;
      pose proof (handleNewBlock_completes Date_parse b w1) as H2;
      change (manager (snd (ChainDataManager.handleNewBlock Date_parse b w)))
        with (manager (exec (ChainDataManager.handleNewBlock Date_parse b) w));
      rewrite (handleNewBlock_manager Date_parse b w), <- Hm1, <- H1;
      unfold exec, completion in H2 |- *;
      destruct (ChainDataManager.handleNewBlock Date_parse b w1) as [[[]|e] w2];
      cbn [fst snd] in *; try discriminate; reflexivity
  | |- context [ChainDataManager.handleTransactionUpdate Date_parse ?b ?w1] =>
      pose proof (handleTransactionUpdate_manager Date_parse b w1) as H1;
      pose proof (handleTransactionUpdate_completes Date_parse b w1) as H2;
      change (manager (snd (ChainDataManager.handleTransactionUpdate Date_parse b w)))
        with (manager (exec (ChainDataManager.handleTransactionUpdate Date_parse b) w));
      rewrite (handleTransactionUpdate_manager Date_parse b w), <- Hm1, <- H1;
      unfold exec, completion in H2 |- *;
      destruct (ChainDataManager.handleTransactionUpdate Date_parse b w1) as [[[]|e] w2];
      cbn [fst snd] in *; try discriminate; reflexivity
  | |- context [ChainDataManager.handleTransactionRejected ?b ?w1] =>
      destruct (handleTransactionRejected_world b w1) as (H1 & _);
      destruct (handleTransactionRejected_world b w) as (H3 & _);
      unfold exec in H1, H3 |- *; rewrite H3, <- Hm1, <- H1;
      destruct (ChainDataManager.handleTransactionRejected b w1) as [[[]|e] w2];
      cbn [fst snd manager with_console] in *; reflexivity
  end.
Qed.

Lemma message_reaches_manager_witness :
  let data :=
    {| WebSocketMessage.channel := "chain";
       WebSocketMessage.type := "block.finalized";
       WebSocketMessage.payload := WebSocketMessage.OfBlock Sample.block1 |} in
  manager (exec (CKBChainVizService.handleMessage Sample.Date_parse data) Sample.fresh) =
    manager (exec (ChainDataManager.handleNewBlock Sample.Date_parse Sample.block1)
                  Sample.fresh) /\
  manager_subscribed
    (exec (CKBChainVizService.handleMessage Sample.Date_parse data) Sample.fresh).
Proof.
  exact (message_reaches_manager Sample.Date_parse Sample.fresh
           {| WebSocketMessage.channel := "chain";
              WebSocketMessage.type := "block.finalized";
              WebSocketMessage.payload := WebSocketMessage.OfBlock Sample.block1 |}
           (ChainDataManager.handleNewBlock Sample.Date_parse Sample.block1)
           eq_refl eq_refl).
Defined.

(** ** X15: teardown, in every world *)

Lemma fresh_functions_constructor (w : World) :
  fresh_functions w -> fresh_functions (exec ChainDataManager.constructor w).
Proof.
  unfold fresh_functions. intros H. cbn.
  rewrite <- !app_assoc. cbn [app].
  apply Forall_app. split.
  - eapply Forall_impl; [|exact H]. cbn. intros e He. lia.
  - repeat constructor; cbn; lia.
Qed.

(** X15. On a bus whose listeners were all created before, a manager is
    constructed and [cleanup] is called: [cleanup] returns without throwing
    and removes no listener, neither the five of the manager, which follow
    the listeners the bus held in registration order, nor any other; the
    manager's fields are untouched and nothing is published. The bus is
    again one whose listeners were all created before, so the same holds
    for every further [cleanup]. *)
Theorem cleanup_removes_no_listener (w : World) :
  fresh_functions w ->
  let n := next_function w in
  let w1 := exec ChainDataManager.constructor w in
  let w2 := exec ChainDataManager.cleanup w1 in
  completion ChainDataManager.cleanup w1 = Normal tt /\
  listeners w2 =
    (listeners w ++
     [("block-finalized", {| fn := n; callback := HandleNewBlock |});
      ("transaction-pending", {| fn := S n; callback := HandleTransactionUpdate |});
      ("transaction-proposed", {| fn := S (S n); callback := HandleTransactionUpdate |});
      ("transaction-confirmed",
       {| fn := S (S (S n)); callback := HandleTransactionUpdate |});
      ("transaction-rejected",
       {| fn := S (S (S (S n))); callback := HandleTransactionRejected |})])%list /\
  manager w2 = Fields.initial /\
  emitted w2 = emitted w /\
  fresh_functions w2.
Proof.
  intros H. cbv zeta.
  pose proof (fresh_functions_constructor w H) as H1.
  destruct (cleanup_keeps_listeners _ H1) as (Hl & Hc).
  split; [exact Hc|]. split.
  { rewrite Hl. cbn. rewrite <- !app_assoc. reflexivity. }
  split; [reflexivity|]. split; [reflexivity|].
  unfold fresh_functions in *. rewrite Hl.
  eapply Forall_impl; [|exact H1]. cbn. intros e He. lia.
Qed.

Lemma cleanup_removes_no_listener_witness :
  let w2 := exec ChainDataManager.cleanup (exec ChainDataManager.constructor empty_world) in
  completion ChainDataManager.cleanup (exec ChainDataManager.constructor empty_world)
    = Normal tt /\
  listeners w2 =
    [("block-finalized", {| fn := 0; callback := HandleNewBlock |});
     ("transaction-pending", {| fn := 1; callback := HandleTransactionUpdate |});
     ("transaction-proposed", {| fn := 2; callback := HandleTransactionUpdate |});
     ("transaction-confirmed", {| fn := 3; callback := HandleTransactionUpdate |});
     ("transaction-rejected", {| fn := 4; callback := HandleTransactionRejected |})] /\
  manager w2 = Fields.initial /\
  emitted w2 = [] /\
  fresh_functions w2.
Proof.
  exact (cleanup_removes_no_listener empty_world (Forall_nil _)).
Defined.

(* ================================================================= *)
(** * Properties of what surrounds the engine *)

(** ** Block numbers *)

Lemma radix_digit_10_None (c : ascii) :
  is_decimal_digit c = false -> radix_digit 10 c = None.
Proof.
  destruct c as [[] [] [] [] [] [] [] []]; vm_compute; congruence.
Qed.

Lemma digits_prefix_ends (acc : Z) (seen : bool) (rest : string) :
  ends_numeral rest = true -> digits_prefix 10 acc seen rest = (acc, seen).
Proof.
  destruct rest as [|c r]; [reflexivity|].
  cbn [ends_numeral digits_prefix]. intros H.
  apply andb_true_iff in H as [H _]. apply andb_true_iff in H as [H _].
  apply negb_true_iff in H. now rewrite radix_digit_10_None.
Qed.

Lemma digits_prefix_of_uint (d : Decimal.uint) (acc : Z) (seen : bool) (rest : string) :
  d <> Nil -> ends_numeral rest = true ->
  digits_prefix 10 acc seen (NilEmpty.string_of_uint d ++ rest) = (horner d acc, true).
Proof.
  intros Hd Hrest. revert acc seen Hd.
  induction d as [|d IH|d IH|d IH|d IH|d IH|d IH|d IH|d IH|d IH|d IH];
    intros acc seen Hd; [now destruct Hd|..];
    cbn [NilEmpty.string_of_uint append digits_prefix horner];
    match goal with
    | |- context [radix_digit 10 ?c] =>
        let v := eval vm_compute in (radix_digit 10 c) in
        change (radix_digit 10 c) with v; cbv iota
    end;
    (destruct d; [cbn [NilEmpty.string_of_uint append horner];
                  now apply digits_prefix_ends
                 |apply IH; discriminate..]).
Qed.

Lemma parseInt_decimal_prefix (d : Decimal.uint) (rest : string) :
  d <> Nil -> ends_numeral rest = true ->
  parseInt (NilEmpty.string_of_uint d ++ rest) = Num.of_Z (Z.of_uint d).
Proof.
  intros Hd Hrest.
  pose proof (digits_prefix_of_uint d 0 false rest Hd Hrest) as H.
  rewrite horner_zero in H.
  unfold parseInt.
  destruct d as [|d|d|d|d|d|d|d|d|d|d]; [now destruct Hd|..];
    cbn [NilEmpty.string_of_uint append trim_start] in *;
    match goal with
    | |- context [is_whitespace ?c] =>
        let v := eval vm_compute in (is_whitespace c) in
        change (is_whitespace c) with v; cbv iota
    end;
    cbn [strip_sign]; try (cbn [strip_prefix]; rewrite H; f_equal; lia).
  (* the numeral starts with 0: no x may follow *)
  destruct d; cbn [NilEmpty.string_of_uint append] in *;
    try (cbn [strip_prefix]; rewrite H; f_equal; lia).
  destruct rest as [|c r]; [cbn [strip_prefix]; rewrite H; f_equal; lia|].
  cbn [ends_numeral] in Hrest.
  apply andb_true_iff in Hrest as [Hrest HX]. apply andb_true_iff in Hrest as [_ Hx].
  apply negb_true_iff in Hx, HX.
  assert (Hsp : strip_prefix (String "0" (String c r)) = (10, String "0" (String c r))).
  { apply Ascii.eqb_neq in Hx, HX.
    destruct c as [[] [] [] [] [] [] [] []]; try reflexivity; congruence. }
  rewrite Hsp, H. f_equal; lia.
Qed.

Lemma parseInt_no_numeral (s : string) :
  starts_no_numeral s = true -> parseInt s = Num.NaN.
Proof.
  destruct s as [|c r]; [reflexivity|].
  cbn [starts_no_numeral]. intros H.
  apply andb_true_iff in H as [H Hminus]. apply andb_true_iff in H as [H Hplus].
  apply andb_true_iff in H as [Hws Hdigit].
  apply negb_true_iff in Hws, Hdigit, Hplus, Hminus.
  unfold parseInt. cbn [trim_start]. rewrite Hws.
  apply Ascii.eqb_neq in Hplus, Hminus.
  assert (Hs : strip_sign (String c r) = (1, String c r))
    by (destruct c as [[] [] [] [] [] [] [] []]; try reflexivity; congruence).
  rewrite Hs.
  assert (Hp : strip_prefix (String c r) = (10, String c r)).
  { destruct c as [[] [] [] [] [] [] [] []]; try reflexivity; discriminate. }
  rewrite Hp. cbn [digits_prefix]. now rewrite radix_digit_10_None.
Qed.

(** X16. [processBlock] reads a block number that starts with a decimal
    numeral of value at most 2^53 (the range in which a double holds every
    integer) as that value exactly, and ignores what follows the numeral. *)
Theorem processBlock_number_decimal (Date_parse : string -> Num.number)
    (block : Block.t) (d : Decimal.uint) (rest : string) (pb : ProcessedBlockData.t) :
  d <> Nil ->
  Z.of_uint d <= safe_integer_bound ->
  ends_numeral rest = true ->
  Block.blockNumber block = NilEmpty.string_of_uint d ++ rest ->
  ChainDataManager.processBlock Date_parse block = Normal pb ->
  ProcessedBlockData.number pb = Num.of_Z (Z.of_uint d).
Proof.
  intros Hd _ Hrest Hnum. unfold ChainDataManager.processBlock.
  destruct (BigInt _); [|discriminate].
  intros [= <-]. cbn [ProcessedBlockData.number].
  rewrite Hnum. now apply parseInt_decimal_prefix.
Qed.

Lemma processBlock_number_decimal_witness :
  ProcessedBlockData.number
    {| ProcessedBlockData.hash := "0xb1";
       ProcessedBlockData.number := Num.of_Z 101;
       ProcessedBlockData.timestamp := {| Date.getTime := Num.of_Z 0 |};
       ProcessedBlockData.transactionCount := Num.of_Z 3;
       ProcessedBlockData.totalValue := 123456789012345678;
       ProcessedBlockData.size := Num.zero;
       ProcessedBlockData.miner := Block.miner Sample.block1;
       ProcessedBlockData.difficulty := Num.zero |}
  = Num.of_Z (Z.of_uint (D1 (D0 (D1 Nil)))).
Proof.
  apply (processBlock_number_decimal Sample.Date_parse Sample.block1
           (D1 (D0 (D1 Nil))) "" _);
    [discriminate|vm_compute; discriminate|reflexivity|reflexivity|reflexivity].
Defined.

(** X17. A block number in which [parseInt] finds no numeral does not
    make [processBlock] fail, unlike a malformed reward: when the reward is
    accepted, the block is stored with the number [NaN]. *)
Theorem unreadable_block_number_is_stored (Date_parse : string -> Num.number)
    (w : World) (block : Block.t) (pb : ProcessedBlockData.t) :
  starts_no_numeral (Block.blockNumber block) = true ->
  ChainDataManager.processBlock Date_parse block = Normal pb ->
  ProcessedBlockData.number pb = Num.NaN /\
  ChainDataManager.getBlockByHash
    (manager (exec (ChainDataManager.handleNewBlock Date_parse block) w))
    (Block.blockHash block) = Some pb.
Proof.
  intros Hnum Hpb. split.
  - revert Hpb. unfold ChainDataManager.processBlock.
    destruct (BigInt _); [|discriminate].
    intros [= <-]. cbn [ProcessedBlockData.number]. now apply parseInt_no_numeral.
  - rewrite handleNewBlock_manager, Hpb. apply get_set_same.
Qed.

(** ** Timestamps that are not numbers *)

Lemma fold_add_NaN (xs : list Num.number) : fold_left Num.add xs Num.NaN = Num.NaN.
Proof. induction xs as [|x r IH]; [reflexivity|exact IH]. Qed.

Lemma sum_NaN (xs : list Num.number) (acc : Num.number) :
  In Num.NaN xs -> fold_left Num.add xs acc = Num.NaN.
Proof.
  revert acc. induction xs as [|x r IH]; intros acc H; [destruct H|].
  destruct H as [->|H]; simpl.
  - destruct acc; apply fold_add_NaN.
  - now apply IH.
Qed.

Lemma deltas_NaN (ts : list Num.number) :
  In Num.NaN ts -> (2 <= List.length ts)%nat -> In Num.NaN (deltas ts).
Proof.
  induction ts as [|a [|b rest] IH]; intros Hin Hlen; simpl in Hlen; try lia.
  change (deltas (a :: b :: rest)) with ((b - a)%num :: deltas (b :: rest)).
  destruct Hin as [->|[->|Hin]].
  - left. now destruct b.
  - left. reflexivity.
  - destruct rest as [|c rest']; [destruct Hin|].
    right. apply IH; [right; exact Hin|simpl; lia].
Qed.

Lemma averageBlockTime_NaN (m : Fields.t) :
  In Num.NaN (Fields.blockTimestamps m) ->
  (2 <= List.length (Fields.blockTimestamps m))%nat ->
  ChainDataManager.calculateAverageBlockTime m = Num.NaN.
Proof.
  intros Hin Hlen. rewrite calculateAverageBlockTime_mean.
  destruct (Nat.ltb_spec (List.length (Fields.blockTimestamps m)) 2) as [|_]; [lia|].
  unfold seconds_of_milliseconds, mean, sum.
  rewrite sum_NaN by now apply deltas_NaN. reflexivity.
Qed.

(** X18. A block whose timestamp [Date] cannot parse is accepted like any
    other and puts [NaN] into the timestamp window. Whenever the window
    holds a [NaN] among at least two entries, [getMetrics] reports the
    average block time and the confirmation time as [NaN] and the
    throughput as 0. *)
Theorem unparseable_timestamp_poisons_metrics (Date_parse : string -> Num.number)
    (w : World) :
  reachable Date_parse w ->
  (forall block pb,
      ChainDataManager.processBlock Date_parse block = Normal pb ->
      Date_parse (Block.timestamp block) = Num.NaN ->
      In Num.NaN
         (Fields.blockTimestamps
            (manager (exec (ChainDataManager.handleNewBlock Date_parse block) w)))) /\
  (In Num.NaN (Fields.blockTimestamps (manager w)) ->
   (2 <= List.length (Fields.blockTimestamps (manager w)))%nat ->
   ChainDataManager.getMetrics (manager w) =
   Normal {| Metrics.averageBlockTime := Num.NaN;
             Metrics.transactionThroughput := Num.zero;
             Metrics.networkHashRate := 0;
             Metrics.pendingTxCount :=
               List.length (ChainDataManager.getPendingTransactions (manager w));
             Metrics.confirmationTime := Num.NaN |}).
Proof.
  intros Hw. pose proof (reachable_Invariant _ _ Hw) as Hinv. split.
  - intros block pb Hpb Hnan.
    rewrite handleNewBlock_manager, Hpb.
    apply processBlock_Normal in Hpb as (_ & _ & Htime & _).
    unfold ingest. cbn [Fields.blockTimestamps].
    rewrite Htime, Hnan, push_bounded_last_n by apply Hinv.
    unfold last_n. rewrite length_app. cbn [List.length].
    set (k := (List.length (Fields.blockTimestamps (manager w)) + 1 - 100)%nat).
    assert (Hk : (k <= List.length (Fields.blockTimestamps (manager w)))%nat) by lia.
    rewrite skipn_app.
    apply in_or_app. right.
    replace (k - List.length (Fields.blockTimestamps (manager w)))%nat with O by lia.
    now left.
  - intros Hin Hlen.
    rewrite getMetrics_returns by exact Hinv.
    pose proof (averageBlockTime_NaN _ Hin Hlen) as Havg.
    unfold ChainDataManager.calculateAverageConfirmationTime.
    rewrite calculateTransactionThroughput_last_10. cbv zeta.
    rewrite Havg.
    destruct (List.length (Fields.transactionCounts (manager w)) =? 0)%nat; reflexivity.
Qed.

(** ** The average block time, from the ends of the window *)

Lemma fold_deltas (rest : list Num.number) (a acc : Qc) :
  Forall is_finite rest ->
  exists l : Qc,
    last (Num.Fin a :: rest) Num.zero = Num.Fin l /\
    fold_left Num.add (deltas (Num.Fin a :: rest)) (Num.Fin acc)
      = Num.Fin (acc + (l - a))%Qc.
Proof.
  revert a acc. induction rest as [|b r IH]; intros a acc Hfin.
  - exists a. split; [reflexivity|]. simpl. f_equal. ring.
  - inversion Hfin as [|? ? Hb Hr]; subst.
    destruct b as [|bq]; [destruct Hb|].
    destruct (IH bq (acc + (bq - a))%Qc Hr) as (l & Hlast & Hfold).
    exists l. split; [exact Hlast|].
    change (deltas (Num.Fin a :: Num.Fin bq :: r))
      with ((Num.Fin bq - Num.Fin a)%num :: deltas (Num.Fin bq :: r)).
    cbn [fold_left Num.add Num.sub]. rewrite Hfold. f_equal. ring.
Qed.

Lemma averageBlockTime_ends (m : Fields.t) :
  Forall is_finite (Fields.blockTimestamps m) ->
  (2 <= List.length (Fields.blockTimestamps m))%nat ->
  ChainDataManager.calculateAverageBlockTime m =
  seconds_of_milliseconds
    ((last (Fields.blockTimestamps m) Num.zero - hd Num.zero (Fields.blockTimestamps m))
     / Num.of_nat (List.length (Fields.blockTimestamps m) - 1))%num.
Proof.
  intros Hfin Hlen. rewrite calculateAverageBlockTime_mean.
  destruct (Nat.ltb_spec (List.length (Fields.blockTimestamps m)) 2) as [|_]; [lia|].
  f_equal. unfold mean, sum. rewrite length_deltas.
  destruct (Fields.blockTimestamps m) as [|a rest]; [simpl in Hlen; lia|].
  inversion Hfin as [|? ? Ha Hrest]; subst.
  destruct a as [|aq]; [destruct Ha|].
  destruct (fold_deltas rest aq 0%Qc Hrest) as (l & Hlast & Hfold).
  unfold Num.zero, Num.of_Z in *.
  change (Q2Qc (inject_Z 0)) with 0%Qc in *.
  rewrite Hfold, Hlast. cbn [hd Num.sub]. do 2 f_equal. ring.
Qed.

Lemma safe_time_finite (t : Num.number) : safe_time t -> is_finite t.
Proof. intros (z & -> & _). exact I. Qed.

Lemma sub_of_Z (a b : Z) : (Num.of_Z a - Num.of_Z b)%num = Num.of_Z (a - b).
Proof.
  unfold Num.sub, Num.of_Z. f_equal. unfold Qcminus, Qcplus, Qcopp.
  apply Q2Qc_eq_iff. cbn [this Q2Qc]. rewrite !Qred_correct.
  unfold Z.sub. rewrite inject_Z_plus, inject_Z_opp. reflexivity.
Qed.

Lemma last_In {A : Type} (l : list A) (d : A) : l <> [] -> In (last l d) l.
Proof.
  induction l as [|a [|b r] IH]; intros H; [now destruct H|now left|].
  right. apply IH. discriminate.
Qed.

(** X19. When all timestamps of the window are integers of magnitude at
    most 2^52 (the time values up to the year 140000 are), the span from
    the oldest to the newest entry is an integer a double holds exactly, and
    the average block time only depends on the two ends of the window: it
    is that span divided by the number of intervals, in seconds, the
    quotients taken as the code takes them. *)
Theorem averageBlockTime_first_to_last (m : Fields.t) :
  let ts := Fields.blockTimestamps m in
  Forall safe_time ts ->
  (2 <= List.length ts)%nat ->
  exists span : Z,
    (last ts Num.zero - hd Num.zero ts)%num = Num.of_Z span /\
    Z.abs span <= safe_integer_bound /\
    ChainDataManager.calculateAverageBlockTime m =
    seconds_of_milliseconds (Num.of_Z span / Num.of_nat (List.length ts - 1))%num.
Proof.
  cbv zeta. intros Hsafe Hlen.
  assert (Hfin : Forall is_finite (Fields.blockTimestamps m))
    by (eapply Forall_impl; [apply safe_time_finite|exact Hsafe]).
  pose proof (averageBlockTime_ends m Hfin Hlen) as Havg.
  assert (Hne : Fields.blockTimestamps m <> [])
    by (destruct (Fields.blockTimestamps m); [simpl in Hlen; lia|discriminate]).
  rewrite Forall_forall in Hsafe.
  destruct (Hsafe _ (last_In _ Num.zero Hne)) as (zl & Hl & Hbl).
  assert (Hhd : In (hd Num.zero (Fields.blockTimestamps m)) (Fields.blockTimestamps m))
    by (destruct (Fields.blockTimestamps m); [now destruct Hne|now left]).
  destruct (Hsafe _ Hhd) as (zf & Hf & Hbf).
  exists (zl - zf).
  rewrite Hl, Hf, sub_of_Z in *.
  split; [reflexivity|]. split; [unfold safe_integer_bound; lia|exact Havg].
Qed.

Lemma unreadable_block_number_is_stored_witness :
  let pb := {| ProcessedBlockData.hash := "0xb6";
               ProcessedBlockData.number := Num.NaN;
               ProcessedBlockData.timestamp := {| Date.getTime := Num.of_Z 25000 |};
               ProcessedBlockData.transactionCount := Num.of_Z 2;
               ProcessedBlockData.totalValue := 7;
               ProcessedBlockData.size := Num.zero;
               ProcessedBlockData.miner := Block.miner sample_unnumbered;
               ProcessedBlockData.difficulty := Num.zero |} in
  ProcessedBlockData.number pb = Num.NaN /\
  ChainDataManager.getBlockByHash
    (manager (exec (ChainDataManager.handleNewBlock Sample.Date_parse sample_unnumbered)
                   Sample.after_three_blocks))
    "0xb6" = Some pb.
Proof.
  exact (unreadable_block_number_is_stored Sample.Date_parse Sample.after_three_blocks
           sample_unnumbered _ eq_refl eq_refl).
Defined.

Lemma reachable_after_undated :
  reachable Sample.Date_parse
    (exec (ChainDataManager.handleNewBlock Sample.Date_parse sample_undated)
          Sample.after_three_blocks).
Proof. apply reachable_step; [apply reachable_after_three_blocks|apply step_block]. Qed.

Lemma undated_in_window :
  In Num.NaN
     (Fields.blockTimestamps
        (manager (exec (ChainDataManager.handleNewBlock Sample.Date_parse sample_undated)
                       Sample.after_three_blocks))).
Proof. vm_compute. do 3 right. now left. Qed.

Lemma unparseable_timestamp_poisons_metrics_witness :
  let w := exec (ChainDataManager.handleNewBlock Sample.Date_parse sample_undated)
                Sample.after_three_blocks in
  ChainDataManager.getMetrics (manager w) =
  Normal {| Metrics.averageBlockTime := Num.NaN;
            Metrics.transactionThroughput := Num.zero;
            Metrics.networkHashRate := 0;
            Metrics.pendingTxCount :=
              List.length (ChainDataManager.getPendingTransactions (manager w));
            Metrics.confirmationTime := Num.NaN |}.
Proof.
  refine (proj2 (unparseable_timestamp_poisons_metrics Sample.Date_parse _
                   reachable_after_undated) undated_in_window _).
  vm_compute. lia.
Defined.

Lemma sample_timestamps :
  Fields.blockTimestamps (manager Sample.after_three_blocks)
  = [Num.of_Z 0; Num.of_Z 10000; Num.of_Z 25000].
Proof. vm_compute. reflexivity. Qed.

Lemma sample_timestamps_safe :
  Forall safe_time (Fields.blockTimestamps (manager Sample.after_three_blocks)).
Proof.
  rewrite sample_timestamps.
  repeat (constructor; [eexists; split; [reflexivity|vm_compute; discriminate]|]).
  constructor.
Qed.

Lemma averageBlockTime_first_to_last_witness :
  let ts := Fields.blockTimestamps (manager Sample.after_three_blocks) in
  exists span : Z,
    (last ts Num.zero - hd Num.zero ts)%num = Num.of_Z span /\
    Z.abs span <= safe_integer_bound /\
    ChainDataManager.calculateAverageBlockTime (manager Sample.after_three_blocks) =
    seconds_of_milliseconds (Num.of_Z span / Num.of_nat (List.length ts - 1))%num.
Proof.
  refine (averageBlockTime_first_to_last (manager Sample.after_three_blocks)
            sample_timestamps_safe _).
  vm_compute. lia.
Defined.

(** ** The configuration *)

Lemma digits_prefix_ends_decimal (acc : Z) (seen : bool) (rest : string) :
  ends_decimal rest = true -> digits_prefix 10 acc seen rest = (acc, seen).
Proof.
  destruct rest as [|c r]; [reflexivity|].
  cbn [ends_decimal digits_prefix]. intros H.
  apply negb_true_iff in H. now rewrite radix_digit_10_None.
Qed.

Lemma digits_prefix_decimal (d : Decimal.uint) (acc : Z) (seen : bool) (rest : string) :
  d <> Nil -> ends_decimal rest = true ->
  digits_prefix 10 acc seen (NilEmpty.string_of_uint d ++ rest) = (horner d acc, true).
Proof.
  intros Hd Hrest. revert acc seen Hd.
  induction d as [|d IH|d IH|d IH|d IH|d IH|d IH|d IH|d IH|d IH|d IH];
    intros acc seen Hd; [now destruct Hd|..];
    cbn [NilEmpty.string_of_uint append digits_prefix horner];
    match goal with
    | |- context [radix_digit 10 ?c] =>
        let v := eval vm_compute in (radix_digit 10 c) in
        change (radix_digit 10 c) with v; cbv iota
    end;
    (destruct d; [cbn [NilEmpty.string_of_uint append horner];
                  now apply digits_prefix_ends_decimal
                 |apply IH; discriminate..]).
Qed.

Lemma parseInt_radix_10 (s : string) :
  parseInt_radix s 10 =
  match digits_prefix 10 0 false (snd (strip_sign (trim_start s))) with
  | (v, true) => Num.of_Z (fst (strip_sign (trim_start s)) * v)
  | (_, false) => Num.NaN
  end.
Proof.
  unfold parseInt_radix. destruct (strip_sign (trim_start s)) as [sign s1]. reflexivity.
Qed.

Lemma parseInt_radix_10_decimal (d : Decimal.uint) (rest : string) :
  d <> Nil -> ends_decimal rest = true ->
  parseInt_radix (NilEmpty.string_of_uint d ++ rest) 10 = Num.of_Z (Z.of_uint d).
Proof.
  intros Hd Hrest. rewrite parseInt_radix_10.
  pose proof (digits_prefix_decimal d 0 false rest Hd Hrest) as H.
  rewrite horner_zero in H.
  destruct d as [|d|d|d|d|d|d|d|d|d|d]; [now destruct Hd|..];
    cbn [NilEmpty.string_of_uint append trim_start] in *;
    match goal with
    | |- context [is_whitespace ?c] =>
        let v := eval vm_compute in (is_whitespace c) in
        change (is_whitespace c) with v; cbv iota
    end;
    cbn [strip_sign fst snd]; rewrite H; f_equal; lia.
Qed.

Lemma parseInt_radix_10_integer (s : string) :
  parseInt_radix s 10 = Num.NaN \/ exists z, parseInt_radix s 10 = Num.of_Z z.
Proof.
  rewrite parseInt_radix_10.
  destruct (digits_prefix 10 0 false _) as [v []]; [right; eauto|now left].
Qed.

Lemma lt_of_Z (a b : Z) : Num.lt (Num.of_Z a) (Num.of_Z b) = true <-> a < b.
Proof.
  unfold Num.lt, Num.gt, Num.of_Z. rewrite negb_true_iff.
  cbn [this Q2Qc]. split.
  - intros H. destruct (Z.lt_ge_cases a b) as [Hlt|Hge]; [exact Hlt|].
    assert (Hq : (Qred (inject_Z b) <= Qred (inject_Z a))%Q)
      by (rewrite !Qred_correct, <- Zle_Qle; lia).
    apply Qle_bool_iff in Hq. rewrite Hq in H. discriminate.
  - intros Hlt. destruct (Qle_bool _ _) eqn:E; [|reflexivity].
    apply Qle_bool_iff in E. rewrite !Qred_correct, <- Zle_Qle in E. lia.
Qed.

Lemma getEnvVar_nonempty (env : string -> option string) (key defaultValue : string) :
  defaultValue <> "" -> Config.getEnvVar env key defaultValue <> "".
Proof.
  intros Hd. unfold Config.getEnvVar.
  destruct (env key) as [value|]; [|exact Hd].
  destruct (String.eqb_spec value ""); assumption.
Qed.

(** X20. Whatever the environment holds, the configured URL is never the
    empty string: an unset or empty variable falls back to the default. So
    the module never logs its warning that the URL is not configured, and a
    service constructed with any arguments has a base URL that is not
    empty. *)
Theorem url_is_never_empty (env : string -> option string) :
  ChainVizConfig.url (Config.chainVizConfig env) <> "" /\
  ~ In Config.url_warning (Config.load env) /\
  forall baseUrl timeout w,
    exists service,
      completion (CKBChainVizService.constructor env baseUrl timeout) w = Normal service /\
      CKBChainVizService.baseUrl service <> "".
Proof.
  assert (Hurl : ChainVizConfig.url (Config.chainVizConfig env) <> "")
    by (apply getEnvVar_nonempty; discriminate).
  split; [exact Hurl|]. split.
  - unfold Config.load.
    destruct (String.eqb_spec (ChainVizConfig.url (Config.chainVizConfig env)) "")
      as [E|_]; [now destruct Hurl|].
    cbn [app]. intros [H|H]; [discriminate|].
    destruct (Num.lt _ _); [destruct H as [H|[]]; discriminate|destruct H].
  - intros baseUrl timeout w. eexists. split; [reflexivity|].
    cbn [CKBChainVizService.baseUrl].
    destruct baseUrl as [u|]; [|exact Hurl].
    destruct (String.eqb_spec u ""); assumption.
Qed.

Lemma radix_digit_nonneg (radix : Z) (c : ascii) (d : Z) :
  radix_digit radix c = Some d -> 0 <= d.
Proof.
  unfold radix_digit, digit_value.
  set (n := Z.of_nat (nat_of_ascii c)).
  destruct (Z.leb_spec 48 n), (Z.leb_spec n 57); cbn [andb];
    [destruct (_ <? radix); intros [= <-]; lia|..];
    (destruct (Z.leb_spec 97 n), (Z.leb_spec n 122); cbn [andb];
     [destruct (_ <? radix); intros [= <-]; lia|..]);
    (destruct (Z.leb_spec 65 n), (Z.leb_spec n 90); cbn [andb];
     [destruct (_ <? radix); intros [= <-]; lia|..]);
    discriminate.
Qed.

Lemma digits_prefix_nonneg (radix acc : Z) (seen : bool) (s : string) :
  0 <= radix -> 0 <= acc -> 0 <= fst (digits_prefix radix acc seen s).
Proof.
  intros Hr. revert acc seen. induction s as [|c r IH]; intros acc seen Hacc; [exact Hacc|].
  cbn [digits_prefix]. destruct (radix_digit radix c) as [d|] eqn:E; [|exact Hacc].
  apply IH. apply radix_digit_nonneg in E. nia.
Qed.

Lemma strip_sign_cases (s : string) : fst (strip_sign s) = 1 \/ fst (strip_sign s) = -1.
Proof.
  destruct s as [|c r]; [now left|].
  destruct c as [[] [] [] [] [] [] [] []]; cbn; auto.
Qed.

Lemma parseInt_radix_10_magnitude (s : string) :
  parseInt_radix s 10 = Num.NaN \/
  exists z, parseInt_radix s 10 = Num.of_Z z /\ Z.abs z = decimal_magnitude s.
Proof.
  rewrite parseInt_radix_10. unfold decimal_magnitude.
  pose proof (digits_prefix_nonneg 10 0 false (snd (strip_sign (trim_start s)))
                ltac:(lia) ltac:(lia)) as Hv.
  destruct (digits_prefix 10 0 false _) as [v []]; [|now left].
  right. eexists. split; [reflexivity|].
  cbn [fst] in *. destruct (strip_sign_cases (trim_start s)) as [-> | ->]; lia.
Qed.

(** X21. When the timeout variable is unset, or the numeral it starts with
    has a value of at most 2^53 (the range in which a double holds every
    integer), the configured timeout is [NaN] or an integer, never a
    fraction, and the module warns that the timeout is too low exactly when
    it is an integer below 1000: a timeout that is no number passes without
    a warning. *)
Theorem low_timeout_warning (env : string -> option string) :
  match env "VITE_CKB_CHAINVIZ_TIMEOUT" with
  | Some value => decimal_magnitude value <= safe_integer_bound
  | None => True
  end ->
  let timeout := ChainVizConfig.timeout (Config.chainVizConfig env) in
  (timeout = Num.NaN \/
   exists z, timeout = Num.of_Z z /\ Z.abs z <= safe_integer_bound) /\
  (In Config.timeout_warning (Config.load env) <->
   exists z, timeout = Num.of_Z z /\ z < 1000).
Proof.
  intros Hsafe. cbv zeta.
  assert (Hint : ChainVizConfig.timeout (Config.chainVizConfig env) = Num.NaN \/
                 exists z, ChainVizConfig.timeout (Config.chainVizConfig env) = Num.of_Z z /\
                           Z.abs z <= safe_integer_bound).
  { cbn [ChainVizConfig.timeout Config.chainVizConfig]. unfold Config.getEnvNumber.
    destruct (env _) as [value|];
      [|right; exists 10000; split; [reflexivity|vm_compute; discriminate]].
    destruct (String.eqb value "");
      [right; exists 10000; split; [reflexivity|vm_compute; discriminate]|].
    destruct (parseInt_radix_10_magnitude value) as [Hnan|(z & Hz & Habs)]; [now left|].
    right. exists z. split; [exact Hz|]. now rewrite Habs. }
  split; [exact Hint|].
  unfold Config.load.
  destruct (String.eqb_spec (ChainVizConfig.url (Config.chainVizConfig env)) "") as [E|_];
    [exfalso; revert E; apply getEnvVar_nonempty; discriminate|].
  cbn [app].
  destruct Hint as [Hnan|(z & Hz & _)].
  - rewrite Hnan. cbn [Num.lt Num.gt]. split.
    + intros [H|H]; [discriminate|destruct H].
    + intros (z & Hz & _). discriminate.
  - rewrite Hz. destruct (Num.lt (Num.of_Z z) (Num.of_Z 1000)) eqn:E.
    + apply lt_of_Z in E. split; [intros _; now exists z|intros _; right; now left].
    + split; [intros [H|H]; [discriminate|destruct H]|].
      intros (z' & Hz' & Hlt). rewrite Hz' in E.
      apply lt_of_Z in Hlt. rewrite Hlt in E. discriminate.
Qed.

Lemma low_timeout_warning_witness :
  let timeout := ChainVizConfig.timeout (Config.chainVizConfig sample_env) in
  (timeout = Num.NaN \/
   exists z, timeout = Num.of_Z z /\ Z.abs z <= safe_integer_bound) /\
  (In Config.timeout_warning (Config.load sample_env) <->
   exists z, timeout = Num.of_Z z /\ z < 1000).
Proof.
  apply (low_timeout_warning sample_env). vm_compute. discriminate.
Defined.

(** X22. A timeout (or any numeric variable) that starts with a decimal
    numeral of value at most 2^53 (the range in which a double holds every
    integer) is read as that number exactly; what follows the numeral, a
    unit for instance, is ignored. *)
Theorem getEnvNumber_decimal (env : string -> option string) (key : string)
    (defaultValue : Num.number) (d : Decimal.uint) (rest : string) :
  d <> Nil ->
  Z.of_uint d <= safe_integer_bound ->
  ends_decimal rest = true ->
  env key = Some (NilEmpty.string_of_uint d ++ rest) ->
  Config.getEnvNumber env key defaultValue = Num.of_Z (Z.of_uint d).
Proof.
  intros Hd _ Hrest Henv. unfold Config.getEnvNumber. rewrite Henv.
  rewrite parseInt_radix_10_decimal by assumption.
  destruct d; try reflexivity. now destruct Hd.
Qed.

Lemma getEnvNumber_decimal_witness :
  Config.getEnvNumber sample_env "VITE_CKB_CHAINVIZ_TIMEOUT" (Num.of_Z 10000)
  = Num.of_Z (Z.of_uint (D2 (D5 (D0 Nil)))).
Proof.
  apply (getEnvNumber_decimal sample_env "VITE_CKB_CHAINVIZ_TIMEOUT" (Num.of_Z 10000)
           (D2 (D5 (D0 Nil))) "ms");
    [discriminate|vm_compute; discriminate|reflexivity|reflexivity].
Defined.

(** With the timeout set to 250ms the module logs the configuration and the
    warning about the timeout. *)
Example load_sample_env :
  map Config.message (Config.load sample_env) =
  ["CKB ChainViz Configuration:";
   "CKB ChainViz timeout too low. Minimum recommended: 1000ms"].
Proof. reflexivity. Qed.

(** ** The [Game] scene *)

Lemma listeners_of_off_all (event removed : string) (ls : list (string * Listener)) :
  EventBus.listeners_of event
    (filter (fun e => negb (String.eqb (fst e) removed)) ls)
  = if String.eqb event removed then [] else EventBus.listeners_of event ls.
Proof.
  unfold EventBus.listeners_of.
  induction ls as [|[name l] r IH]; [now destruct (String.eqb _ _)|].
  simpl filter at 2. simpl fst.
  destruct (String.eqb_spec name removed) as [->|Hne]; simpl negb; cbv iota.
  - rewrite IH. destruct (String.eqb_spec event removed) as [->|Hev]; [reflexivity|].
    simpl. rewrite (proj2 (String.eqb_neq removed event)) by congruence. reflexivity.
  - simpl. destruct (String.eqb_spec name event) as [->|Hn]; simpl; rewrite IH.
    + rewrite (proj2 (String.eqb_neq event removed)) by exact Hne. reflexivity.
    + destruct (String.eqb event removed); reflexivity.
Qed.

Lemma shutdown_listeners_of (connected : bool) (teardown : M unit) (w : World)
    (event : string) :
  (connected = true ->
   completion teardown w = Normal tt /\ listeners (exec teardown w) = listeners w) ->
  completion (Game.shutdown connected teardown) w = Normal tt /\
  EventBus.listeners_of event (listeners (exec (Game.shutdown connected teardown) w))
  = if existsb (String.eqb event) silenced then []
    else EventBus.listeners_of event (listeners w).
Proof.
  intros Hteardown. unfold Game.shutdown, exec, completion, bind.
  assert (H : exists w0, (if connected then teardown else ret tt) w = (Normal tt, w0) /\
                         listeners w0 = listeners w).
  { destruct connected; [|now exists w].
    destruct (Hteardown eq_refl) as [Hc Hl]. unfold completion, exec in Hc, Hl.
    destruct (teardown w) as [c w0]. cbn [fst snd] in Hc, Hl. subst c. now exists w0. }
  destruct H as (w0 & -> & Hl).
  cbn [EventBus.off_all fst snd listeners with_listeners].
  split; [reflexivity|].
  rewrite !listeners_of_off_all, Hl.
  unfold silenced. cbn [existsb].
  repeat match goal with
  | |- context [String.eqb event ?s] => destruct (String.eqb event s)
  end; reflexivity.
Qed.

(** X23. [Game.shutdown] removes every listener of block-finalized,
    transaction-pending, transaction-proposed, transaction-confirmed and
    chainviz-disconnected, whoever registered it, and leaves the listeners
    of every other event. A manager on the same bus is silenced with it: no
    wire message of another type than transaction.rejected changes its
    fields any more, while its transaction-rejected listener stays. *)
Theorem Game_shutdown_silences_manager (Date_parse : string -> Num.number)
    (connected : bool) (teardown : M unit) (w : World) :
  (connected = true ->
   completion teardown w = Normal tt /\ listeners (exec teardown w) = listeners w) ->
  let w' := exec (Game.shutdown connected teardown) w in
  completion (Game.shutdown connected teardown) w = Normal tt /\
  (forall event,
      EventBus.listeners_of event (listeners w')
      = if existsb (String.eqb event) silenced then []
        else EventBus.listeners_of event (listeners w)) /\
  (forall data,
      WebSocketMessage.type data <> "transaction.rejected" ->
      manager (exec (CKBChainVizService.handleMessage Date_parse data) w') = manager w').
Proof.
  intros Hteardown. cbv zeta.
  split; [apply (shutdown_listeners_of connected teardown w "" Hteardown)|].
  split; [intros event; apply (shutdown_listeners_of connected teardown w event Hteardown)|].
  intros data Htype.
  set (w' := exec (Game.shutdown connected teardown) w).
  assert (Hnone : forall event, existsb (String.eqb event) silenced = true ->
                                EventBus.listeners_of event (listeners w') = []).
  { intros event He. unfold w'.
    rewrite (proj2 (shutdown_listeners_of connected teardown w event Hteardown)).
    now rewrite He. }
  clearbody w'.
  unfold CKBChainVizService.handleMessage, exec, bind, try_catch, console_write.
  set (w0 := with_console _ w').
  assert (Hl0 : listeners w0 = listeners w') by reflexivity.
  assert (Hm0 : manager w0 = manager w') by reflexivity.
  clearbody w0.
  repeat match goal with
  | |- context [if String.eqb (WebSocketMessage.type data) ?s then _ else _] =>
      destruct (String.eqb_spec (WebSocketMessage.type data) s)
  end;
  try contradiction; try exact Hm0;
  unfold ChainDataManager.EventBus_emit, EventBus.emit_with;
  rewrite Hl0, Hnone by reflexivity; exact Hm0.
Qed.

Lemma Game_shutdown_silences_manager_witness :
  let w' := exec (Game.shutdown true (ret tt)) Sample.fresh in
  completion (Game.shutdown true (ret tt)) Sample.fresh = Normal tt /\
  (forall event,
      EventBus.listeners_of event (listeners w')
      = if existsb (String.eqb event) silenced then []
        else EventBus.listeners_of event (listeners Sample.fresh)) /\
  (forall data,
      WebSocketMessage.type data <> "transaction.rejected" ->
      manager (exec (CKBChainVizService.handleMessage Sample.Date_parse data) w')
      = manager w').
Proof.
  exact (Game_shutdown_silences_manager Sample.Date_parse true (ret tt) Sample.fresh
           (fun _ => conj eq_refl eq_refl)).
Defined.

(** After [Game.shutdown] the bus of the sample holds one listener: the
    manager's handler of transaction-rejected. *)
Example Game_shutdown_leaves_rejected :
  map (fun e => (fst e, callback (snd e)))
      (listeners (exec (Game.shutdown false (ret tt)) Sample.fresh))
  = [("transaction-rejected", HandleTransactionRejected)].
Proof. reflexivity. Qed.

Lemma count_event_snoc (ev x : CounterEvent) (past : list CounterEvent) :
  count_event ev (past ++ [x]) =
  count_event ev past + (if CounterEvent_eqb ev x then 1 else 0).
Proof.
  unfold count_event. rewrite filter_app, length_app. cbn [filter].
  destruct (CounterEvent_eqb ev x); cbn [List.length]; lia.
Qed.

(** X24. After any sequence of events the counters of the [Game] scene
    are bounded by what it has heard: the pending counter lies between the
    number of pending events less the number of proposed ones and the number
    of pending events, the proposed counter between the number of proposed
    events less the number of confirmed ones and the number of proposed
    events, the confirmed counter is at most the number of confirmed
    events, and none is ever negative. A rejection lowers none of them. *)
Theorem Game_counters_bounds (past : list CounterEvent) :
  let c := counters_after past in
  let pending := count_event Pending past in
  let proposed := count_event Proposed past in
  let confirmed := count_event Confirmed past in
  Z.max 0 (pending - proposed) <= Game.pendingCount c <= pending /\
  Z.max 0 (proposed - confirmed) <= Game.proposedCount c <= proposed /\
  0 <= Game.confirmedCount c <= confirmed /\
  counters_after (past ++ [Rejected]) = c.
Proof.
  cbv zeta. split; [|split; [|split]].
  4: { unfold counters_after. now rewrite fold_left_app. }
  all: induction past as [|ev past IH] using rev_ind; [cbn; lia|];
    unfold counters_after in *; rewrite fold_left_app; cbn [fold_left];
    rewrite !count_event_snoc;
    destruct ev; cbn [counter_step CounterEvent_eqb Game.transaction_pending
                      Game.transaction_proposed Game.transaction_confirmed
                      Game.delayed_reset Game.pendingCount Game.proposedCount
                      Game.confirmedCount];
    repeat match goal with
    | |- context [0 <? ?x] => destruct (Z.ltb_spec 0 x)
    end; lia.
Qed.

(** ** The visualization scene *)

Lemma remove_shown (l : list ChainVisualizationScene.GameObject) (n : nat) :
  shown (ChainVisualizationScene.remove l n) = List.remove Nat.eq_dec n (shown l).
Proof.
  unfold shown, ChainVisualizationScene.remove.
  induction l as [|a r IH]; [reflexivity|]. cbn [filter map List.remove].
  destruct (Nat.eq_dec n (ChainVisualizationScene.id a)) as [->|Hne].
  - rewrite Nat.eqb_refl. exact IH.
  - rewrite (proj2 (Nat.eqb_neq _ _)) by congruence. cbn [negb map]. now rewrite IH.
Qed.

Lemma remove_absent (l : list ChainVisualizationScene.GameObject) (n : nat) :
  ~ In n (shown l) -> ChainVisualizationScene.remove l n = l.
Proof.
  unfold shown, ChainVisualizationScene.remove.
  induction l as [|a r IH]; [reflexivity|]. cbn [filter map In]. intros H.
  rewrite (proj2 (Nat.eqb_neq _ _)) by tauto. cbn [negb]. rewrite IH by tauto. reflexivity.
Qed.

Lemma remove_head (a : ChainVisualizationScene.GameObject)
    (l : list ChainVisualizationScene.GameObject) :
  NoDup (shown (a :: l)) ->
  ChainVisualizationScene.remove (a :: l) (ChainVisualizationScene.id a) = l.
Proof.
  intros H. inversion H as [|? ? Hnot _]; subst.
  unfold ChainVisualizationScene.remove. cbn [filter]. rewrite Nat.eqb_refl. cbn [negb].
  now apply remove_absent.
Qed.

Lemma In_remove_iff (l : list ChainVisualizationScene.GameObject) (n : nat)
    (o : ChainVisualizationScene.GameObject) :
  In o (ChainVisualizationScene.remove l n) <-> In o l /\ ChainVisualizationScene.id o <> n.
Proof.
  unfold ChainVisualizationScene.remove. rewrite filter_In, negb_true_iff, Nat.eqb_neq.
  reflexivity.
Qed.

Lemma Forall_remove (P : ChainVisualizationScene.GameObject -> Prop)
    (l : list ChainVisualizationScene.GameObject) (n : nat) :
  Forall P l -> Forall P (ChainVisualizationScene.remove l n).
Proof.
  rewrite !Forall_forall. intros H o Ho. apply H. now apply In_remove_iff in Ho.
Qed.

Lemma length_remove (l : list ChainVisualizationScene.GameObject) (n : nat) :
  (List.length (ChainVisualizationScene.remove l n) <= List.length l)%nat.
Proof. apply filter_length_le. Qed.

Lemma NoDup_remove_shown (l : list ChainVisualizationScene.GameObject) (n : nat) :
  NoDup (shown l) -> NoDup (shown (ChainVisualizationScene.remove l n)).
Proof.
  unfold shown, ChainVisualizationScene.remove.
  induction l as [|a r IH]; [intros; constructor|].
  cbn [map filter]. intros H. inversion H as [|? ? Hnot Hr]; subst.
  destruct (negb _); [|now apply IH].
  cbn [map]. constructor; [|now apply IH].
  intros Hin. apply Hnot. apply in_map_iff in Hin as (o & Ho & Hin).
  apply filter_In in Hin as [Hin _]. apply in_map_iff. now exists o.
Qed.

Lemma Forall_shown_remove (P : nat -> Prop)
    (l : list ChainVisualizationScene.GameObject) (n : nat) :
  Forall P (shown l) -> Forall P (shown (ChainVisualizationScene.remove l n)).
Proof.
  unfold shown. rewrite !Forall_forall. intros H k Hk. apply H.
  apply in_map_iff in Hk as (o & <- & Ho). apply In_remove_iff in Ho as [Ho _].
  now apply in_map.
Qed.

(** *** The row of blocks *)

Lemma pairs_ind {A : Type} (P : list A -> Prop) :
  P [] -> (forall a, P [a]) -> (forall a b l, P l -> P (a :: b :: l)) ->
  forall l, P l.
Proof.
  intros H0 H1 H2 l.
  assert (H : P l /\ forall a, P (a :: l)).
  { induction l as [|b r [IHr IHa]]; [split; [exact H0|exact H1]|].
    split; [apply IHa|]. intros a. now apply H2. }
  apply H.
Qed.

Lemma shown_reposition_from (index : nat) (l : list ChainVisualizationScene.GameObject) :
  shown (ChainVisualizationScene.reposition_from index l) = shown l.
Proof.
  revert index. induction l as [| |a b r IH] using pairs_ind; intros index;
    [reflexivity|reflexivity|].
  cbn [ChainVisualizationScene.reposition_from shown map] in *.
  now rewrite IH.
Qed.

Lemma length_reposition_from (index : nat) (l : list ChainVisualizationScene.GameObject) :
  List.length (ChainVisualizationScene.reposition_from index l) = List.length l.
Proof.
  rewrite <- (length_map ChainVisualizationScene.id), <- (length_map ChainVisualizationScene.id l).
  f_equal. apply shown_reposition_from.
Qed.

Lemma reposition_from_in_row (index : nat) (l : list ChainVisualizationScene.GameObject) :
  in_row index (ChainVisualizationScene.reposition_from index l).
Proof.
  revert index. induction l as [|a|a b r IH] using pairs_ind; intros index i o.
  - destruct i; discriminate.
  - destruct i as [|[|i]]; cbn; try discriminate.
    intros [= <-]. cbn. now rewrite Nat.add_0_r.
  - cbn [ChainVisualizationScene.reposition_from].
    destruct i as [|[|i]]; cbn [nth_error].
    + intros [= <-]. cbn. now rewrite Nat.add_0_r.
    + intros [= <-]. cbn. now rewrite Nat.add_0_r.
    + intros H. rewrite (IH (S index) i o H).
      replace (S (S i)) with (i + 1 * 2)%nat by lia.
      rewrite Nat.div_add by lia. do 2 f_equal. lia.
Qed.

(** *** References held by the sprite maps *)

Section References.
Context {V : Type}.
Implicit Types (m : JsMap.t V) (k : string) (v : V).

Lemma In_values_set m k v x :
  In x (JsMap.values (JsMap.set m k v)) -> x = v \/ In x (JsMap.values m).
Proof.
  unfold JsMap.values. induction m as [|[k' v'] r IH]; cbn [JsMap.set map In].
  - intros [<-|[]]. now left.
  - destruct (String.eqb k' k); cbn [map In]; intros [<-|H]; auto.
    destruct (IH H); auto.
Qed.

Lemma NoDup_values_set m k v :
  ~ In v (JsMap.values m) -> NoDup (JsMap.values m) ->
  NoDup (JsMap.values (JsMap.set m k v)).
Proof.
  unfold JsMap.values. induction m as [|[k' v'] r IH]; cbn [JsMap.set map In];
    intros Hv Hnd.
  - repeat constructor. intros [].
  - inversion Hnd as [|? ? Hnot Hr]; subst.
    destruct (String.eqb k' k); cbn [map]; constructor.
    + tauto.
    + exact Hr.
    + intros Hin. apply In_values_set in Hin. unfold JsMap.values in Hin. tauto.
    + apply IH; tauto.
Qed.

Lemma In_values_delete m k x :
  In x (JsMap.values (JsMap.delete m k)) -> In x (JsMap.values m).
Proof.
  unfold JsMap.values. induction m as [|[k' v'] r IH]; cbn [JsMap.delete map In]; [tauto|].
  destruct (String.eqb k' k); cbn [map In]; [tauto|]. intros [<-|H]; auto.
Qed.

Lemma NoDup_values_delete m k :
  NoDup (JsMap.values m) -> NoDup (JsMap.values (JsMap.delete m k)).
Proof.
  unfold JsMap.values. induction m as [|[k' v'] r IH]; cbn [JsMap.delete map];
    intros Hnd; [constructor|].
  inversion Hnd as [|? ? Hnot Hr]; subst.
  destruct (String.eqb k' k); [exact Hr|]. cbn [map]. constructor; [|now apply IH].
  intros Hin. apply Hnot. now apply (In_values_delete r k).
Qed.

Lemma get_In_values m k v : JsMap.get m k = Some v -> In v (JsMap.values m).
Proof.
  intros H. apply get_In in H. unfold JsMap.values. apply in_map_iff. now exists (k, v).
Qed.

Lemma get_delete_other m k k' : k <> k' -> JsMap.get (JsMap.delete m k) k' = JsMap.get m k'.
Proof.
  intros Hne. induction m as [|[k0 v0] r IH]; cbn [JsMap.delete JsMap.get]; [reflexivity|].
  destruct (String.eqb_spec k0 k) as [->|Hk].
  - now rewrite (proj2 (String.eqb_neq k k')).
  - cbn [JsMap.get]. now rewrite IH.
Qed.

(** Two keys with the same reference are one key. *)
Lemma get_injective m k k' v :
  NoDup (JsMap.values m) -> JsMap.get m k = Some v -> JsMap.get m k' = Some v -> k = k'.
Proof.
  unfold JsMap.values. induction m as [|[k0 v0] r IH]; cbn [JsMap.get map]; [discriminate|].
  intros Hnd. inversion Hnd as [|? ? Hnot Hr]; subst.
  destruct (String.eqb_spec k0 k) as [E|Hk], (String.eqb_spec k0 k') as [E'|Hk'].
  - congruence.
  - intros [= ->] H. destruct Hnot. now apply (get_In_values r k').
  - intros H [= ->]. destruct Hnot. now apply (get_In_values r k).
  - now apply IH.
Qed.
End References.

(** *** The fields of the scene in every state *)

Lemma known_fresh (next : nat) (l : list nat) :
  Forall (fun n => (n < next)%nat) l -> ~ In next l.
Proof. rewrite Forall_forall. intros H Hin. apply H in Hin. lia. Qed.

Lemma known_weaken (next : nat) (l : list nat) :
  Forall (fun n => (n < next)%nat) l -> Forall (fun n => (n < S next)%nat) l.
Proof. apply Forall_impl. intros; lia. Qed.

Lemma SceneInvariant_create : SceneInvariant ChainVisualizationScene.create.
Proof.
  constructor; cbn; try constructor; try lia.
  - now exists O.
  - intros i o H. destruct i; discriminate.
Qed.

Lemma SceneInvariant_shutdown (s : ChainVisualizationScene.t) :
  SceneInvariant s -> SceneInvariant (ChainVisualizationScene.shutdown s).
Proof. intros []. constructor; assumption. Qed.

Lemma SceneInvariant_removeTransaction (txHash : string) (s : ChainVisualizationScene.t) :
  SceneInvariant s -> SceneInvariant (ChainVisualizationScene.removeTransaction txHash s).
Proof.
  intros H. unfold ChainVisualizationScene.removeTransaction.
  destruct (JsMap.get _ txHash) as [sprite|]; [|exact H].
  destruct H. constructor; cbn; try assumption.
  - now apply Forall_shown_remove.
  - rewrite Forall_forall in *. intros n Hn. apply transaction_references_known0.
    now apply In_values_delete in Hn.
  - now apply NoDup_remove_shown.
  - now apply NoDup_keys_delete.
  - now apply NoDup_values_delete.
  - eapply Nat.le_trans; [apply length_remove|assumption].
  - now apply Forall_remove.
Qed.

(** The transaction container after [handleNewTransaction] on a ready scene. *)
Lemma handleNewTransaction_container (txData : ProcessedTransactionData.t)
    (s : ChainVisualizationScene.t) :
  SceneInvariant s ->
  ChainVisualizationScene.isSceneReady s = true ->
  let n := List.length (ChainVisualizationScene.transactionContainer s) in
  exists color,
    ChainVisualizationScene.transactionContainer
      (ChainVisualizationScene.handleNewTransaction txData s)
    = ((if (n <? 150)%nat then ChainVisualizationScene.transactionContainer s
        else tl (ChainVisualizationScene.transactionContainer s))
       ++ [{| ChainVisualizationScene.id := ChainVisualizationScene.next_object s;
              ChainVisualizationScene.x := Num.of_nat ((n mod 15) * 35);
              ChainVisualizationScene.y := Num.of_nat ((n / 15) * 35);
              ChainVisualizationScene.fillColor := color |}])%list.
Proof.
  intros Hinv Hready. cbv zeta.
  unfold ChainVisualizationScene.handleNewTransaction. rewrite Hready. cbn [negb].
  cbn [ChainVisualizationScene.transactionContainer].
  eexists. rewrite length_app. cbn [List.length].
  pose proof (transactions_bounded s Hinv) as Hb.
  pose proof (transaction_objects_distinct s Hinv) as Hnd.
  pose proof (known_fresh _ _ (transaction_objects_known s Hinv)) as Hfresh.
  destruct (Nat.ltb_spec (List.length (ChainVisualizationScene.transactionContainer s)) 150)
    as [Hlt|Hge].
  - rewrite (proj2 (Nat.ltb_ge _ _)) by lia. reflexivity.
  - rewrite (proj2 (Nat.ltb_lt _ _)) by lia.
    destruct (ChainVisualizationScene.transactionContainer s) as [|a r];
      [cbn in Hge; lia|].
    cbn [app tl]. apply remove_head.
    change (a :: r ++ ?l)%list with ((a :: r) ++ l)%list.
    unfold shown in *. rewrite map_app. cbn [map ChainVisualizationScene.id].
    apply NoDup_app; [exact Hnd|repeat constructor; intros []|].
    intros k Hk [<-|[]]. now apply Hfresh.
Qed.

Lemma SceneInvariant_handleNewTransaction (txData : ProcessedTransactionData.t)
    (s : ChainVisualizationScene.t) :
  SceneInvariant s -> SceneInvariant (ChainVisualizationScene.handleNewTransaction txData s).
Proof.
  intros Hinv.
  destruct (ChainVisualizationScene.isSceneReady s) eqn:Hready;
    [|unfold ChainVisualizationScene.handleNewTransaction; rewrite Hready; exact Hinv].
  destruct (handleNewTransaction_container txData s Hinv Hready) as (color & Hc).
  cbv zeta in Hc.
  set (n := List.length (ChainVisualizationScene.transactionContainer s)) in *.
  pose proof (transactions_bounded s Hinv) as Hb. fold n in Hb.
  assert (Hsub : incl (if (n <? 150)%nat then ChainVisualizationScene.transactionContainer s
                       else tl (ChainVisualizationScene.transactionContainer s))
                      (ChainVisualizationScene.transactionContainer s)).
  { destruct (n <? 150)%nat; [apply incl_refl|].
    destruct (ChainVisualizationScene.transactionContainer s); [apply incl_refl|].
    apply incl_tl, incl_refl. }
  assert (Hnd : NoDup (shown (if (n <? 150)%nat
                              then ChainVisualizationScene.transactionContainer s
                              else tl (ChainVisualizationScene.transactionContainer s)))).
  { pose proof (transaction_objects_distinct s Hinv) as H.
    destruct (n <? 150)%nat; [exact H|].
    destruct (ChainVisualizationScene.transactionContainer s); [exact H|].
    now inversion H. }
  assert (Hlen : (List.length (if (n <? 150)%nat
                               then ChainVisualizationScene.transactionContainer s
                               else tl (ChainVisualizationScene.transactionContainer s))
                  < 150)%nat).
  { destruct (Nat.ltb_spec n 150); [exact H|].
    subst n. destruct (ChainVisualizationScene.transactionContainer s); cbn in *; lia. }
  pose proof (transaction_objects_known s Hinv) as Hknown.
  assert (Hknown' : Forall (fun k => (k < ChainVisualizationScene.next_object s)%nat)
                           (shown (if (n <? 150)%nat
                                   then ChainVisualizationScene.transactionContainer s
                                   else tl (ChainVisualizationScene.transactionContainer s)))).
  { rewrite Forall_forall in *. intros k Hk. apply Hknown.
    unfold shown in *. apply in_map_iff in Hk as (o & <- & Ho). apply in_map. now apply Hsub. }
  destruct Hinv.
  constructor; rewrite ?Hc;
    unfold ChainVisualizationScene.handleNewTransaction; rewrite ?Hready; cbn [negb];
    cbn [ChainVisualizationScene.next_object ChainVisualizationScene.blockContainer
         ChainVisualizationScene.transactionSprites ChainVisualizationScene.blockSprites];
    try assumption.
  - now apply known_weaken.
  - unfold shown. rewrite map_app. apply Forall_app. split.
    + now apply known_weaken.
    + repeat constructor.
  - apply Forall_values_set; [lia|now apply known_weaken].
  - unfold shown in *. rewrite map_app. cbn [map ChainVisualizationScene.id].
    apply NoDup_app; [exact Hnd|repeat constructor; intros []|].
    intros k Hk [<-|[]]. revert Hk. now apply known_fresh.
  - now apply NoDup_keys_set.
  - apply NoDup_values_set; [now apply known_fresh|assumption].
  - rewrite length_app. cbn [List.length]. lia.
  - apply Forall_app. split.
    + rewrite Forall_forall in *. intros o Ho. apply transactions_on_grid0. now apply Hsub.
    + constructor; [|constructor].
      exists (n mod 15)%nat, (n / 15)%nat.
      cbn [ChainVisualizationScene.x ChainVisualizationScene.y].
      split; [apply Nat.mod_upper_bound; lia|].
      split; [apply Nat.Div0.div_le_upper_bound; lia|].
      split; reflexivity.
Qed.

(** The block container after [handleNewBlock] on a ready scene. *)
Lemma handleNewBlock_container (blockData : ProcessedBlockData.t)
    (s : ChainVisualizationScene.t) :
  SceneInvariant s ->
  ChainVisualizationScene.isSceneReady s = true ->
  let n := List.length (ChainVisualizationScene.blockContainer s) in
  shown (ChainVisualizationScene.blockContainer
           (ChainVisualizationScene.handleNewBlock blockData s))
  = ((if (n <? 20)%nat then shown (ChainVisualizationScene.blockContainer s)
      else skipn 2 (shown (ChainVisualizationScene.blockContainer s)))
     ++ [ChainVisualizationScene.next_object s; S (ChainVisualizationScene.next_object s)])%list
  /\ in_row 0 (ChainVisualizationScene.blockContainer
                 (ChainVisualizationScene.handleNewBlock blockData s)).
Proof.
  intros Hinv Hready. cbv zeta.
  unfold ChainVisualizationScene.handleNewBlock. rewrite Hready. cbn [negb].
  unfold ChainVisualizationScene.repositionBlocks.
  cbn [ChainVisualizationScene.blockContainer].
  split; [|apply reposition_from_in_row].
  rewrite shown_reposition_from, length_app. cbn [List.length].
  pose proof (blocks_bounded s Hinv) as Hb.
  pose proof (blocks_paired s Hinv) as [half Hhalf].
  pose proof (block_objects_distinct s Hinv) as Hnd.
  pose proof (known_fresh _ _ (block_objects_known s Hinv)) as Hfresh.
  pose proof (known_fresh _ _ (known_weaken _ _ (block_objects_known s Hinv))) as Hfresh'.
  destruct (Nat.ltb_spec (List.length (ChainVisualizationScene.blockContainer s)) 20)
    as [Hlt|Hge].
  - rewrite (proj2 (Nat.ltb_ge _ _)) by lia.
    unfold shown. now rewrite map_app.
  - rewrite (proj2 (Nat.ltb_lt _ _)) by lia.
    destruct (ChainVisualizationScene.blockContainer s) as [|a [|b r]];
      try (cbn in Hge; lia).
    change ((a :: b :: r) ++ ?l)%list with (a :: b :: (r ++ l))%list. cbv iota.
    assert (Hall : NoDup (shown (a :: b :: r ++
                     [{| ChainVisualizationScene.id := ChainVisualizationScene.next_object s;
                         ChainVisualizationScene.x :=
                           (Num.of_nat (List.length (a :: b :: r)) / Num.of_Z 2
                            * Num.of_Z 70)%num;
                         ChainVisualizationScene.y := Num.zero;
                         ChainVisualizationScene.fillColor := 65280 |};
                      {| ChainVisualizationScene.id := S (ChainVisualizationScene.next_object s);
                         ChainVisualizationScene.x :=
                           (Num.of_nat (List.length (a :: b :: r)) / Num.of_Z 2
                            * Num.of_Z 70)%num;
                         ChainVisualizationScene.y := Num.zero;
                         ChainVisualizationScene.fillColor := 0 |}]))).
    { change (a :: b :: r ++ ?l)%list with ((a :: b :: r) ++ l)%list.
      unfold shown in *. rewrite map_app. cbn [map ChainVisualizationScene.id].
      apply NoDup_app; [exact Hnd| |].
      - repeat constructor; cbn; [lia|tauto].
      - intros k Hk [<-|[<-|[]]]; [now apply Hfresh|now apply Hfresh']. }
    rewrite (remove_head a _ Hall).
    rewrite remove_head by (now inversion Hall).
    unfold shown. rewrite map_app. reflexivity.
Qed.

Lemma SceneInvariant_handleNewBlock (blockData : ProcessedBlockData.t)
    (s : ChainVisualizationScene.t) :
  SceneInvariant s -> SceneInvariant (ChainVisualizationScene.handleNewBlock blockData s).
Proof.
  intros Hinv.
  destruct (ChainVisualizationScene.isSceneReady s) eqn:Hready;
    [|unfold ChainVisualizationScene.handleNewBlock; rewrite Hready; exact Hinv].
  destruct (handleNewBlock_container blockData s Hinv Hready) as (Hshown & Hrow).
  cbv zeta in Hshown.
  set (n := List.length (ChainVisualizationScene.blockContainer s)) in *.
  pose proof (blocks_bounded s Hinv) as Hb. fold n in Hb.
  pose proof (blocks_paired s Hinv) as [half Hhalf]. fold n in Hhalf.
  pose proof (block_objects_known s Hinv) as Hknown.
  pose proof (block_objects_distinct s Hinv) as Hnd.
  assert (Hlen : List.length (shown (ChainVisualizationScene.blockContainer s)) = n)
    by (unfold shown; apply length_map).
  set (kept := if (n <? 20)%nat then shown (ChainVisualizationScene.blockContainer s)
               else skipn 2 (shown (ChainVisualizationScene.blockContainer s))) in *.
  assert (Hsub : incl kept (shown (ChainVisualizationScene.blockContainer s))).
  { unfold kept. destruct (n <? 20)%nat; [apply incl_refl|].
    intros k Hk. rewrite <- (firstn_skipn 2). apply in_or_app. now right. }
  assert (Hkept : NoDup kept).
  { unfold kept. destruct (n <? 20)%nat; [exact Hnd|].
    rewrite <- (firstn_skipn 2) in Hnd. now apply NoDup_app_remove_l in Hnd. }
  assert (Hklen : List.length kept = if (n <? 20)%nat then n else (n - 2)%nat).
  { unfold kept. destruct (n <? 20)%nat; [exact Hlen|]. now rewrite length_skipn, Hlen. }
  assert (Hshown_len :
            List.length (ChainVisualizationScene.blockContainer
                           (ChainVisualizationScene.handleNewBlock blockData s))
            = (List.length kept + 2)%nat).
  { rewrite <- (length_map ChainVisualizationScene.id). fold (shown (ChainVisualizationScene.blockContainer
                           (ChainVisualizationScene.handleNewBlock blockData s))).
    rewrite Hshown, length_app. reflexivity. }
  destruct Hinv.
  constructor; try exact Hrow; rewrite ?Hshown, ?Hshown_len, ?Hklen;
    unfold ChainVisualizationScene.handleNewBlock; rewrite ?Hready; cbn [negb];
    unfold ChainVisualizationScene.repositionBlocks;
    cbn [ChainVisualizationScene.next_object ChainVisualizationScene.transactionContainer
         ChainVisualizationScene.transactionSprites ChainVisualizationScene.blockSprites];
    try assumption.
  - apply Forall_app. split.
    + rewrite Forall_forall in *. intros k Hk. apply Hsub, Hknown in Hk. lia.
    + repeat constructor; lia.
  - now apply known_weaken, known_weaken.
  - now apply known_weaken, known_weaken.
  - apply NoDup_app; [exact Hkept| |].
    + repeat constructor; cbn; [lia|tauto].
    + intros k Hk Hin. apply Hsub in Hk. rewrite Forall_forall in Hknown.
      apply Hknown in Hk. destruct Hin as [<-|[<-|[]]]; lia.
  - destruct (Nat.ltb_spec n 20); lia.
  - destruct (Nat.ltb_spec n 20); [exists (S half)|exists half]; lia.
Qed.

Lemma scene_reachable_Invariant (s : ChainVisualizationScene.t) :
  scene_reachable s -> SceneInvariant s.
Proof.
  induction 1 as [|s f _ IH Hstep]; [apply SceneInvariant_create|].
  destruct Hstep.
  - now apply SceneInvariant_handleNewBlock.
  - now apply SceneInvariant_handleNewTransaction.
  - now apply SceneInvariant_removeTransaction.
  - now apply SceneInvariant_shutdown.
Qed.

Lemma scene_reachable_iter (n : nat) (f : ChainVisualizationScene.t -> ChainVisualizationScene.t)
    (s : ChainVisualizationScene.t) :
  scene_step f -> scene_reachable s -> scene_reachable (Nat.iter n f s).
Proof.
  intros Hf Hs. induction n as [|n IH]; [exact Hs|].
  change (Nat.iter (S n) f s) with (f (Nat.iter n f s)). now apply scene_next.
Qed.

Lemma scene_reachable_show_blocks (hashes : list string) (s : ChainVisualizationScene.t) :
  scene_reachable s -> scene_reachable (show_blocks hashes s).
Proof.
  revert s. induction hashes as [|h r IH]; intros s Hs; [exact Hs|].
  apply IH. apply scene_next; [exact Hs|apply scene_block].
Qed.

Lemma reachable_sample_scene_ten_blocks : scene_reachable sample_scene_ten_blocks.
Proof. apply scene_reachable_show_blocks, scene_created. Qed.

Lemma reachable_sample_scene_pending : scene_reachable sample_scene_pending.
Proof. apply scene_next; [apply scene_created|apply scene_transaction]. Qed.

Lemma reachable_sample_scene_full : scene_reachable sample_scene_full.
Proof. apply scene_reachable_iter; [apply scene_transaction|apply scene_created]. Qed.

Lemma sample_scene_full_length :
  List.length (ChainVisualizationScene.transactionContainer sample_scene_full) = 150%nat.
Proof. vm_compute. reflexivity. Qed.

(** X25. Whatever the scene has been made to show, its transaction
    container holds at most 150 sprites and each of them sits on a cell of
    a grid of 15 columns and 11 rows, 35 apart. *)
Theorem transactions_stay_on_grid (s : ChainVisualizationScene.t) :
  scene_reachable s ->
  (List.length (ChainVisualizationScene.transactionContainer s) <= 150)%nat /\
  Forall on_grid (ChainVisualizationScene.transactionContainer s).
Proof.
  intros Hs. apply scene_reachable_Invariant in Hs.
  split; [apply (transactions_bounded s Hs)|apply (transactions_on_grid s Hs)].
Qed.

Lemma transactions_stay_on_grid_witness :
  (List.length (ChainVisualizationScene.transactionContainer sample_scene_full) <= 150)%nat /\
  Forall on_grid (ChainVisualizationScene.transactionContainer sample_scene_full).
Proof. exact (transactions_stay_on_grid sample_scene_full reachable_sample_scene_full). Defined.

(** X26. Once the transaction container is full, every new transaction is
    drawn on the same cell: the oldest sprite is dropped and the new one is
    placed at (0, 350), the first cell of the eleventh row, whatever the
    sprites before it; the container is full again. *)
Theorem full_grid_piles_up (s : ChainVisualizationScene.t)
    (txData : ProcessedTransactionData.t) :
  scene_reachable s ->
  ChainVisualizationScene.isSceneReady s = true ->
  List.length (ChainVisualizationScene.transactionContainer s) = 150%nat ->
  let s' := ChainVisualizationScene.handleNewTransaction txData s in
  List.length (ChainVisualizationScene.transactionContainer s') = 150%nat /\
  exists color,
    ChainVisualizationScene.transactionContainer s'
    = (tl (ChainVisualizationScene.transactionContainer s)
       ++ [{| ChainVisualizationScene.id := ChainVisualizationScene.next_object s;
              ChainVisualizationScene.x := Num.zero;
              ChainVisualizationScene.y := Num.of_nat 350;
              ChainVisualizationScene.fillColor := color |}])%list.
Proof.
  intros Hs Hready Hfull. cbv zeta.
  apply scene_reachable_Invariant in Hs.
  destruct (handleNewTransaction_container txData s Hs Hready) as (color & Hc).
  cbv zeta in Hc. rewrite Hfull in Hc. cbn [Nat.ltb Nat.leb] in Hc.
  change (Num.of_nat ((150 mod 15) * 35)) with Num.zero in Hc.
  change ((150 / 15) * 35)%nat with 350%nat in Hc.
  split; [|now exists color].
  rewrite Hc, length_app. cbn [List.length].
  destruct (ChainVisualizationScene.transactionContainer s); cbn in *; lia.
Qed.

Lemma full_grid_piles_up_witness :
  let s' := ChainVisualizationScene.handleNewTransaction sample_pending_record
              sample_scene_full in
  List.length (ChainVisualizationScene.transactionContainer s') = 150%nat /\
  exists color,
    ChainVisualizationScene.transactionContainer s'
    = (tl (ChainVisualizationScene.transactionContainer sample_scene_full)
       ++ [{| ChainVisualizationScene.id := ChainVisualizationScene.next_object sample_scene_full;
              ChainVisualizationScene.x := Num.zero;
              ChainVisualizationScene.y := Num.of_nat 350;
              ChainVisualizationScene.fillColor := color |}])%list.
Proof.
  exact (full_grid_piles_up sample_scene_full sample_pending_record
           reachable_sample_scene_full eq_refl sample_scene_full_length).
Defined.

(** X27. [handleNewTransaction] does not look for a sprite the transaction
    already has: a status update adds a second sprite and the map then
    refers to the new one only. When the transaction is removed afterwards,
    the new sprite goes and the old one stays in the container, with no
    hash left in the map that refers to it. *)
Theorem updated_transaction_leaves_orphan (s : ChainVisualizationScene.t)
    (txData : ProcessedTransactionData.t) (old : nat) :
  scene_reachable s ->
  ChainVisualizationScene.isSceneReady s = true ->
  JsMap.get (ChainVisualizationScene.transactionSprites s)
            (ProcessedTransactionData.hash txData) = Some old ->
  In old (shown (ChainVisualizationScene.transactionContainer s)) ->
  (List.length (ChainVisualizationScene.transactionContainer s) < 150)%nat ->
  let s1 := ChainVisualizationScene.handleNewTransaction txData s in
  let s2 := ChainVisualizationScene.removeTransaction
              (ProcessedTransactionData.hash txData) s1 in
  shown (ChainVisualizationScene.transactionContainer s1)
    = (shown (ChainVisualizationScene.transactionContainer s)
       ++ [ChainVisualizationScene.next_object s])%list /\
  shown (ChainVisualizationScene.transactionContainer s2)
    = shown (ChainVisualizationScene.transactionContainer s) /\
  forall hash, JsMap.get (ChainVisualizationScene.transactionSprites s2) hash <> Some old.
Proof.
  intros Hs Hready Hold Hin Hroom. cbv zeta.
  apply scene_reachable_Invariant in Hs.
  destruct (handleNewTransaction_container txData s Hs Hready) as (color & Hc).
  cbv zeta in Hc. rewrite (proj2 (Nat.ltb_lt _ _) Hroom) in Hc.
  pose proof (known_fresh _ _ (transaction_objects_known s Hs)) as Hfresh.
  assert (Hsprites :
            ChainVisualizationScene.transactionSprites
              (ChainVisualizationScene.handleNewTransaction txData s)
            = JsMap.set (ChainVisualizationScene.transactionSprites s)
                (ProcessedTransactionData.hash txData)
                (ChainVisualizationScene.next_object s)).
  { unfold ChainVisualizationScene.handleNewTransaction. now rewrite Hready. }
  assert (H1 : shown (ChainVisualizationScene.transactionContainer
                        (ChainVisualizationScene.handleNewTransaction txData s))
               = (shown (ChainVisualizationScene.transactionContainer s)
                  ++ [ChainVisualizationScene.next_object s])%list).
  { rewrite Hc. unfold shown. now rewrite map_app. }
  split; [exact H1|].
  unfold ChainVisualizationScene.removeTransaction.
  rewrite Hsprites, get_set_same.
  cbn [ChainVisualizationScene.transactionContainer ChainVisualizationScene.transactionSprites].
  split.
  - rewrite remove_shown, H1, remove_app.
    rewrite notin_remove by exact Hfresh.
    cbn [List.remove]. destruct (Nat.eq_dec _ _) as [_|Hne]; [|now destruct Hne].
    now rewrite app_nil_r.
  - intros hash Hget.
    destruct (String.eqb_spec (ProcessedTransactionData.hash txData) hash) as [<-|Hne].
    + rewrite get_delete_same in Hget; [discriminate|].
      apply NoDup_keys_set, (transaction_hashes_distinct s Hs).
    + rewrite get_delete_other, get_set_other in Hget by exact Hne.
      apply Hne.
      apply (get_injective _ _ _ old (transaction_references_distinct s Hs) Hold Hget).
Qed.

Lemma updated_transaction_leaves_orphan_witness :
  let s1 := ChainVisualizationScene.handleNewTransaction sample_pending_record
              sample_scene_pending in
  let s2 := ChainVisualizationScene.removeTransaction "0x71" s1 in
  shown (ChainVisualizationScene.transactionContainer s1) = [0; 1]%nat /\
  shown (ChainVisualizationScene.transactionContainer s2) = [0%nat] /\
  forall hash, JsMap.get (ChainVisualizationScene.transactionSprites s2) hash <> Some 0%nat.
Proof.
  refine (updated_transaction_leaves_orphan sample_scene_pending sample_pending_record 0
            reachable_sample_scene_pending eq_refl eq_refl _ _).
  - now left.
  - cbn. lia.
Defined.

(** X28. Whatever the scene has been made to show, its block container
    holds at most ten blocks, each as a sprite followed by its label, and
    they stand in a row from 0, 70 apart. *)
Theorem blocks_stand_in_a_row (s : ChainVisualizationScene.t) :
  scene_reachable s ->
  (List.length (ChainVisualizationScene.blockContainer s) <= 20)%nat /\
  Nat.Even (List.length (ChainVisualizationScene.blockContainer s)) /\
  in_row 0 (ChainVisualizationScene.blockContainer s).
Proof.
  intros Hs. apply scene_reachable_Invariant in Hs.
  split; [apply (blocks_bounded s Hs)|].
  split; [apply (blocks_paired s Hs)|apply (blocks_in_row s Hs)].
Qed.

Lemma blocks_stand_in_a_row_witness :
  (List.length (ChainVisualizationScene.blockContainer sample_scene_ten_blocks) <= 20)%nat /\
  Nat.Even (List.length (ChainVisualizationScene.blockContainer sample_scene_ten_blocks)) /\
  in_row 0 (ChainVisualizationScene.blockContainer sample_scene_ten_blocks).
Proof.
  exact (blocks_stand_in_a_row sample_scene_ten_blocks reachable_sample_scene_ten_blocks).
Defined.

(** X29. The map of block sprites is never pruned. When the block container
    is full, the next block drops the oldest sprite from the container,
    which stays full, but the hash that referred to it still refers to it
    in [blockSprites]. *)
Theorem evicted_block_stays_referenced (s : ChainVisualizationScene.t)
    (blockData : ProcessedBlockData.t) (hash : string) (old : nat) :
  scene_reachable s ->
  ChainVisualizationScene.isSceneReady s = true ->
  List.length (ChainVisualizationScene.blockContainer s) = 20%nat ->
  hd_error (shown (ChainVisualizationScene.blockContainer s)) = Some old ->
  JsMap.get (ChainVisualizationScene.blockSprites s) hash = Some old ->
  hash <> ProcessedBlockData.hash blockData ->
  let s' := ChainVisualizationScene.handleNewBlock blockData s in
  ~ In old (shown (ChainVisualizationScene.blockContainer s')) /\
  List.length (ChainVisualizationScene.blockContainer s') = 20%nat /\
  JsMap.get (ChainVisualizationScene.blockSprites s') hash = Some old.
Proof.
  intros Hs Hready Hfull Hhd Hget Hne. cbv zeta.
  apply scene_reachable_Invariant in Hs.
  destruct (handleNewBlock_container blockData s Hs Hready) as (Hshown & _).
  cbv zeta in Hshown. rewrite Hfull in Hshown. cbn [Nat.ltb Nat.leb] in Hshown.
  pose proof (block_objects_distinct s Hs) as Hnd.
  pose proof (block_objects_known s Hs) as Hknown.
  assert (Hlen : List.length (shown (ChainVisualizationScene.blockContainer s)) = 20%nat)
    by (unfold shown; now rewrite length_map).
  split; [|split].
  - rewrite Hshown. intros Hin. apply in_app_or in Hin as [Hin|Hin].
    + destruct (shown (ChainVisualizationScene.blockContainer s)) as [|a [|b r]];
        try discriminate.
      injection Hhd as ->. cbn [skipn] in Hin.
      inversion Hnd as [|? ? Hnot _]; subst. apply Hnot. now right.
    + assert (Hold : (old < ChainVisualizationScene.next_object s)%nat).
      { rewrite Forall_forall in Hknown. apply Hknown.
        destruct (shown (ChainVisualizationScene.blockContainer s)); [discriminate|].
        injection Hhd as ->. now left. }
      destruct Hin as [<-|[<-|[]]]; lia.
  - rewrite <- (length_map ChainVisualizationScene.id).
    change (map ChainVisualizationScene.id ?l) with (shown l).
    rewrite Hshown, length_app, length_skipn, Hlen. reflexivity.
  - unfold ChainVisualizationScene.handleNewBlock. rewrite Hready. cbn [negb].
    unfold ChainVisualizationScene.repositionBlocks.
    cbn [ChainVisualizationScene.blockSprites].
    rewrite get_set_other by congruence. exact Hget.
Qed.

Lemma sample_scene_ten_blocks_full :
  List.length (ChainVisualizationScene.blockContainer sample_scene_ten_blocks) = 20%nat.
Proof. vm_compute. reflexivity. Qed.

Lemma evicted_block_stays_referenced_witness :
  let s' := ChainVisualizationScene.handleNewBlock (sample_block_record "0xba")
              sample_scene_ten_blocks in
  ~ In 0%nat (shown (ChainVisualizationScene.blockContainer s')) /\
  List.length (ChainVisualizationScene.blockContainer s') = 20%nat /\
  JsMap.get (ChainVisualizationScene.blockSprites s') "0xb0" = Some 0%nat.
Proof.
  refine (evicted_block_stays_referenced sample_scene_ten_blocks (sample_block_record "0xba")
            "0xb0" 0 reachable_sample_scene_ten_blocks eq_refl
            sample_scene_ten_blocks_full eq_refl eq_refl _).
  discriminate.
Defined.
